(** * media-engine: the job pipeline, embedded and verified

    A shallow embedding of the job processing pipeline of media-engine:

    - [app/models.py]              the enumerations and the request/response values;
    - [app/transcode/profiles.py]  the profile table and [choose_profile];
    - [app/transcode/probe.py]     the [MediaInfo] value returned by the prober;
    - [app/transcode/engine.py]    codec resolution, the remux decision, the
                                   ffmpeg command lines, the progress updates;
    - [app/utils/callbacks.py]     the webhook retry loop;
    - [app/jobs.py]                [JobRecord], [to_detail] and the [JobManager];
    - [app/main.py]                the handlers that read the manager;
    - [app/selftest.py]            the start-up self-test.

    Conventions of the embedding.

    - Python [int] is [Z].  Python [float] (seconds, fractions) is modelled by the
      exact rationals [Q]: only comparisons, [min]/[max], subtraction and guarded
      divisions are performed on these values; NaN and infinities are left out.
      Rounding is not modelled, so what is stated of these values are facts of
      order and sign, which the doubles share, and no algebraic identity.
    - [datetime] is a number of microseconds ([Z]); [total_seconds] divides by 10^6.
    - [Optional[T]] is [option T]; Python truthiness is written out
      ([None], [0], [0.0] and the empty string are falsy).
    - Record objects are shared between the [records] dictionary, the queue and
      the worker: the manager state carries a heap of record objects addressed by
      identity, and the dictionary and the work items hold references.
    - Calls that leave the process (ffprobe, ffmpeg, HTTP) are answered by an
      explicit environment; their visible effects are logged in the state.
      An ffmpeg process is one that was started: [subprocess.Popen] failing to
      start it, and [mkdir] failing on the work directory, are outside the
      model, and what is stated of ffmpeg is stated of the exit codes of its
      runs. *)

From Stdlib Require Import ZArith QArith Qfield String Ascii List Bool Lia.
From stdpp Require Import base option list gmap strings pretty.

Local Open Scope string_scope.
Local Open Scope Z_scope.

(** ** app/models.py *)

Inductive JobStatus := queued | processing | completed | failed | cancelled.

Inductive QualityTarget := q_auto | uhd_2160p | fhd_1080p | hd_720p | sd_480p.

Inductive CodecPreference := c_auto | h264 | h265.

#[global] Instance JobStatus_eq_dec : EqDecision JobStatus.
Proof. solve_decision. Defined.
#[global] Instance QualityTarget_eq_dec : EqDecision QualityTarget.
Proof. solve_decision. Defined.
#[global] Instance CodecPreference_eq_dec : EqDecision CodecPreference.
Proof. solve_decision. Defined.

(** [Enum.value] of the three string enumerations. *)
Definition JobStatus_value (s : JobStatus) : string :=
  match s with
  | queued => "queued" | processing => "processing" | completed => "completed"
  | failed => "failed" | cancelled => "cancelled"
  end.

Definition QualityTarget_value (q : QualityTarget) : string :=
  match q with
  | q_auto => "auto" | uhd_2160p => "uhd_2160p" | fhd_1080p => "fhd_1080p"
  | hd_720p => "hd_720p" | sd_480p => "sd_480p"
  end.

Definition CodecPreference_value (c : CodecPreference) : string :=
  match c with c_auto => "auto" | h264 => "h264" | h265 => "h265" end.

Record JobRequest := {
  rq_quality : QualityTarget;
  rq_codec : CodecPreference;
  rq_callback_url : option string
}.

Record JobResponse := {
  rs_job_id : string;
  rs_status : JobStatus;
  rs_message : option string
}.

Record CallbackPayload := {
  cb_job_id : string;
  cb_status : JobStatus;
  cb_output_path : option string;
  cb_message : option string
}.

(** ** app/transcode/profiles.py *)

Record QualityProfile := {
  p_name : QualityTarget;
  p_width : Z;
  p_height : Z;
  p_video_bitrate : Z;
  p_codec : CodecPreference
}.

#[global] Instance QualityProfile_eq_dec : EqDecision QualityProfile.
Proof. solve_decision. Defined.

(** The dictionary [PROFILES], in insertion order. *)
Definition PROFILES : list (QualityTarget * QualityProfile) :=
  [ (uhd_2160p, {| p_name := uhd_2160p; p_width := 3840; p_height := 2160;
                   p_video_bitrate := 8000000; p_codec := h265 |});
    (fhd_1080p, {| p_name := fhd_1080p; p_width := 1920; p_height := 1080;
                   p_video_bitrate := 12000000; p_codec := h264 |});
    (hd_720p,   {| p_name := hd_720p; p_width := 1280; p_height := 720;
                   p_video_bitrate := 6000000; p_codec := h264 |});
    (sd_480p,   {| p_name := sd_480p; p_width := 854; p_height := 480;
                   p_video_bitrate := 3000000; p_codec := h264 |}) ].

(** [PROFILES.values()]. *)
Definition PROFILES_values : list QualityProfile := map snd PROFILES.

(** [PROFILES[k]]; [None] stands for the [KeyError]. *)
Fixpoint dict_get {V} (d : list (QualityTarget * V)) (k : QualityTarget) : option V :=
  match d with
  | [] => None
  | (k', v) :: d' => if decide (k' = k) then Some v else dict_get d' k
  end.

(** [sorted(xs, key=..., reverse=True)]: a stable sort by descending key
    (elements with equal keys keep their original order: [x], which comes
    before everything already placed, goes in front of the first element whose
    key is not larger). *)
Fixpoint insert_desc {A} (key : A -> Z) (x : A) (l : list A) : list A :=
  match l with
  | [] => [x]
  | y :: l' => if key y <=? key x then x :: y :: l' else y :: insert_desc key x l'
  end.

Definition sorted_desc {A} (key : A -> Z) (l : list A) : list A :=
  foldr (fun x acc => insert_desc key x acc) [] l.

(** The [for profile in sorted_profiles] loop of [choose_profile]. *)
Fixpoint first_fitting (source_width source_height : Z) (ps : list QualityProfile)
  : option QualityProfile :=
  match ps with
  | [] => None
  | profile :: rest =>
      if (source_height >=? p_height profile) || (source_width >=? p_width profile)
      then Some profile
      else first_fitting source_width source_height rest
  end.

(** [choose_profile]; [None] is the [KeyError] of a key missing from [PROFILES]
    (it cannot happen, see [choose_profile_total]). *)
Definition choose_profile (source_width source_height : Z) (request : QualityTarget)
  : option QualityProfile :=
  if negb (bool_decide (request = q_auto)) then dict_get PROFILES request
  else
    let sorted_profiles := sorted_desc p_height PROFILES_values in
    match first_fitting source_width source_height sorted_profiles with
    | Some profile => Some profile
    | None => dict_get PROFILES sd_480p
    end.

(** ** app/transcode/probe.py *)

Record MediaStreamInfo := {
  s_codec_type : string;
  s_codec_name : option string;
  s_width : option Z;
  s_height : option Z;
  s_bit_rate : option Z
}.

Record MediaInfo := {
  i_container : option string;
  i_bit_rate : option Z;
  i_duration : option Q;
  i_video : option MediaStreamInfo;
  i_audio : option MediaStreamInfo
}.

(** ** Python values *)

(** Exceptions raised inside the pipeline, with their message. *)
Inductive Exc :=
| RuntimeError (msg : string)
| ProbeError (msg : string)
| KeyError (msg : string)
| OSError (msg : string).

(** [str(exc)]. *)
Definition str_exc (e : Exc) : string :=
  match e with
  | RuntimeError m | ProbeError m | KeyError m | OSError m => m
  end.

(** A computation that either raises or returns. *)
Definition result (A : Type) : Type := Exc + A.

Definition raise {A} (e : Exc) : result A := inl e.
Definition ret {A} (a : A) : result A := inr a.
Definition bind {A B} (m : result A) (k : A -> result B) : result B :=
  match m with inl e => inl e | inr a => k a end.

(** Truthiness of [Optional[int]], [Optional[float]] and [Optional[str]]. *)
Definition truthy_int (o : option Z) : bool :=
  match o with None => false | Some z => negb (z =? 0) end.

Definition truthy_float (o : option Q) : bool :=
  match o with None => false | Some q => negb (Qeq_bool q 0) end.

Definition truthy_str (o : option string) : bool :=
  match o with None => false | Some s => negb (bool_decide (s = "")) end.

(** [min(a, b)] and [max(a, b)] of Python: the first argument is kept unless
    the second is strictly smaller (larger). *)
Definition py_min (a b : Q) : Q := if Qlt_le_dec b a then b else a.
Definition py_max (a b : Q) : Q := if Qlt_le_dec a b then b else a.

(** [a > b] and [a > 0] on floats. *)
Definition Qgtb (a b : Q) : bool := if Qlt_le_dec b a then true else false.

(** [str.lower()] on ASCII text. *)
Definition lower_ascii (c : ascii) : ascii :=
  let n := N_of_ascii c in
  if ((65 <=? n) && (n <=? 90))%N then ascii_of_N (n + 32) else c.

Fixpoint lower (s : string) : string :=
  match s with
  | EmptyString => EmptyString
  | String c rest => String (lower_ascii c) (lower rest)
  end.

(** [needle in hay] on strings. *)
Fixpoint str_in (needle hay : string) : bool :=
  String.prefix needle hay ||
  match hay with
  | EmptyString => false
  | String _ rest => str_in needle rest
  end.

(** [str(n)] for an [int]. *)
Definition str_int (n : Z) : string := pretty n.

(** ** app/config.py: the settings the pipeline reads *)

Record Settings := {
  input_dir : string;
  work_dir : string;
  output_dir : string;
  max_queue_size : Z;
  job_retention_minutes : Z;
  callback_max_attempts : Z;
  ffmpeg_command : string
}.

(** [directory / name] on paths. *)
Definition path_join (dir file : string) : string := dir ++ "/" ++ file.

(** ** app/jobs.py: JobRecord *)

(** A [datetime], in microseconds. *)
Definition datetime : Type := Z.

(** [(a - b).total_seconds()]. *)
Definition total_seconds (a b : datetime) : Q := Qmake (a - b) 1000000.

Record JobRecord := {
  job_id : string;
  status : JobStatus;
  created_at : datetime;
  updated_at : datetime;
  source_path : string;
  source_filename : string;
  output_path : option string;
  quality : QualityTarget;
  codec : CodecPreference;
  callback_url : option string;
  error : option string;
  download_started_at : option datetime;
  download_finished_at : option datetime;
  transcode_started_at : option datetime;
  transcode_finished_at : option datetime;
  media_duration_seconds : option Q;
  transcode_media_seconds : option Q
}.

(** Attribute assignments [record.field = v]. *)
Definition set_status (r : JobRecord) (v : JobStatus) : JobRecord :=
  {| job_id := job_id r; status := v; created_at := created_at r;
     updated_at := updated_at r; source_path := source_path r;
     source_filename := source_filename r; output_path := output_path r;
     quality := quality r; codec := codec r; callback_url := callback_url r;
     error := error r; download_started_at := download_started_at r;
     download_finished_at := download_finished_at r;
     transcode_started_at := transcode_started_at r;
     transcode_finished_at := transcode_finished_at r;
     media_duration_seconds := media_duration_seconds r;
     transcode_media_seconds := transcode_media_seconds r |}.

Definition set_updated_at (r : JobRecord) (v : datetime) : JobRecord :=
  {| job_id := job_id r; status := status r; created_at := created_at r;
     updated_at := v; source_path := source_path r;
     source_filename := source_filename r; output_path := output_path r;
     quality := quality r; codec := codec r; callback_url := callback_url r;
     error := error r; download_started_at := download_started_at r;
     download_finished_at := download_finished_at r;
     transcode_started_at := transcode_started_at r;
     transcode_finished_at := transcode_finished_at r;
     media_duration_seconds := media_duration_seconds r;
     transcode_media_seconds := transcode_media_seconds r |}.

Definition set_output_path (r : JobRecord) (v : option string) : JobRecord :=
  {| job_id := job_id r; status := status r; created_at := created_at r;
     updated_at := updated_at r; source_path := source_path r;
     source_filename := source_filename r; output_path := v;
     quality := quality r; codec := codec r; callback_url := callback_url r;
     error := error r; download_started_at := download_started_at r;
     download_finished_at := download_finished_at r;
     transcode_started_at := transcode_started_at r;
     transcode_finished_at := transcode_finished_at r;
     media_duration_seconds := media_duration_seconds r;
     transcode_media_seconds := transcode_media_seconds r |}.

Definition set_error (r : JobRecord) (v : option string) : JobRecord :=
  {| job_id := job_id r; status := status r; created_at := created_at r;
     updated_at := updated_at r; source_path := source_path r;
     source_filename := source_filename r; output_path := output_path r;
     quality := quality r; codec := codec r; callback_url := callback_url r;
     error := v; download_started_at := download_started_at r;
     download_finished_at := download_finished_at r;
     transcode_started_at := transcode_started_at r;
     transcode_finished_at := transcode_finished_at r;
     media_duration_seconds := media_duration_seconds r;
     transcode_media_seconds := transcode_media_seconds r |}.

Definition set_transcode_started_at (r : JobRecord) (v : option datetime) : JobRecord :=
  {| job_id := job_id r; status := status r; created_at := created_at r;
     updated_at := updated_at r; source_path := source_path r;
     source_filename := source_filename r; output_path := output_path r;
     quality := quality r; codec := codec r; callback_url := callback_url r;
     error := error r; download_started_at := download_started_at r;
     download_finished_at := download_finished_at r;
     transcode_started_at := v;
     transcode_finished_at := transcode_finished_at r;
     media_duration_seconds := media_duration_seconds r;
     transcode_media_seconds := transcode_media_seconds r |}.

Definition set_transcode_finished_at (r : JobRecord) (v : option datetime) : JobRecord :=
  {| job_id := job_id r; status := status r; created_at := created_at r;
     updated_at := updated_at r; source_path := source_path r;
     source_filename := source_filename r; output_path := output_path r;
     quality := quality r; codec := codec r; callback_url := callback_url r;
     error := error r; download_started_at := download_started_at r;
     download_finished_at := download_finished_at r;
     transcode_started_at := transcode_started_at r;
     transcode_finished_at := v;
     media_duration_seconds := media_duration_seconds r;
     transcode_media_seconds := transcode_media_seconds r |}.

Definition set_media_duration_seconds (r : JobRecord) (v : option Q) : JobRecord :=
  {| job_id := job_id r; status := status r; created_at := created_at r;
     updated_at := updated_at r; source_path := source_path r;
     source_filename := source_filename r; output_path := output_path r;
     quality := quality r; codec := codec r; callback_url := callback_url r;
     error := error r; download_started_at := download_started_at r;
     download_finished_at := download_finished_at r;
     transcode_started_at := transcode_started_at r;
     transcode_finished_at := transcode_finished_at r;
     media_duration_seconds := v;
     transcode_media_seconds := transcode_media_seconds r |}.

Definition set_transcode_media_seconds (r : JobRecord) (v : option Q) : JobRecord :=
  {| job_id := job_id r; status := status r; created_at := created_at r;
     updated_at := updated_at r; source_path := source_path r;
     source_filename := source_filename r; output_path := output_path r;
     quality := quality r; codec := codec r; callback_url := callback_url r;
     error := error r; download_started_at := download_started_at r;
     download_finished_at := download_finished_at r;
     transcode_started_at := transcode_started_at r;
     transcode_finished_at := transcode_finished_at r;
     media_duration_seconds := media_duration_seconds r;
     transcode_media_seconds := v |}.

(** ** app/transcode/engine.py *)

Record TranscodeResult := {
  t_output_path : string;
  t_remuxed : bool;
  t_profile : QualityProfile;
  t_codec : CodecPreference
}.

(** One line of the [-progress pipe:1] stream as [_run_ffmpeg] classifies it:
    a line starting with [out_time_ms=], whose text after [=] is read by [int]
    ([None] when [int] raises [ValueError]), or any other line. *)
Inductive StdoutLine :=
| out_time_ms (microseconds : option Z)
| other_line.

(** A completed subprocess: its stdout lines, each with the clock reading at
    the moment the line is handled, and its return code. *)
Record Process := {
  proc_stdout : list (StdoutLine * datetime);
  proc_returncode : Z
}.

(** What the engine asks of the machine it runs on. *)
Record World := {
  probe_media : string -> result MediaInfo;      (* ffprobe on a path *)
  rga_exists : bool;                             (* Path("/dev/rga").exists() *)
  popen : list string -> Process;                (* subprocess.Popen(argv) *)
  shutil_move : string -> string -> result unit  (* shutil.move(src, dst) *)
}.

(** The engine object: its settings and the two cached capability sets. *)
Record TranscodeEngine := {
  e_settings : Settings;
  ffmpeg_decoders : gset string;
  ffmpeg_encoders : gset string
}.

Definition _map_codec_name (codec : option string) : option CodecPreference :=
  if negb (truthy_str codec) then None
  else
    let value := lower (default "" codec) in
    if bool_decide (value ∈ ["h264"; "avc1"; "avc"]) then Some h264
    else if bool_decide (value ∈ ["h265"; "hevc"; "hvc1"]) then Some h265
    else None.

Definition _probe (w : World) (source_path : string) : result MediaInfo :=
  probe_media w source_path.

(** The resolution test shared by [_select_profile] and [_should_remux]:
    [not video or not video.width or not video.height]. *)
Definition resolution_unknown (video : option MediaStreamInfo) : bool :=
  match video with
  | None => true
  | Some v => negb (truthy_int (s_width v)) || negb (truthy_int (s_height v))
  end.

Definition _select_profile (info : MediaInfo) (request : JobRequest)
  : result QualityProfile :=
  let video := i_video info in
  match video with
  | Some v =>
      if resolution_unknown video
      then raise (RuntimeError "Unable to determine source resolution")
      else
        match choose_profile (default 0 (s_width v)) (default 0 (s_height v))
                             (rq_quality request) with
        | Some profile => ret profile
        | None => raise (KeyError (QualityTarget_value (rq_quality request)))
        end
  | None => raise (RuntimeError "Unable to determine source resolution")
  end.

Definition _resolve_codec (info : MediaInfo) (profile : QualityProfile)
    (request : JobRequest) : CodecPreference :=
  if negb (bool_decide (rq_codec request = c_auto)) then rq_codec request
  else
    let source_codec :=
      _map_codec_name (match i_video info with
                       | Some v => s_codec_name v
                       | None => None
                       end) in
    match source_codec with
    | Some h264 => h264
    | Some h265 => h265
    | _ =>
        if negb (bool_decide (p_codec profile = c_auto)) then p_codec profile
        else h264
    end.

Definition is_mp4_container (info : MediaInfo) : bool :=
  match i_container info with
  | Some container => negb (bool_decide (container = "")) && str_in "mp4" (lower container)
  | None => false
  end.

Definition _should_remux (info : MediaInfo) (profile : QualityProfile)
    (target_codec : CodecPreference) : bool :=
  let video := i_video info in
  match video with
  | None => false
  | Some v =>
      if resolution_unknown video then false
      else
        let source_codec := _map_codec_name (s_codec_name v) in
        let target_codec :=
          if bool_decide (target_codec = c_auto)
          then default h264 source_codec
          else target_codec in
        if negb (bool_decide (source_codec = Some target_codec)) then false
        else if negb (is_mp4_container info) then false
        else if (default 0 (s_width v) >? p_width profile)
                || (default 0 (s_height v) >? p_height profile) then false
        else true
  end.

Definition _hevc_rate_control (width : Z) : string * string * string :=
  if width >=? 3800 then ("8M", "12M", "18M")
  else if width >=? 2500 then ("5M", "8M", "12M")
  else ("3M", "5M", "8M").

Definition _update_progress (record : JobRecord) (processed_seconds media_duration : Q)
    (now : datetime) : JobRecord :=
  let record := set_transcode_media_seconds record (Some processed_seconds) in
  let record :=
    if bool_decide (media_duration_seconds record = None) && Qgtb media_duration 0
    then set_media_duration_seconds record (Some media_duration)
    else record in
  set_updated_at record now.

(** [[cmd[0], "-progress", "pipe:1", "-nostats"] + cmd[1:]] (no command line
    of the engine is empty). *)
Definition wrapped_cmd (cmd : list string) : list string :=
  match cmd with
  | [] => []
  | c0 :: rest => c0 :: "-progress" :: "pipe:1" :: "-nostats" :: rest
  end.

(** [_run_ffmpeg]: the record is threaded through the progress handler. *)
Definition _run_ffmpeg (w : World) (cmd : list string) (action : string)
    (progress_handler : option (Q -> datetime -> JobRecord -> JobRecord))
    (record : JobRecord) : JobRecord * result unit :=
  let process := popen w (wrapped_cmd cmd) in
  let record :=
    foldl (fun r (entry : StdoutLine * datetime) =>
             match progress_handler, fst entry with
             | Some handler, out_time_ms (Some microseconds) =>
                 let seconds := Qmake microseconds 1000000 in
                 handler seconds (snd entry) r
             | _, _ => r
             end)
          record (proc_stdout process) in
  if negb (proc_returncode process =? 0)
  then (record, raise (RuntimeError ("ffmpeg " ++ action ++ " failed")))
  else (record, ret tt).

Definition _remux (self : TranscodeEngine) (w : World) (source_path dest_path : string)
    (record : JobRecord) : JobRecord * result unit :=
  let cmd := [ ffmpeg_command (e_settings self); "-hide_banner"; "-loglevel"; "error";
               "-y"; "-i"; source_path; "-c"; "copy"; "-movflags"; "+faststart";
               dest_path ] in
  _run_ffmpeg w cmd "remux" None record.

(** [record.media_duration_seconds or 0.0]. *)
Definition duration_or_zero (record : JobRecord) : Q :=
  if truthy_float (media_duration_seconds record)
  then default 0%Q (media_duration_seconds record) else 0%Q.

Definition cpu_cmd (self : TranscodeEngine) (source_path dest_path : string)
    (profile : QualityProfile) (codec : CodecPreference) : list string :=
  let video_codec := if bool_decide (codec = h265) then "libx265" else "libx264" in
  let bitrate := str_int (p_video_bitrate profile) in
  let vf :=
    "scale=w=" ++ str_int (p_width profile) ++ ":h=" ++ str_int (p_height profile)
      ++ ":force_original_aspect_ratio=decrease"
      ++ ",pad=w=" ++ str_int (p_width profile) ++ ":h=" ++ str_int (p_height profile)
      ++ ":x=(ow-iw)/2:y=(oh-ih)/2" in
  [ ffmpeg_command (e_settings self); "-hide_banner"; "-loglevel"; "error"; "-y";
    "-i"; source_path; "-vf"; vf; "-c:v"; video_codec; "-b:v"; bitrate;
    "-preset"; "veryfast"; "-movflags"; "+faststart"; "-c:a"; "aac"; "-b:a"; "128k";
    dest_path ].

Definition _transcode_cpu (self : TranscodeEngine) (w : World) (record : JobRecord)
    (source_path dest_path : string) (profile : QualityProfile)
    (codec : CodecPreference) : JobRecord * result unit :=
  let cmd := cpu_cmd self source_path dest_path profile codec in
  let duration := duration_or_zero record in
  _run_ffmpeg w cmd "transcode"
    (Some (fun seconds now r => _update_progress r seconds duration now)) record.

(** The command line of one RKMPP candidate: [base_cmd] followed by what the
    loop body of [_transcode_rkmpp] appends. *)
Definition rkmpp_cmd (base_cmd : list string) (filter_expr encoder_name : string)
    (profile : QualityProfile) (dest_path : string) : list string :=
  let cmd := base_cmd in
  let cmd := (cmd ++ ["-vf"; filter_expr])%list in
  let cmd := (cmd ++ ["-c:v"; encoder_name])%list in
  let cmd := (cmd ++ ["-pix_fmt"; "nv12"])%list in
  let cmd :=
    if bool_decide (encoder_name = "hevc_rkmpp") then
      let cmd := (cmd ++ ["-profile:v"; "main"; "-tag:v"; "hvc1"])%list in
      let '(bv, maxrate, bufsize) := _hevc_rate_control (p_width profile) in
      (cmd ++ ["-b:v"; bv; "-maxrate"; maxrate; "-bufsize"; bufsize])%list
    else
      (cmd ++ ["-b:v"; str_int (p_video_bitrate profile)])%list in
  (cmd ++ ["-g"; "240"; "-movflags"; "+faststart"; "-c:a"; "aac"; "-b:a"; "128k";
           dest_path])%list.

(** The [for label, filter_expr in filter_candidates] loop: the first candidate
    whose ffmpeg run succeeds returns; a [RuntimeError] is remembered and the
    next candidate is tried (the partial output is unlinked, which touches no
    state of this model); after the last one the remembered error is raised. *)
Fixpoint rkmpp_loop (w : World) (base_cmd : list string) (encoder_name : string)
    (profile : QualityProfile) (dest_path : string)
    (filter_candidates : list (string * string)) (last_error : option Exc)
    (record : JobRecord) : JobRecord * result unit :=
  match filter_candidates with
  | [] =>
      match last_error with
      | Some e => (record, raise e)
      | None => (record, raise (RuntimeError "rk transcode failed"))
      end
  | (label, filter_expr) :: rest =>
      let cmd := rkmpp_cmd base_cmd filter_expr encoder_name profile dest_path in
      let duration := duration_or_zero record in
      match _run_ffmpeg w cmd ("transcode-rkmpp-" ++ label)
              (Some (fun seconds now r => _update_progress r seconds duration now))
              record with
      | (record, inr _) => (record, ret tt)
      | (record, inl (RuntimeError msg)) =>
          rkmpp_loop w base_cmd encoder_name profile dest_path rest
                     (Some (RuntimeError msg)) record
      | (record, inl e) => (record, raise e)
      end
  end.

Definition rkmpp_filter_candidates (w : World) : list (string * string) :=
  ((if rga_exists w
    then [("rkrga", "rkrga=fmt=nv12,pad=ceil(iw/16)*16:ceil(ih/16)*16")]
    else [])
   ++ [("format", "format=nv12,pad=ceil(iw/16)*16:ceil(ih/16)*16")])%list.

Definition rkmpp_base_cmd (self : TranscodeEngine) (source_path decoder_name : string)
  : list string :=
  let decoder_args :=
    if negb (bool_decide (decoder_name = ""))
    then ["-hwaccel"; "rkmpp"; "-c:v"; decoder_name] else [] in
  ([ ffmpeg_command (e_settings self); "-hide_banner"; "-loglevel"; "error"; "-y" ]
   ++ decoder_args ++ ["-i"; source_path])%list.

Definition _transcode_rkmpp (self : TranscodeEngine) (w : World) (record : JobRecord)
    (source_path dest_path : string) (profile : QualityProfile)
    (decoder_name encoder_name : string) : JobRecord * result unit :=
  rkmpp_loop w (rkmpp_base_cmd self source_path decoder_name) encoder_name profile
             dest_path (rkmpp_filter_candidates w) None record.

Definition _rkmpp_decoder_name (codec_name : string) : option string :=
  let codec := lower codec_name in
  let mapping :=
    [ ("av1", "av1_rkmpp"); ("vp9", "vp9_rkmpp"); ("vp8", "vp8_rkmpp");
      ("h264", "h264_rkmpp"); ("avc1", "h264_rkmpp"); ("avc", "h264_rkmpp");
      ("h265", "hevc_rkmpp"); ("hevc", "hevc_rkmpp") ] in
  snd <$> find (fun kv => bool_decide (fst kv = codec)) mapping.

Definition _rkmpp_encoder_name (target_codec : CodecPreference) : option string :=
  if bool_decide (target_codec = h265) then Some "hevc_rkmpp" else Some "h264_rkmpp".

Definition _select_rkmpp_codecs (self : TranscodeEngine) (info : MediaInfo)
    (target_codec : CodecPreference) : bool * string * string :=
  let decoder_name :=
    match i_video info with
    | Some v =>
        if truthy_str (s_codec_name v) then
          let decoder_name := _rkmpp_decoder_name (default "" (s_codec_name v)) in
          if truthy_str decoder_name
             && negb (bool_decide (lower (default "" decoder_name) ∈ ffmpeg_decoders self))
          then None else decoder_name
        else None
    | None => None
    end in
  let encoder_name := _rkmpp_encoder_name target_codec in
  let encoder_name :=
    if truthy_str encoder_name
       && negb (bool_decide (lower (default "" encoder_name) ∈ ffmpeg_encoders self))
    then None else encoder_name in
  let use_hw := truthy_str encoder_name in
  (use_hw,
   if truthy_str decoder_name then default "" decoder_name else "",
   if truthy_str encoder_name then default "" encoder_name else "").

(** [_process_sync]: the record is mutated in place by the source, so it is
    threaded through and returned together with the result or the exception. *)
Definition _process_sync (self : TranscodeEngine) (w : World) (record : JobRecord)
    (request : JobRequest) : JobRecord * result TranscodeResult :=
  let source_path := source_path record in
  let job_id := job_id record in
  match _probe w source_path with
  | inl e => (record, raise e)
  | inr info =>
  match _select_profile info request with
  | inl e => (record, raise e)
  | inr profile =>
      let target_codec := _resolve_codec info profile request in
      let output_path := path_join (output_dir (e_settings self)) (job_id ++ ".mp4") in
      let work_output := path_join (work_dir (e_settings self)) (job_id ++ ".mp4") in
      let record := set_media_duration_seconds record (i_duration info) in
      let '(record, ran, remuxed) :=
        if _should_remux info profile target_codec then
          let '(record, ran) := _remux self w source_path work_output record in
          (record, ran, true)
        else
          let '(use_hw, decoder, encoder) := _select_rkmpp_codecs self info target_codec in
          let '(record, ran) :=
            if use_hw
            then _transcode_rkmpp self w record source_path work_output profile
                                  decoder encoder
            else _transcode_cpu self w record source_path work_output profile
                                target_codec in
          (record, ran, false) in
      match ran with
      | inl e => (record, raise e)
      | inr _ =>
      match shutil_move w work_output output_path with
      | inl e => (record, raise e)
      | inr _ =>
          let record :=
            if negb (bool_decide (media_duration_seconds record = None))
            then set_transcode_media_seconds record (media_duration_seconds record)
            else record in
          (record, ret {| t_output_path := output_path; t_remuxed := remuxed;
                          t_profile := profile; t_codec := target_codec |})
      end
      end
  end
  end.

(** ** app/utils/callbacks.py *)

(** What [dispatch] does to the outside, in order. *)
Inductive NetEvent :=
| ev_post (url : string) (payload : CallbackPayload) (attempt : Z)
| ev_sleep (seconds : Z)
| ev_log_delivered
| ev_log_exhausted.

Record CallbackDispatcher := {
  max_attempts : Z
}.

(** [CallbackDispatcher.__init__]. *)
Definition new_dispatcher (s : Settings) : CallbackDispatcher :=
  {| max_attempts := callback_max_attempts s |}.

(** The body of [for attempt in range(1, self.max_attempts + 1)].  [post]
    answers attempt [k]: [inr tt] when [client.post] and [raise_for_status] go
    through, [inl e] when either raises; the [except Exception] clause catches
    every such [e]. *)
Fixpoint dispatch_loop (post : Z -> result unit) (url : string)
    (payload : CallbackPayload) (attempts : list Z) : list NetEvent :=
  match attempts with
  | [] => [ev_log_exhausted]
  | attempt :: rest =>
      ev_post url payload attempt ::
      match post attempt with
      | inr _ => [ev_log_delivered]
      | inl _ =>
          ev_sleep (Z.min (2 ^ attempt) 30)
            :: dispatch_loop post url payload rest
      end
  end.

(** [dispatch]: the trace of its effects and how the call ends. *)
Definition dispatch (self : CallbackDispatcher) (post : Z -> result unit)
    (url : string) (payload : CallbackPayload) : list NetEvent * result unit :=
  (dispatch_loop post url payload (seqZ 1 (max_attempts self)), ret tt).

(** Observations on a trace. *)
Definition is_post (e : NetEvent) : bool :=
  match e with ev_post _ _ _ => true | _ => false end.

Definition is_sleep (e : NetEvent) : bool :=
  match e with ev_sleep _ => true | _ => false end.

Definition count_posts (t : list NetEvent) : nat := length (List.filter is_post t).
Definition count_sleeps (t : list NetEvent) : nat := length (List.filter is_sleep t).

(** A sleep that is followed by no further attempt. *)
Fixpoint trailing_sleep (t : list NetEvent) : bool :=
  match t with
  | [] => false
  | ev_sleep _ :: rest => negb (existsb is_post rest) || trailing_sleep rest
  | _ :: rest => trailing_sleep rest
  end.

(** ** app/jobs.py: the derived view *)

Record JobDetail := {
  d_job_id : string;
  d_status : JobStatus;
  d_created_at : datetime;
  d_updated_at : datetime;
  d_source_filename : string;
  d_output_filename : option string;
  d_output_path : option string;
  d_quality : QualityTarget;
  d_codec : CodecPreference;
  d_callback_url : option string;
  d_error : option string;
  d_media_duration_seconds : option Q;
  d_download_seconds : option Q;
  d_transcode_seconds : option Q;
  transcode_progress : option Q;
  transcode_eta_seconds : option Q
}.

(** [Path(p).name]: the last component of a path (empty and [.] components
    are dropped by [pathlib]). *)
Fixpoint split_path (cur : string) (s : string) : list string :=
  match s with
  | EmptyString => [cur]
  | String c rest =>
      if Ascii.eqb c "/" then cur :: split_path "" rest
      else split_path (cur ++ String c "") rest
  end.

Definition path_name (p : string) : string :=
  default "" (last (filter (fun c => c <> "" /\ c <> ".") (split_path "" p))).

(** The progress and ETA part of [to_detail]. *)
Definition progress_and_eta (self : JobRecord) (now : datetime) : option Q * option Q :=
  match media_duration_seconds self, transcode_media_seconds self,
        transcode_started_at self with
  | Some media_duration, Some transcode_media, Some started =>
      if truthy_float (Some media_duration) then
        let processed := py_min transcode_media media_duration in
        let progress :=
          if truthy_float (Some media_duration)
          then Some (processed / media_duration)%Q else None in
        let eta_seconds :=
          if truthy_float progress
             && match progress with Some p => Qgtb p 0 | None => false end
             && bool_decide (transcode_finished_at self = None)
          then
            let elapsed := total_seconds now started in
            if Qgtb elapsed 0 then
              let speed := (processed / elapsed)%Q in
              let remaining_media := py_max (media_duration - processed)%Q 0 in
              if Qgtb speed 0 then Some (remaining_media / speed)%Q else None
            else None
          else None in
        (progress, eta_seconds)
      else (None, None)
  | _, _, _ => (None, None)
  end.

(** [JobRecord.to_detail]; [now] is [datetime.utcnow()]. *)
Definition to_detail (self : JobRecord) (now : datetime) : JobDetail :=
  let download_seconds :=
    match download_started_at self, download_finished_at self with
    | Some started, Some finished => Some (total_seconds finished started)
    | _, _ => None
    end in
  let transcode_seconds :=
    match transcode_started_at self with
    | Some started =>
        let end_time := default now (transcode_finished_at self) in
        Some (total_seconds end_time started)
    | None => None
    end in
  let '(progress, eta_seconds) := progress_and_eta self now in
  {| d_job_id := job_id self;
     d_status := status self;
     d_created_at := created_at self;
     d_updated_at := updated_at self;
     d_source_filename := source_filename self;
     d_output_filename := path_name <$> output_path self;
     d_output_path := output_path self;
     d_quality := quality self;
     d_codec := codec self;
     d_callback_url := callback_url self;
     d_error := error self;
     d_media_duration_seconds := media_duration_seconds self;
     d_download_seconds := download_seconds;
     d_transcode_seconds := transcode_seconds;
     transcode_progress := progress;
     transcode_eta_seconds := eta_seconds |}.

(** ** app/jobs.py: the job manager *)

(** Identity of a [JobRecord] object. *)
Abbreviation ref := nat (only parsing).

Record WorkItem := {
  wi_record : ref;
  wi_request : JobRequest
}.

(** The manager, with the objects it shares:
    - [heap]: the [JobRecord] objects, by identity; an object stays alive as
      long as something refers to it, so nothing is ever removed from it;
    - [records]: the dictionary [self.records];
    - [queue]: the items inside [self.queue], oldest first;
    - [putters]: the [submit_job] calls suspended inside [queue.put];
    - [current]: the item the worker took and has not finished;
    - [dispatched]: the calls made to [callbacks.dispatch], oldest first;
    - [unlinked]: the files removed by [purge_expired_jobs];
    - [shutdown]: [self._shutdown]. *)
Record JobManager := {
  settings : Settings;
  heap : gmap ref JobRecord;
  next_ref : ref;
  records : gmap string ref;
  queue : list WorkItem;
  putters : list WorkItem;
  current : option WorkItem;
  dispatched : list (string * CallbackPayload);
  unlinked : list string;
  shutdown : bool
}.

(** [JobManager.__init__]. *)
Definition new_manager (s : Settings) : JobManager :=
  {| settings := s; heap := ∅; next_ref := 0%nat; records := ∅; queue := [];
     putters := []; current := None; dispatched := []; unlinked := [];
     shutdown := false |}.

Definition with_heap (m : JobManager) (h : gmap ref JobRecord) : JobManager :=
  {| settings := settings m; heap := h; next_ref := next_ref m;
     records := records m; queue := queue m; putters := putters m;
     current := current m; dispatched := dispatched m; unlinked := unlinked m;
     shutdown := shutdown m |}.

Definition with_queue (m : JobManager) (q : list WorkItem) : JobManager :=
  {| settings := settings m; heap := heap m; next_ref := next_ref m;
     records := records m; queue := q; putters := putters m;
     current := current m; dispatched := dispatched m; unlinked := unlinked m;
     shutdown := shutdown m |}.

Definition with_putters (m : JobManager) (p : list WorkItem) : JobManager :=
  {| settings := settings m; heap := heap m; next_ref := next_ref m;
     records := records m; queue := queue m; putters := p;
     current := current m; dispatched := dispatched m; unlinked := unlinked m;
     shutdown := shutdown m |}.

Definition with_current (m : JobManager) (c : option WorkItem) : JobManager :=
  {| settings := settings m; heap := heap m; next_ref := next_ref m;
     records := records m; queue := queue m; putters := putters m;
     current := c; dispatched := dispatched m; unlinked := unlinked m;
     shutdown := shutdown m |}.

Definition with_dispatched (m : JobManager) (d : list (string * CallbackPayload))
  : JobManager :=
  {| settings := settings m; heap := heap m; next_ref := next_ref m;
     records := records m; queue := queue m; putters := putters m;
     current := current m; dispatched := d; unlinked := unlinked m;
     shutdown := shutdown m |}.

(** [JobRecord(...)] followed by [self.records[job_id] = record]. *)
Definition register (m : JobManager) (record : JobRecord) : JobManager * ref :=
  let r := next_ref m in
  ({| settings := settings m; heap := <[r := record]> (heap m);
      next_ref := S r; records := <[job_id record := r]> (records m);
      queue := queue m; putters := putters m; current := current m;
      dispatched := dispatched m; unlinked := unlinked m;
      shutdown := shutdown m |}, r).

(** In-place mutation of the record object [r]. *)
Definition mutate (m : JobManager) (r : ref) (f : JobRecord -> JobRecord) : JobManager :=
  with_heap m (alter f r (heap m)).

(** [asyncio.Queue.full()]: a [maxsize] of zero or less means unbounded. *)
Definition queue_full (m : JobManager) : bool :=
  if max_queue_size (settings m) <=? 0 then false
  else Z.of_nat (length (queue m)) >=? max_queue_size (settings m).

(** What the caller of [submit_job] sees. *)
Inductive SubmitOutcome :=
| submit_returned (response : JobResponse)
| submit_raised (e : Exc)
| submit_suspended.

(** An upload, as [submit_job] reads it: its file name, and whether writing it
    to disk goes through. *)
Record UploadFile := {
  filename : option string;
  persist : result unit
}.

(** [submit_job].  [new_id] is [str(uuid.uuid4())]; the three time stamps are
    the successive readings of [datetime.utcnow()].  When the queue is full,
    [await self.queue.put(...)] suspends the call: the item waits in
    [putters] and the caller has no answer yet. *)
Definition submit_job (m : JobManager) (upload : UploadFile) (request : JobRequest)
    (new_id : string) (timestamp download_started download_finished : datetime)
  : JobManager * SubmitOutcome :=
  let job_id := new_id in
  let original_name :=
    path_name (if truthy_str (filename upload) then default "" (filename upload)
               else "upload") in
  let dest_path := path_join (input_dir (settings m)) (job_id ++ "_" ++ original_name) in
  match persist upload with
  | inl e => (m, submit_raised e)
  | inr _ =>
      let record :=
        {| job_id := job_id; status := queued; created_at := timestamp;
           updated_at := timestamp; source_path := dest_path;
           source_filename := original_name; output_path := None;
           quality := rq_quality request; codec := rq_codec request;
           callback_url := if truthy_str (rq_callback_url request)
                           then rq_callback_url request else None;
           error := None; download_started_at := Some download_started;
           download_finished_at := Some download_finished;
           transcode_started_at := None; transcode_finished_at := None;
           media_duration_seconds := None; transcode_media_seconds := None |} in
      let '(m, r) := register m record in
      let item := {| wi_record := r; wi_request := request |} in
      if queue_full m
      then (with_putters m (putters m ++ [item]), submit_suspended)
      else (with_queue m (queue m ++ [item]),
            submit_returned {| rs_job_id := job_id; rs_status := queued;
                               rs_message := Some "Job accepted" |})
  end.

(** A suspended [submit_job] is woken up: [queue.put] checks [full()] again and
    either goes back to waiting or enqueues the item, after which the call
    returns its response. *)
Definition resume_put (m : JobManager) : JobManager * option JobResponse :=
  match putters m with
  | [] => (m, None)
  | item :: rest =>
      if queue_full m then (m, None)
      else
        let m := with_putters (with_queue m (queue m ++ [item])) rest in
        (m, (fun record => {| rs_job_id := job_id record; rs_status := queued;
                              rs_message := Some "Job accepted" |})
              <$> heap m !! wi_record item)
  end.

Definition get_job (m : JobManager) (id : string) (now : datetime) : option JobDetail :=
  match records m !! id with
  | Some r => (fun record => to_detail record now) <$> heap m !! r
  | None => None
  end.

Definition is_terminal (s : JobStatus) : bool :=
  bool_decide (s ∈ [completed; failed; cancelled]).

(** [cancel_job]. *)
Definition cancel_job (m : JobManager) (id : string) (now : datetime)
  : JobManager * bool :=
  match records m !! id with
  | None => (m, false)
  | Some r =>
      match heap m !! r with
      | None => (m, false)
      | Some record =>
          if is_terminal (status record) then (m, false)
          else
            (mutate m r (fun record => set_updated_at (set_status record cancelled) now),
             true)
      end
  end.

Definition list_jobs (m : JobManager) (now : datetime) : list JobDetail :=
  omap (fun kr => (fun record => to_detail record now) <$> heap m !! kr.2)
       (map_to_list (records m)).

(** [purge_expired_jobs]: every job whose [updated_at] is older than the
    retention window leaves the dictionary, and its files are unlinked. *)
Definition expired (m : JobManager) (cutoff : datetime) (kr : string * ref) : bool :=
  match heap m !! kr.2 with
  | Some record => updated_at record <? cutoff
  | None => false
  end.

Definition purge_one (m : JobManager) (kr : string * ref) : JobManager :=
  let files :=
    match heap m !! kr.2 with
    | Some record => source_path record :: option_list (output_path record)
    | None => []
    end in
  {| settings := settings m; heap := heap m; next_ref := next_ref m;
     records := delete kr.1 (records m); queue := queue m; putters := putters m;
     current := current m; dispatched := dispatched m;
     unlinked := (unlinked m ++ files)%list; shutdown := shutdown m |}.

Definition purge_expired_jobs (m : JobManager) (now : datetime) : JobManager :=
  let cutoff := now - job_retention_minutes (settings m) * 60000000 in
  let to_delete := List.filter (expired m cutoff) (map_to_list (records m)) in
  foldl purge_one m to_delete.

(** [_fire_callback]: one call of [callbacks.dispatch] when the record has a
    callback URL, nothing otherwise. *)
Definition _fire_callback (m : JobManager) (record : JobRecord)
    (message : option string) : JobManager :=
  if negb (truthy_str (callback_url record)) then m
  else
    let payload :=
      {| cb_job_id := job_id record; cb_status := status record;
         cb_output_path := output_path record; cb_message := message |} in
    with_dispatched m
      (dispatched m ++ [(default "" (callback_url record), payload)])%list.

(** The worker, from [await self.queue.get()] to the call of
    [self.transcoder.process]: no other task runs in between. *)
Definition worker_get (m : JobManager) (now started : datetime) : JobManager :=
  if shutdown m then m
  else
    match current m, queue m with
    | Some _, _ => m
    | None, [] => m
    | None, work_item :: rest =>
        let m := with_queue m rest in
        match heap m !! wi_record work_item with
        | None => m
        | Some record =>
            if bool_decide (status record = cancelled) then m
            else
              let m :=
                mutate m (wi_record work_item)
                  (fun record =>
                     set_transcode_started_at
                       (set_updated_at (set_status record processing) now)
                       (Some started)) in
              with_current m (Some work_item)
        end
    end.

(** The assignments of the [try] body after [process] has returned. *)
Definition mark_completed (result : TranscodeResult) (t1 t2 : datetime)
    (record : JobRecord) : JobRecord :=
  let record := set_transcode_finished_at record (Some t1) in
  let record := set_output_path record (Some (t_output_path result)) in
  let record := set_status record completed in
  set_updated_at record t2.

(** The assignments of the [except Exception as exc] clause. *)
Definition mark_failed (exc : Exc) (t1 t2 : datetime) (record : JobRecord)
  : JobRecord :=
  let record := set_status record failed in
  let record := set_updated_at record t1 in
  let record := set_error record (Some (str_exc exc)) in
  if bool_decide (transcode_finished_at record = None)
     && negb (bool_decide (transcode_started_at record = None))
  then set_transcode_finished_at record (Some t2)
  else record.

(** The worker, once [self.transcoder.process] has returned [inr result] or
    raised [inl exc]: the record is marked, [_fire_callback] is called with
    the message of that branch, and the worker is free again. *)
Definition worker_finish (m : JobManager) (outcome : result TranscodeResult)
    (t1 t2 : datetime) : JobManager :=
  match current m with
  | None => m
  | Some work_item =>
      let r := wi_record work_item in
      let '(mark, message) :=
        match outcome with
        | inr res => (mark_completed res t1 t2, "completed")
        | inl exc => (mark_failed exc t1 t2, str_exc exc)
        end in
      let m := mutate m r mark in
      let m :=
        match heap m !! r with
        | Some record => _fire_callback m record (Some message)
        | None => m
        end in
      with_current m None
  end.

(** The writes the engine makes to the record it is processing. *)
Inductive EngineOp :=
| op_set_duration (duration : option Q)
| op_update_progress (processed_seconds media_duration : Q) (now : datetime)
| op_finalize.

Definition apply_op (op : EngineOp) (record : JobRecord) : JobRecord :=
  match op with
  | op_set_duration d => set_media_duration_seconds record d
  | op_update_progress s d now => _update_progress record s d now
  | op_finalize =>
      if negb (bool_decide (media_duration_seconds record = None))
      then set_transcode_media_seconds record (media_duration_seconds record)
      else record
  end.

Definition engine_step (m : JobManager) (op : EngineOp) : JobManager :=
  match current m with
  | Some work_item => mutate m (wi_record work_item) (apply_op op)
  | None => m
  end.

(** One whole [await self.transcoder.process(record, request)] followed by the
    rest of the worker's iteration, with nothing interleaved. *)
Definition worker_process (m : JobManager) (self : TranscodeEngine) (w : World)
    (t1 t2 : datetime) : JobManager :=
  match current m with
  | None => m
  | Some work_item =>
      match heap m !! wi_record work_item with
      | None => m
      | Some record =>
          let '(record, outcome) := _process_sync self w record (wi_request work_item) in
          worker_finish (mutate m (wi_record work_item) (fun _ => record)) outcome t1 t2
      end
  end.

(** [stop]: the shutdown flag is set and both tasks are cancelled; a job the
    worker was processing is abandoned as it is. *)
Definition stop (m : JobManager) : JobManager :=
  {| settings := settings m; heap := heap m; next_ref := next_ref m;
     records := records m; queue := queue m; putters := putters m;
     current := None; dispatched := dispatched m; unlinked := unlinked m;
     shutdown := true |}.

(** The atomic steps of the manager, as the event loop interleaves them. *)
Inductive Action :=
| a_submit (upload : UploadFile) (request : JobRequest) (new_id : string)
           (timestamp download_started download_finished : datetime)
| a_resume_put
| a_cancel (id : string) (now : datetime)
| a_purge (now : datetime)
| a_worker_get (now started : datetime)
| a_engine (op : EngineOp)
| a_worker_finish (outcome : result TranscodeResult) (t1 t2 : datetime)
| a_stop.

Definition exec (m : JobManager) (a : Action) : JobManager :=
  match a with
  | a_submit upload request new_id t0 t1 t2 =>
      (submit_job m upload request new_id t0 t1 t2).1
  | a_resume_put => (resume_put m).1
  | a_cancel id now => (cancel_job m id now).1
  | a_purge now => purge_expired_jobs m now
  | a_worker_get now started => worker_get m now started
  | a_engine op => engine_step m op
  | a_worker_finish outcome t1 t2 => worker_finish m outcome t1 t2
  | a_stop => stop m
  end.

Definition run (m : JobManager) (actions : list Action) : JobManager :=
  foldl exec m actions.

(** The states the manager can be in: those a run reaches from a new manager. *)
Definition reachable (m : JobManager) : Prop :=
  exists (s : Settings) (actions : list Action), m = run (new_manager s) actions.

(** The status of the record object [r]. *)
Definition status_of (m : JobManager) (r : ref) : option JobStatus :=
  status <$> heap m !! r.

(** ** app/main.py: the handlers over the manager *)

(** What a handler answers: a body, or the [HTTPException] it raises. *)
Inductive Response (A : Type) : Type :=
| http_ok (body : A)
| HTTPException (status_code : Z) (detail : string).

Arguments http_ok {A} body.
Arguments HTTPException {A} status_code detail.

Record FileResponse := {
  fr_path : string;
  fr_filename : string;
  fr_media_type : string
}.

Module main.

Definition download_job (m : JobManager) (job_id : string) (now : datetime)
  : Response FileResponse :=
  match get_job m job_id now with
  | None => HTTPException 404 "Job output not ready"
  | Some job =>
      match d_output_path job with
      | None => HTTPException 404 "Job output not ready"
      | Some output_path =>
          http_ok {| fr_path := output_path; fr_filename := path_name output_path;
                     fr_media_type := "video/mp4" |}
      end
  end.

Definition cancel_job (m : JobManager) (job_id : string) (now : datetime)
  : JobManager * Response (list (string * string)) :=
  let '(m, success) := cancel_job m job_id now in
  if negb success then (m, HTTPException 404 "Unable to cancel job")
  else (m, http_ok [("status", "cancelled"); ("job_id", job_id)]).

Definition get_job (m : JobManager) (job_id : string) (now : datetime)
  : Response JobDetail :=
  match get_job m job_id now with
  | None => HTTPException 404 "Job not found"
  | Some job => http_ok job
  end.

End main.

(** ** The host's ffmpeg: [TranscodeEngine.__init__] and app/selftest.py *)

(** What the start-up code asks of the host.  [subprocess.run(..., check=True)]
    either completes with the captured standard output or raises
    [CalledProcessError] carrying the captured standard error ([None] if it
    was not captured).  Texts are ASCII. *)
Inductive Completed :=
| CompletedProcess (stdout : string)
| CalledProcessError (stderr : option string).

Record Host := {
  which : string -> option string;            (* shutil.which(cmd) *)
  subprocess_run : list string -> Completed;  (* subprocess.run(argv, check=True, ...) *)
  path_exists : string -> bool                (* Path(p).exists() *)
}.

(** [c.isspace()] on an ASCII character: TAB, LF, VT, FF, CR, FS, GS, RS, US
    and the space. *)
Definition str_isspace (c : ascii) : bool :=
  let n := N_of_ascii c in
  (((9 <=? n) && (n <=? 13)) || ((28 <=? n) && (n <=? 32)))%N.

(** [s.split()]: the maximal runs of characters that are not white space. *)
Fixpoint str_split_from (word s : string) : list string :=
  match s with
  | EmptyString => if bool_decide (word = "") then [] else [word]
  | String c rest =>
      if str_isspace c
      then (if bool_decide (word = "") then str_split_from "" rest
            else word :: str_split_from "" rest)
      else str_split_from (word ++ String c "") rest
  end.

Definition str_split (s : string) : list string := str_split_from "" s.

(** [s.splitlines()]: the line boundaries of ASCII text are LF, CR, CR LF,
    VT, FF, FS, GS and RS; a boundary at the very end opens no further
    line. *)
Definition is_line_boundary (c : ascii) : bool :=
  let n := N_of_ascii c in
  (((10 <=? n) && (n <=? 13)) || ((28 <=? n) && (n <=? 30)))%N.

Fixpoint str_splitlines_from (line s : string) : list string :=
  match s with
  | EmptyString => if bool_decide (line = "") then [] else [line]
  | String c rest =>
      if (N_of_ascii c =? 13)%N then
        match rest with
        | String c' rest' =>
            if (N_of_ascii c' =? 10)%N then line :: str_splitlines_from "" rest'
            else line :: str_splitlines_from "" rest
        | EmptyString => line :: str_splitlines_from "" rest
        end
      else if is_line_boundary c then line :: str_splitlines_from "" rest
      else str_splitlines_from (line ++ String c "") rest
  end.

Definition str_splitlines (s : string) : list string := str_splitlines_from "" s.

(** [s.isidentifier()] on ASCII text: a letter or an underscore, followed by
    letters, digits and underscores. *)
Definition is_id_start (c : ascii) : bool :=
  let n := N_of_ascii c in
  (((65 <=? n) && (n <=? 90)) || ((97 <=? n) && (n <=? 122)) || (n =? 95))%N.

Definition is_id_continue (c : ascii) : bool :=
  let n := N_of_ascii c in
  (is_id_start c || ((48 <=? n) && (n <=? 57)))%N.

Definition str_isidentifier (s : string) : bool :=
  match s with
  | EmptyString => false
  | String c rest => is_id_start c && forallb is_id_continue (list_ascii_of_string rest)
  end.

(** [TranscodeEngine._query_ffmpeg_list]. *)
Definition _query_ffmpeg_list (settings : Settings) (host : Host) (list_type : string)
  : gset string :=
  let ffmpeg := which host (ffmpeg_command settings) in
  if negb (truthy_str ffmpeg) then ∅
  else
    let flag := "-" ++ list_type in
    match subprocess_run host
            [default "" ffmpeg; "-hide_banner"; "-loglevel"; "quiet"; flag] with
    | CalledProcessError _ => ∅
    | CompletedProcess stdout =>
        foldl (fun (names : gset string) line =>
                 let parts := str_split line in
                 if (2 <=? length parts)%nat && str_isidentifier (nth 1 parts "")
                 then names ∪ {[ lower (nth 1 parts "") ]}
                 else names)
              ∅ (str_splitlines stdout)
    end.

(** [TranscodeEngine.__init__]. *)
Definition new_engine (settings : Settings) (host : Host) : TranscodeEngine :=
  {| e_settings := settings;
     ffmpeg_decoders := _query_ffmpeg_list settings host "decoders";
     ffmpeg_encoders := _query_ffmpeg_list settings host "encoders" |}.

(** [run_self_tests].  Besides [SelfTestFailure] the function can leave with
    an [AttributeError]: the decoder listing is run with [text=True], so the
    [stderr] of its [CalledProcessError] is a [str], and [.decode] is called
    on it whenever it is not empty.  [ffprobe_command] and [require_rk_accel]
    are the two settings read here only. *)
Record SelfTestResult := {
  description : string;
  passed : bool;
  detail : option string
}.

Inductive SelfTestExc :=
| SelfTestFailure (failures : string)
| AttributeError.

Definition encode_test_cmd (ffmpeg : string) : list string :=
  [ffmpeg; "-hide_banner"; "-loglevel"; "error"; "-f"; "lavfi"; "-i";
   "testsrc2=size=320x240:rate=15"; "-t"; "1"; "-c:v"; "libx264";
   "-pix_fmt"; "yuv420p"; "-f"; "null"; "-"].

Definition decoders_cmd (ffmpeg : string) : list string :=
  [ffmpeg; "-hide_banner"; "-loglevel"; "quiet"; "-decoders"].

Definition binary_available (host : Host) (binary : string) : SelfTestResult :=
  match which host binary with
  | None => {| description := "Binary '" ++ binary ++ "' available"; passed := false;
               detail := Some (binary ++ " not found") |}
  | Some _ => {| description := "Binary '" ++ binary ++ "' available"; passed := true;
                 detail := None |}
  end.

(** [x or default] on strings. *)
Definition str_or (x : option string) (d : string) : string :=
  if truthy_str x then default "" x else d.

Definition encode_test (host : Host) (ffmpeg : string) : SelfTestResult :=
  match subprocess_run host (encode_test_cmd ffmpeg) with
  | CompletedProcess _ =>
      {| description := "ffmpeg test pattern encode"; passed := true; detail := None |}
  | CalledProcessError stderr =>
      (* the bytes of [stderr], decoded with [errors="ignore"] *)
      let detail := str_or stderr "" in
      {| description := "ffmpeg test pattern encode"; passed := false;
         detail := Some (str_or (Some detail) "ffmpeg encode test failed") |}
  end.

Definition rk_hint (host : Host) : string :=
  let hint_parts := ["RKMPP decoders not detected in ffmpeg output."] in
  let hint_parts :=
    if path_exists host "/dev/mpp_service"
    then (hint_parts ++ ["Host exposes /dev/mpp_service but container ffmpeg lacks RKMPP support."])%list
    else hint_parts in
  let hint_parts :=
    (hint_parts ++ ["Install Rockchip multimedia ffmpeg (ppa:jjriek/rockchip-multimedia) or point MEDIA_ENGINE_FFMPEG_COMMAND to a hardware-enabled binary."])%list in
  String.concat " " hint_parts.

(** The block under [if settings.require_rk_accel]: the entries it appends, or
    the exception it leaves with. *)
Definition rk_probe (settings : Settings) (host : Host)
  : SelfTestExc + list SelfTestResult :=
  let ffmpeg := which host (ffmpeg_command settings) in
  if truthy_str ffmpeg then
    match subprocess_run host (decoders_cmd (default "" ffmpeg)) with
    | CalledProcessError stderr =>
        if truthy_str stderr then inl AttributeError
        else
          inr [{| description := "ffmpeg rk acceleration probe"; passed := false;
                  detail := Some (str_or (Some "") "Unable to query ffmpeg decoders") |}]
    | CompletedProcess stdout =>
        let decoders := lower stdout in
        if negb (str_in "rkmpp" decoders)
        then inr [{| description := "ffmpeg rk acceleration probe"; passed := false;
                     detail := Some (rk_hint host) |}]
        else inr []
    end
  else
    inr [{| description := "ffmpeg rk acceleration probe"; passed := false;
            detail := Some "ffmpeg binary not found" |}].

Definition run_self_tests (settings : Settings) (ffprobe_command : string)
    (require_rk_accel : bool) (host : Host) : SelfTestExc + list SelfTestResult :=
  let results := [] in
  let results :=
    foldl (fun results binary => (results ++ [binary_available host binary])%list)
          results [ffmpeg_command settings; ffprobe_command] in
  let ffmpeg := which host (ffmpeg_command settings) in
  let results :=
    if truthy_str ffmpeg
    then (results ++ [encode_test host (default "" ffmpeg)])%list
    else results in
  match (if require_rk_accel then rk_probe settings host else inr []) with
  | inl exc => inl exc
  | inr more =>
      let results := (results ++ more)%list in
      if existsb (fun result => negb (passed result)) results then
        let failures :=
          String.concat "; "
            (map (fun result => description result ++ ": " ++ str_or (detail result) "failed")
                 (List.filter (fun result => negb (passed result)) results)) in
        inl (SelfTestFailure failures)
      else inr results
  end.

(** * Vocabulary of the statements, and sample states *)

(** A profile fits a source when its height or its width does not exceed the
    source's. *)
Definition fits (source_width source_height : Z) (p : QualityProfile) : Prop :=
  p_height p <= source_height \/ p_width p <= source_width.

Definition sd_profile : QualityProfile :=
  {| p_name := sd_480p; p_width := 854; p_height := 480;
     p_video_bitrate := 3000000; p_codec := h264 |}.

(** The codec of the source's video stream, mapped to a supported codec. *)
Definition source_codec (info : MediaInfo) : option CodecPreference :=
  _map_codec_name (match i_video info with Some v => s_codec_name v | None => None end).

Definition source_width (info : MediaInfo) : Z :=
  default 0 (match i_video info with Some v => s_width v | None => None end).

Definition source_height (info : MediaInfo) : Z :=
  default 0 (match i_video info with Some v => s_height v | None => None end).

Definition uhd_h264_mp4 : MediaInfo :=
  {| i_container := Some "mov,mp4,m4a,3gp,3g2,mj2"; i_bit_rate := None;
     i_duration := Some (60 # 1)%Q;
     i_video := Some {| s_codec_type := "video"; s_codec_name := Some "h264";
                        s_width := Some 3840; s_height := Some 2160;
                        s_bit_rate := None |};
     i_audio := None |}.

Definition hd_profile : QualityProfile :=
  {| p_name := hd_720p; p_width := 1280; p_height := 720;
     p_video_bitrate := 6000000; p_codec := h264 |}.

Definition uhd_profile : QualityProfile :=
  {| p_name := uhd_2160p; p_width := 3840; p_height := 2160;
     p_video_bitrate := 8000000; p_codec := h265 |}.

(** The number a rate argument stands for: decimal digits, optionally followed
    by the suffix [k] or [M] (ffmpeg's reading of [-b:v], [-maxrate] and
    [-bufsize]). *)
Fixpoint parse_rate_aux (acc : Z) (s : string) : option Z :=
  match s with
  | EmptyString => Some acc
  | String c rest =>
      let n := Z.of_N (N_of_ascii c) in
      if (48 <=? n) && (n <=? 57) then parse_rate_aux (10 * acc + (n - 48)) rest
      else if String.eqb s "M" then Some (acc * 1000000)
      else if String.eqb s "k" then Some (acc * 1000)
      else None
  end.

Definition parse_rate (s : string) : option Z :=
  match s with
  | EmptyString => None
  | _ => parse_rate_aux 0 s
  end.

(** The three rates of [_hevc_rate_control], as numbers. *)
Definition hevc_rates (width : Z) : option (Z * Z * Z) :=
  let '(bv, maxrate, bufsize) := _hevc_rate_control width in
  b ← parse_rate bv; m ← parse_rate maxrate; f ← parse_rate bufsize; Some (b, m, f).

(** A software-only engine and a ten-second 720p H.264 source in a Matroska
    container: the job is transcoded on the CPU. *)
Definition default_settings : Settings :=
  {| input_dir := "/data/input"; work_dir := "/data/work"; output_dir := "/data/output";
     max_queue_size := 50; job_retention_minutes := 120; callback_max_attempts := 3;
     ffmpeg_command := "ffmpeg" |}.

Definition software_engine : TranscodeEngine :=
  {| e_settings := default_settings; ffmpeg_decoders := ∅; ffmpeg_encoders := ∅ |}.

Definition hd_h264_mkv : MediaInfo :=
  {| i_container := Some "matroska,webm"; i_bit_rate := None;
     i_duration := Some (10 # 1)%Q;
     i_video := Some {| s_codec_type := "video"; s_codec_name := Some "h264";
                        s_width := Some 1280; s_height := Some 720;
                        s_bit_rate := None |};
     i_audio := None |}.

(** A machine on which ffprobe reports [hd_h264_mkv] and every ffmpeg run
    prints the given progress lines and exits with the given code. *)
Definition scripted_world (stdout : list (StdoutLine * datetime)) (returncode : Z)
  : World :=
  {| probe_media := fun _ => inr hd_h264_mkv;
     rga_exists := false;
     popen := fun _ => {| proc_stdout := stdout; proc_returncode := returncode |};
     shutil_move := fun _ _ => inr tt |}.

Definition auto_request : JobRequest :=
  {| rq_quality := q_auto; rq_codec := c_auto; rq_callback_url := None |}.

(** The record of a job the worker has just started. *)
Definition started_record : JobRecord :=
  {| job_id := "job"; status := processing; created_at := 0; updated_at := 1000000;
     source_path := "/data/input/job_a.mkv"; source_filename := "a.mkv";
     output_path := None; quality := q_auto; codec := c_auto; callback_url := None;
     error := None; download_started_at := Some 0; download_finished_at := Some 0;
     transcode_started_at := Some 1000000; transcode_finished_at := None;
     media_duration_seconds := None; transcode_media_seconds := None |}.

(** ffmpeg prints [out_time_ms=-500000] (it does while the first packets carry
    negative time stamps) and then fails. *)
Definition negative_progress_world : World :=
  scripted_world [(out_time_ms (Some (-500000)), 2000000)] 1.

Definition finished_record : JobRecord :=
  {| job_id := "job"; status := completed; created_at := 0; updated_at := 9000000;
     source_path := "/data/input/job_a.mkv"; source_filename := "a.mkv";
     output_path := Some "/data/output/job.mp4"; quality := q_auto; codec := c_auto;
     callback_url := None; error := None;
     download_started_at := Some 0; download_finished_at := Some 0;
     transcode_started_at := Some 1000000; transcode_finished_at := Some 9000000;
     media_duration_seconds := Some (10 # 1)%Q;
     transcode_media_seconds := Some (10 # 1)%Q |}.

(** The stored counter is within the stored duration, when both are known. *)
Definition progress_bounded (r : JobRecord) : Prop :=
  forall d t,
    media_duration_seconds r = Some d -> transcode_media_seconds r = Some t ->
    (t <= d)%Q.

(** ffmpeg reports 12 s of output for a source probed at 10 s, then fails. *)
Definition overrun_world : World :=
  scripted_world [(out_time_ms (Some 12000000), 2000000)] 1.

Definition sample_payload : CallbackPayload :=
  {| cb_job_id := "job"; cb_status := completed;
     cb_output_path := Some "/data/output/job.mp4"; cb_message := Some "completed" |}.

Definition tiny_settings : Settings :=
  {| input_dir := "/data/input"; work_dir := "/data/work"; output_dir := "/data/output";
     max_queue_size := 1; job_retention_minutes := 120; callback_max_attempts := 3;
     ffmpeg_command := "ffmpeg" |}.

Definition upload_a : UploadFile := {| filename := Some "a.mp4"; persist := inr tt |}.

(** A manager whose queue of size one holds one job. *)
Definition saturated_manager : JobManager :=
  (submit_job (new_manager tiny_settings) upload_a auto_request "job-1" 0 1 2).1.

Definition hook_url : string := "http://example.test/hook".

Definition hook_request : JobRequest :=
  {| rq_quality := q_auto; rq_codec := c_auto; rq_callback_url := Some hook_url |}.

(** One queued job that asked for a callback. *)
Definition hook_manager : JobManager :=
  (submit_job (new_manager default_settings) upload_a hook_request "job-1" 0 1 2).1.

(** The record objects waiting in the queue or in a suspended put. *)
Definition pending (m : JobManager) : list ref :=
  map wi_record (queue m ++ putters m).

(** What every run keeps true: no record object waits twice; the object the
    worker is processing does not wait; a waiting object is [queued] or
    [cancelled]; and the next object identity is unused. *)
Record wf (m : JobManager) : Prop := {
  wf_nodup : NoDup (pending m);
  wf_current : forall item, current m = Some item ->
                 (wi_record item ∉ pending m) /\ is_Some (heap m !! wi_record item);
  wf_pending : forall r, r ∈ pending m ->
                 exists rcd, heap m !! r = Some rcd /\
                             (status rcd = queued \/ status rcd = cancelled);
  wf_heap : forall r, is_Some (heap m !! r) -> (r < next_ref m)%nat
}.

(** The record object [r] has reached a terminal status. *)
Definition settled (m : JobManager) (r : ref) : Prop :=
  exists rcd, heap m !! r = Some rcd /\ is_terminal (status rcd) = true.

Definition cancel_witness_state : JobManager :=
  run (new_manager default_settings)
      [a_submit upload_a hook_request "job-1" 0 1 2].

(** The writes of one ffmpeg run with the progress handler of the engine. *)
Definition progress_ops (duration : Q) (stdout : list (StdoutLine * datetime))
  : list EngineOp :=
  omap (fun entry : StdoutLine * datetime =>
          match entry.1 with
          | out_time_ms (Some microseconds) =>
              Some (op_update_progress (Qmake microseconds 1000000) duration entry.2)
          | _ => None
          end) stdout.

Definition apply_ops (rcd : JobRecord) (ops : list EngineOp) : JobRecord :=
  foldl (fun r op => apply_op op r) rcd ops.

(** The progress reports [_run_ffmpeg] acts upon: the [out_time_ms] lines
    whose value [int] could read, with the clock reading of each. *)
Definition reported (stdout : list (StdoutLine * datetime)) : list (Z * datetime) :=
  omap (fun entry : StdoutLine * datetime =>
          match entry.1 with
          | out_time_ms (Some microseconds) => Some (microseconds, entry.2)
          | _ => None
          end) stdout.

(** The exit code of the ffmpeg run of one RKMPP candidate filter. *)
Definition rkmpp_returncode (self : TranscodeEngine) (w : World)
    (source_path dest_path : string) (profile : QualityProfile)
    (decoder_name encoder_name filter_expr : string) : Z :=
  proc_returncode
    (popen w (wrapped_cmd (rkmpp_cmd (rkmpp_base_cmd self source_path decoder_name)
                                     filter_expr encoder_name profile dest_path))).

(** What every record object satisfies in a reachable state: an output path
    exactly when the job is [completed], and both transcode time stamps once
    it is [completed] or [failed]. *)
Definition record_ok (rcd : JobRecord) : Prop :=
  (output_path rcd <> None <-> status rcd = completed) /\
  (status rcd = completed \/ status rcd = failed ->
   transcode_finished_at rcd <> None /\ transcode_started_at rcd <> None).

(** More of what every run keeps true: the dictionary maps each identifier to
    a live record carrying that identifier; every record is [record_ok]; the
    record the worker holds is [processing] (or was cancelled meanwhile) and
    has its start time stamp; a [processing] record is the one the worker
    holds, unless the manager was stopped; and no two records are
    [processing]. *)
Record coherent (m : JobManager) : Prop := {
  co_records : forall id r, records m !! id = Some r ->
                 exists rcd, heap m !! r = Some rcd /\ job_id rcd = id;
  co_ok : forall r rcd, heap m !! r = Some rcd -> record_ok rcd;
  co_current : forall item, current m = Some item ->
                 shutdown m = false /\
                 exists rcd, heap m !! wi_record item = Some rcd /\
                             (status rcd = processing \/ status rcd = cancelled) /\
                             transcode_started_at rcd <> None;
  co_processing : forall r rcd, heap m !! r = Some rcd -> status rcd = processing ->
                    shutdown m = false ->
                    exists item, current m = Some item /\ wi_record item = r;
  co_single : forall r1 r2 rcd1 rcd2,
                heap m !! r1 = Some rcd1 -> heap m !! r2 = Some rcd2 ->
                status rcd1 = processing -> status rcd2 = processing -> r1 = r2
}.

(** One job with a callback, taken by the worker and completed. *)
Definition completed_manager : JobManager :=
  run (new_manager default_settings)
      [a_submit upload_a hook_request "job-1" 0 1 2;
       a_worker_get 3 4;
       a_worker_finish (inr {| t_output_path := "/data/output/job-1.mp4";
                               t_remuxed := false; t_profile := hd_profile;
                               t_codec := h264 |}) 8 9].

(** The exit codes of the ffmpeg runs of [_remux] and of [_transcode_cpu]. *)
Definition remux_returncode (self : TranscodeEngine) (w : World)
    (source_path dest_path : string) : Z :=
  proc_returncode
    (popen w (wrapped_cmd
       [ ffmpeg_command (e_settings self); "-hide_banner"; "-loglevel"; "error";
         "-y"; "-i"; source_path; "-c"; "copy"; "-movflags"; "+faststart";
         dest_path ])).

Definition cpu_returncode (self : TranscodeEngine) (w : World)
    (source_path dest_path : string) (profile : QualityProfile)
    (codec : CodecPreference) : Z :=
  proc_returncode
    (popen w (wrapped_cmd (cpu_cmd self source_path dest_path profile codec))).

(** * Verification *)

(** ** Paths *)

Example path_name_samples :
  path_name "a.mp4" = "a.mp4" /\
  path_name "/data/output/job.mp4" = "job.mp4" /\
  path_name "clips/holiday/" = "holiday" /\
  path_name "upload" = "upload" /\
  path_name "" = "".
Proof. repeat split. Qed.

(** ** Profile selection *)

Lemma sorted_profiles_eq :
  sorted_desc p_height PROFILES_values = PROFILES_values.
Proof. reflexivity. Qed.

Lemma first_fitting_Some w h ps p :
  first_fitting w h ps = Some p ->
  exists before after,
    ps = (before ++ p :: after)%list /\ fits w h p /\ Forall (fun q => ~ fits w h q) before.
Proof.
  induction ps as [|q ps IH]; simpl; [discriminate|].
  destruct ((h >=? p_height q) || (w >=? p_width q)) eqn:E.
  - intros [= <-]. exists [], ps. repeat split; [|constructor].
    unfold fits. apply orb_true_iff in E as [E|E]; apply Z.geb_le in E; lia.
  - intros H. destruct (IH H) as (b & a & -> & Hf & Hb).
    exists (q :: b), a. repeat split; [assumption|]. constructor; [|assumption].
    unfold fits. apply orb_false_iff in E as [E1 E2].
    rewrite Z.geb_leb in E1, E2. apply Z.leb_gt in E1, E2. lia.
Qed.

Lemma first_fitting_None w h ps :
  first_fitting w h ps = None -> Forall (fun q => ~ fits w h q) ps.
Proof.
  induction ps as [|q ps IH]; simpl; [constructor|].
  destruct ((h >=? p_height q) || (w >=? p_width q)) eqn:E; [discriminate|].
  intros H. constructor; [|auto].
  unfold fits. apply orb_false_iff in E as [E1 E2].
  rewrite Z.geb_leb in E1, E2. apply Z.leb_gt in E1, E2. lia.
Qed.

(** The table lists the profiles from the highest to the lowest. *)
Lemma profiles_descending b p a q :
  PROFILES_values = (b ++ p :: a)%list -> q ∈ a -> p_height q <= p_height p.
Proof.
  intros Hps Hq.
  destruct b as [|b0 [|b1 [|b2 [|b3 b]]]]; simpl in Hps.
  all: injection Hps as <-; intros; subst.
  all: repeat match goal with
              | H : _ ∈ [] |- _ => inversion H
              | H : _ ∈ _ :: _ |- _ => apply elem_of_cons in H as [->|H]
              end; simpl; try lia.
  destruct b; discriminate.
Qed.

(** [choose_profile] never meets a missing key. *)
Lemma choose_profile_total w h q : is_Some (choose_profile w h q).
Proof.
  unfold choose_profile. destruct q; [|simpl; eauto ..].
  change (negb (bool_decide (q_auto = q_auto))) with false. cbv iota.
  destruct (first_fitting w h (sorted_desc p_height PROFILES_values)); simpl; eauto.
Qed.

(** C5. In [auto] mode [choose_profile] returns one of the four profiles; when
    some profile has its height or its width within the source's, the result
    is such a profile and no such profile is higher; when the source is
    smaller than every profile in both dimensions, the result is SD-480p. *)
Theorem choose_profile_auto (source_width source_height : Z) :
  exists p,
    choose_profile source_width source_height q_auto = Some p /\
    p ∈ PROFILES_values /\
    ((exists q, q ∈ PROFILES_values /\ fits source_width source_height q) ->
       fits source_width source_height p /\
       forall q, q ∈ PROFILES_values -> fits source_width source_height q ->
                 p_height q <= p_height p) /\
    ((forall q, q ∈ PROFILES_values ->
                source_width < p_width q /\ source_height < p_height q) ->
       p = sd_profile).
Proof.
  unfold choose_profile. simpl negb. cbv iota. rewrite sorted_profiles_eq.
  destruct (first_fitting source_width source_height PROFILES_values) as [p|] eqn:E.
  - exists p. destruct (first_fitting_Some _ _ _ _ E) as (b & a & Hps & Hfit & Hb).
    split; [reflexivity|].
    split; [rewrite Hps; apply elem_of_app; right; apply elem_of_cons; by left|].
    split.
    + intros _. split; [assumption|]. intros q Hq Hfq.
      rewrite Hps in Hq. apply elem_of_app in Hq as [Hq|Hq].
      * rewrite Forall_forall in Hb. exfalso. exact (Hb q Hq Hfq).
      * apply elem_of_cons in Hq as [->|Hq]; [lia|].
        exact (profiles_descending _ _ _ _ Hps Hq).
    + intros Hsmall. exfalso.
      assert (Hp : p ∈ PROFILES_values).
      { rewrite Hps. apply elem_of_app. right. apply elem_of_cons. by left. }
      pose proof (Hsmall p Hp) as [? ?]. unfold fits in Hfit. lia.
  - exists sd_profile. split; [reflexivity|].
    split; [cbn; unfold sd_profile; set_solver|]. split.
    + intros (q & Hq & Hfq). exfalso.
      pose proof (first_fitting_None _ _ _ E) as Hn.
      rewrite Forall_forall in Hn. exact (Hn q Hq Hfq).
    + reflexivity.
Qed.

Lemma choose_profile_auto_witness :
  exists p,
    choose_profile 1920 1080 q_auto = Some p /\
    p ∈ PROFILES_values /\
    ((exists q, q ∈ PROFILES_values /\ fits 1920 1080 q) ->
       fits 1920 1080 p /\
       forall q, q ∈ PROFILES_values -> fits 1920 1080 q -> p_height q <= p_height p) /\
    ((forall q, q ∈ PROFILES_values -> 1920 < p_width q /\ 1080 < p_height q) ->
       p = sd_profile).
Proof. exact (choose_profile_auto 1920 1080). Defined.

Example sorted_desc_stable :
  sorted_desc (fun p : Z * Z => p.1) [(1, 10); (2, 20); (1, 30); (2, 40)]
  = [(2, 20); (2, 40); (1, 10); (1, 30)].
Proof. reflexivity. Qed.

Example choose_profile_4k : choose_profile 3840 2160 q_auto = dict_get PROFILES uhd_2160p.
Proof. reflexivity. Qed.

Example choose_profile_tiny : choose_profile 426 240 q_auto = Some sd_profile.
Proof. reflexivity. Qed.

Example choose_profile_explicit : choose_profile 426 240 fhd_1080p = dict_get PROFILES fhd_1080p.
Proof. reflexivity. Qed.

(** ** Codec resolution and the remux decision *)

Lemma _map_codec_name_not_auto codec : _map_codec_name codec <> Some c_auto.
Proof.
  unfold _map_codec_name. repeat case_match; congruence.
Qed.

(** The resolved codec is never the [auto] placeholder. *)
Lemma _resolve_codec_not_auto info profile request :
  _resolve_codec info profile request <> c_auto.
Proof.
  unfold _resolve_codec.
  destruct (bool_decide (rq_codec request = c_auto)) eqn:E1; simpl.
  - pose proof (_map_codec_name_not_auto
                  (match i_video info with Some v => s_codec_name v | None => None end)).
    destruct (_map_codec_name _) as [[]|]; try congruence;
      destruct (bool_decide (p_codec profile = c_auto)) eqn:E2; simpl; try congruence;
      apply bool_decide_eq_false in E2; assumption.
  - apply bool_decide_eq_false in E1. assumption.
Qed.

(** A profile is chosen only for a source whose resolution is known. *)
Lemma _select_profile_resolution info request profile :
  _select_profile info request = inr profile ->
  resolution_unknown (i_video info) = false.
Proof.
  unfold _select_profile. destruct (i_video info) as [v|]; [|discriminate].
  destruct (resolution_unknown (Some v)); [discriminate|reflexivity].
Qed.

(** C4. For a source whose resolution is known (the only sources a profile is
    chosen for) and a resolved target codec (never [auto]), [_should_remux] is
    true exactly when the mapped source codec is the target codec, the
    container is MP4-family and neither source dimension exceeds the
    profile's. *)
Theorem should_remux_iff (info : MediaInfo) (profile : QualityProfile)
    (target_codec : CodecPreference) :
  resolution_unknown (i_video info) = false ->
  target_codec <> c_auto ->
  _should_remux info profile target_codec = true <->
  (source_codec info = Some target_codec /\
   is_mp4_container info = true /\
   source_width info <= p_width profile /\
   source_height info <= p_height profile).
Proof.
  intros Hres Hauto.
  unfold _should_remux, source_codec, source_width, source_height.
  destruct (i_video info) as [v|] eqn:Hv; [|discriminate Hres].
  rewrite Hres.
  rewrite (bool_decide_eq_false_2 _ Hauto).
  destruct (bool_decide (_map_codec_name (s_codec_name v) = Some target_codec)) eqn:Hc;
    simpl.
  - apply bool_decide_eq_true in Hc.
    destruct (is_mp4_container info); simpl.
    + destruct (default 0 (s_width v) >? p_width profile) eqn:Hw; simpl.
      * apply Z.gtb_lt in Hw. split; [discriminate|]. intros (_ & _ & ? & _). lia.
      * destruct (default 0 (s_height v) >? p_height profile) eqn:Hh; simpl.
        -- apply Z.gtb_lt in Hh. split; [discriminate|]. intros (_ & _ & _ & ?). lia.
        -- rewrite Z.gtb_ltb in Hw, Hh. apply Z.ltb_ge in Hw, Hh. tauto.
    + split; [discriminate|]. intros (_ & ? & _). discriminate.
  - apply bool_decide_eq_false in Hc. split; [discriminate|]. intros (? & _). contradiction.
Qed.

Lemma should_remux_iff_witness :
  _should_remux uhd_h264_mp4 uhd_profile h264 = true <->
  (source_codec uhd_h264_mp4 = Some h264 /\
   is_mp4_container uhd_h264_mp4 = true /\
   source_width uhd_h264_mp4 <= p_width uhd_profile /\
   source_height uhd_h264_mp4 <= p_height uhd_profile).
Proof.
  apply (should_remux_iff uhd_h264_mp4 uhd_profile h264); [reflexivity | discriminate].
Defined.

Example uhd_h264_mp4_pipeline :
  let request := {| rq_quality := q_auto; rq_codec := c_auto; rq_callback_url := None |} in
  _select_profile uhd_h264_mp4 request = inr uhd_profile /\
  _resolve_codec uhd_h264_mp4 uhd_profile request = h264 /\
  _should_remux uhd_h264_mp4 uhd_profile h264 = true.
Proof. repeat split. Qed.

(** ** Hardware HEVC rate control *)

Lemma hevc_rates_cases width :
  hevc_rates width =
    Some (if width >=? 3800 then (8000000, 12000000, 18000000)
          else if width >=? 2500 then (5000000, 8000000, 12000000)
          else (3000000, 5000000, 8000000)).
Proof.
  unfold hevc_rates, _hevc_rate_control.
  destruct (width >=? 3800); [reflexivity|].
  destruct (width >=? 2500); reflexivity.
Qed.

(** [_run_ffmpeg] consults the machine for its own command line only. *)
Lemma _run_ffmpeg_popen w1 w2 cmd action handler rcd :
  popen w1 (wrapped_cmd cmd) = popen w2 (wrapped_cmd cmd) ->
  _run_ffmpeg w1 cmd action handler rcd = _run_ffmpeg w2 cmd action handler rcd.
Proof. intros H. unfold _run_ffmpeg. rewrite H. reflexivity. Qed.

(** The hardware path runs ffmpeg on the candidates' command lines, those of
    [rkmpp_cmd], and on nothing else: two machines that answer these alike
    give the same outcome. *)
Lemma rkmpp_loop_commands w1 w2 base_cmd encoder_name profile dest_path candidates :
  (forall c, c ∈ candidates ->
     popen w1 (wrapped_cmd (rkmpp_cmd base_cmd c.2 encoder_name profile dest_path))
     = popen w2 (wrapped_cmd (rkmpp_cmd base_cmd c.2 encoder_name profile dest_path))) ->
  forall last_error rcd,
    rkmpp_loop w1 base_cmd encoder_name profile dest_path candidates last_error rcd
    = rkmpp_loop w2 base_cmd encoder_name profile dest_path candidates last_error rcd.
Proof.
  induction candidates as [|[label filter_expr] rest IH]; intros H last_error rcd;
    [reflexivity|].
  simpl.
  rewrite (_run_ffmpeg_popen w1 w2) by (apply (H (label, filter_expr)); by left).
  destruct (_run_ffmpeg w2 _ _ _ rcd) as [rcd1 [e|u]]; [|reflexivity].
  destruct e; try reflexivity.
  apply IH. intros c Hc. apply H. by right.
Qed.

Lemma _run_ffmpeg_outcome w cmd action handler rcd :
  (_run_ffmpeg w cmd action handler rcd).2 =
    if proc_returncode (popen w (wrapped_cmd cmd)) =? 0 then inr tt
    else inl (RuntimeError ("ffmpeg " ++ action ++ " failed")).
Proof. unfold _run_ffmpeg. destruct (_ =? 0); reflexivity. Qed.

Lemma rkmpp_loop_success w base_cmd encoder_name profile dest_path candidates :
  forall last_error rcd,
  (exists c, c ∈ candidates /\
     proc_returncode
       (popen w (wrapped_cmd (rkmpp_cmd base_cmd c.2 encoder_name profile dest_path)))
     = 0) ->
  (rkmpp_loop w base_cmd encoder_name profile dest_path candidates last_error rcd).2
  = inr tt.
Proof.
  induction candidates as [|[label filter_expr] rest IH]; intros last_error rcd (c & Hc & H0).
  - by apply elem_of_nil in Hc.
  - simpl.
    pose proof (_run_ffmpeg_outcome w
                  (rkmpp_cmd base_cmd filter_expr encoder_name profile dest_path)
                  ("transcode-rkmpp-" ++ label)
                  (Some (fun seconds now r =>
                           _update_progress r seconds (duration_or_zero rcd) now))
                  rcd) as Hout.
    destruct (_run_ffmpeg _ _ _ _ rcd) as [rcd1 out]. simpl in Hout. subst out.
    destruct (Z.eqb_spec
                (proc_returncode
                   (popen w (wrapped_cmd (rkmpp_cmd base_cmd filter_expr encoder_name
                                                    profile dest_path)))) 0)
      as [Hz|Hnz]; [reflexivity|].
    apply IH. apply elem_of_cons in Hc as [->|Hc]; [contradiction|eauto].
Qed.

Lemma rkmpp_loop_failure w base_cmd encoder_name profile dest_path candidates :
  forall last_error rcd,
  (forall c, c ∈ candidates ->
     proc_returncode
       (popen w (wrapped_cmd (rkmpp_cmd base_cmd c.2 encoder_name profile dest_path)))
     <> 0) ->
  (rkmpp_loop w base_cmd encoder_name profile dest_path candidates last_error rcd).2
  = inl (match last candidates with
         | Some c => RuntimeError ("ffmpeg transcode-rkmpp-" ++ c.1 ++ " failed")
         | None => default (RuntimeError "rk transcode failed") last_error
         end).
Proof.
  induction candidates as [|[label filter_expr] rest IH]; intros last_error rcd Hall.
  - simpl. destruct last_error; reflexivity.
  - simpl.
    pose proof (_run_ffmpeg_outcome w
                  (rkmpp_cmd base_cmd filter_expr encoder_name profile dest_path)
                  ("transcode-rkmpp-" ++ label)
                  (Some (fun seconds now r =>
                           _update_progress r seconds (duration_or_zero rcd) now))
                  rcd) as Hout.
    destruct (_run_ffmpeg _ _ _ _ rcd) as [rcd1 out]. simpl in Hout. subst out.
    destruct (Z.eqb_spec
                (proc_returncode
                   (popen w (wrapped_cmd (rkmpp_cmd base_cmd filter_expr encoder_name
                                                    profile dest_path)))) 0)
      as [Hz|Hnz].
    + exfalso. apply (Hall (label, filter_expr)); [by left|assumption].
    + rewrite IH by (intros; apply Hall; by right).
      destruct rest as [|c rest']; [reflexivity|].
      rewrite !last_cons. destruct (last rest'); reflexivity.
Qed.

(** C10. [_hevc_rate_control] answers every width with one of three triples,
    by the thresholds 3800 and 2500; each of the three rates is non-decreasing
    in the width; the command line of the [hevc_rkmpp] encoder carries this
    triple as [-b:v], [-maxrate] and [-bufsize], the profile's own bitrate
    appearing only for the other encoder; and the encode path itself,
    [_transcode_rkmpp] with the encoder [hevc_rkmpp], runs ffmpeg on these
    command lines, one for each filter candidate, and on nothing else: it
    succeeds exactly when the run of one of them exits with code 0, and two
    machines that answer these command lines alike give the same outcome. *)
Theorem hevc_rate_control_tiers :
  (forall width,
     (3800 <= width -> _hevc_rate_control width = ("8M", "12M", "18M")) /\
     (2500 <= width < 3800 -> _hevc_rate_control width = ("5M", "8M", "12M")) /\
     (width < 2500 -> _hevc_rate_control width = ("3M", "5M", "8M"))) /\
  (forall w1 w2, w1 <= w2 ->
     exists b1 m1 f1 b2 m2 f2,
       hevc_rates w1 = Some (b1, m1, f1) /\ hevc_rates w2 = Some (b2, m2, f2) /\
       b1 <= b2 /\ m1 <= m2 /\ f1 <= f2) /\
  (forall base_cmd filter_expr profile dest_path bv maxrate bufsize,
     _hevc_rate_control (p_width profile) = (bv, maxrate, bufsize) ->
     rkmpp_cmd base_cmd filter_expr "hevc_rkmpp" profile dest_path =
       (base_cmd ++
        ["-vf"; filter_expr; "-c:v"; "hevc_rkmpp"; "-pix_fmt"; "nv12";
         "-profile:v"; "main"; "-tag:v"; "hvc1";
         "-b:v"; bv; "-maxrate"; maxrate; "-bufsize"; bufsize;
         "-g"; "240"; "-movflags"; "+faststart"; "-c:a"; "aac"; "-b:a"; "128k";
         dest_path])%list) /\
  (forall base_cmd filter_expr encoder_name profile dest_path,
     encoder_name <> "hevc_rkmpp" ->
     rkmpp_cmd base_cmd filter_expr encoder_name profile dest_path =
       (base_cmd ++
        ["-vf"; filter_expr; "-c:v"; encoder_name; "-pix_fmt"; "nv12";
         "-b:v"; str_int (p_video_bitrate profile);
         "-g"; "240"; "-movflags"; "+faststart"; "-c:a"; "aac"; "-b:a"; "128k";
         dest_path])%list) /\
  (forall self w record source_path dest_path profile decoder_name bv maxrate bufsize,
     _hevc_rate_control (p_width profile) = (bv, maxrate, bufsize) ->
     let cmd := fun filter_expr : string =>
       (rkmpp_base_cmd self source_path decoder_name ++
        ["-vf"; filter_expr; "-c:v"; "hevc_rkmpp"; "-pix_fmt"; "nv12";
         "-profile:v"; "main"; "-tag:v"; "hvc1";
         "-b:v"; bv; "-maxrate"; maxrate; "-bufsize"; bufsize;
         "-g"; "240"; "-movflags"; "+faststart"; "-c:a"; "aac"; "-b:a"; "128k";
         dest_path])%list in
     let encode := fun w =>
       _transcode_rkmpp self w record source_path dest_path profile decoder_name
                        "hevc_rkmpp" in
     ((encode w).2 = inr tt <->
      exists c, c ∈ rkmpp_filter_candidates w /\
                proc_returncode (popen w (wrapped_cmd (cmd c.2))) = 0) /\
     ((forall c, c ∈ rkmpp_filter_candidates w ->
                 proc_returncode (popen w (wrapped_cmd (cmd c.2))) <> 0) ->
      (encode w).2 = inl (RuntimeError "ffmpeg transcode-rkmpp-format failed")) /\
     (forall w',
        rga_exists w' = rga_exists w ->
        (forall c, c ∈ rkmpp_filter_candidates w ->
                   popen w' (wrapped_cmd (cmd c.2)) = popen w (wrapped_cmd (cmd c.2))) ->
        encode w' = encode w)).
Proof.
  assert (Hcmd : forall base_cmd filter_expr profile dest_path bv maxrate bufsize,
     _hevc_rate_control (p_width profile) = (bv, maxrate, bufsize) ->
     rkmpp_cmd base_cmd filter_expr "hevc_rkmpp" profile dest_path =
       (base_cmd ++
        ["-vf"; filter_expr; "-c:v"; "hevc_rkmpp"; "-pix_fmt"; "nv12";
         "-profile:v"; "main"; "-tag:v"; "hvc1";
         "-b:v"; bv; "-maxrate"; maxrate; "-bufsize"; bufsize;
         "-g"; "240"; "-movflags"; "+faststart"; "-c:a"; "aac"; "-b:a"; "128k";
         dest_path])%list).
  { intros base_cmd filter_expr profile dest_path bv maxrate bufsize H.
    unfold rkmpp_cmd. rewrite H. simpl. rewrite <- !app_assoc. reflexivity. }
  split; [|split; [|split; [|split]]].
  - intros width. unfold _hevc_rate_control.
    destruct (Z.geb_spec width 3800); destruct (Z.geb_spec width 2500);
      repeat split; intros; try reflexivity; lia.
  - intros w1 w2 Hle. rewrite !hevc_rates_cases.
    destruct (Z.geb_spec w1 3800); destruct (Z.geb_spec w1 2500);
      destruct (Z.geb_spec w2 3800); destruct (Z.geb_spec w2 2500);
      try lia; do 6 eexists; (split; [reflexivity|]); (split; [reflexivity|]); lia.
  - exact Hcmd.
  - intros base_cmd filter_expr encoder_name profile dest_path Hne.
    unfold rkmpp_cmd. rewrite (bool_decide_eq_false_2 _ Hne).
    rewrite <- !app_assoc. reflexivity.
  - intros self w record source_path dest_path profile decoder_name bv maxrate bufsize
           Hrc.
    cbv zeta. unfold _transcode_rkmpp.
    set (base := rkmpp_base_cmd self source_path decoder_name).
    assert (Heq : forall f, rkmpp_cmd base f "hevc_rkmpp" profile dest_path =
              (base ++
               ["-vf"; f; "-c:v"; "hevc_rkmpp"; "-pix_fmt"; "nv12";
                "-profile:v"; "main"; "-tag:v"; "hvc1";
                "-b:v"; bv; "-maxrate"; maxrate; "-bufsize"; bufsize;
                "-g"; "240"; "-movflags"; "+faststart"; "-c:a"; "aac"; "-b:a"; "128k";
                dest_path])%list)
      by (intros f; by apply Hcmd).
    assert (Hko : (forall c, c ∈ rkmpp_filter_candidates w ->
                     proc_returncode
                       (popen w (wrapped_cmd
                          (rkmpp_cmd base c.2 "hevc_rkmpp" profile dest_path))) <> 0) ->
                  (rkmpp_loop w base "hevc_rkmpp" profile dest_path
                              (rkmpp_filter_candidates w) None record).2
                  = inl (RuntimeError "ffmpeg transcode-rkmpp-format failed")).
    { intros H. rewrite rkmpp_loop_failure by assumption.
      unfold rkmpp_filter_candidates. destruct (rga_exists w); reflexivity. }
    split; [split|split].
    + intros Hok.
      destruct (decide (Exists (fun c : string * string =>
                  proc_returncode
                    (popen w (wrapped_cmd
                       (rkmpp_cmd base c.2 "hevc_rkmpp" profile dest_path))) = 0)
                  (rkmpp_filter_candidates w))) as [Hex|Hnex].
      * apply Exists_exists in Hex as (c & Hc & Hz). exists c.
        split; [assumption|]. by rewrite <- Heq.
      * rewrite Hko in Hok; [discriminate|].
        intros c Hc Hz. apply Hnex. apply Exists_exists. eauto.
    + intros (c & Hc & Hz). apply rkmpp_loop_success. exists c.
      split; [assumption|]. by rewrite Heq.
    + intros H. apply Hko. intros c Hc. rewrite Heq. by apply H.
    + intros w' Hrga H.
      assert (Hcand : rkmpp_filter_candidates w' = rkmpp_filter_candidates w)
        by (unfold rkmpp_filter_candidates; by rewrite Hrga).
      rewrite Hcand. apply rkmpp_loop_commands. intros c Hc. rewrite Heq. by apply H.
Qed.

Lemma hevc_rate_control_tiers_witness :
  1920 <= 3840 /\
  (exists b1 m1 f1 b2 m2 f2,
     hevc_rates 1920 = Some (b1, m1, f1) /\ hevc_rates 3840 = Some (b2, m2, f2) /\
     b1 <= b2 /\ m1 <= m2 /\ f1 <= f2) /\
  (_transcode_rkmpp software_engine (scripted_world [] 0) started_record
                    "/data/input/job_a.mkv" "/data/work/job.mp4" uhd_profile ""
                    "hevc_rkmpp").2 = inr tt.
Proof.
  split; [lia|]. split.
  - apply (proj1 (proj2 hevc_rate_control_tiers) 1920 3840). lia.
  - apply (proj2 (proj2 (proj2 (proj2 hevc_rate_control_tiers)))
             software_engine (scripted_world [] 0) started_record
             "/data/input/job_a.mkv" "/data/work/job.mp4" uhd_profile ""
             "8M" "12M" "18M" eq_refl).
    exists ("format", "format=nv12,pad=ceil(iw/16)*16:ceil(ih/16)*16").
    split; [constructor|reflexivity].
Defined.

(** ** Progress and ETA *)

Lemma Qgtb_true (a b : Q) : Qgtb a b = true <-> (b < a)%Q.
Proof.
  unfold Qgtb. destruct (Qlt_le_dec b a) as [H|H]; split; try done.
  intros H'. exfalso. exact (Qlt_not_le _ _ H' H).
Qed.

Lemma py_min_le_r (a b : Q) : (py_min a b <= b)%Q.
Proof.
  unfold py_min. destruct (Qlt_le_dec b a); [apply Qle_refl|assumption].
Qed.

Lemma py_min_le_l (a b : Q) : (py_min a b <= a)%Q.
Proof.
  unfold py_min. destruct (Qlt_le_dec b a); [by apply Qlt_le_weak|apply Qle_refl].
Qed.

Lemma py_min_glb (a b c : Q) : (c <= a)%Q -> (c <= b)%Q -> (c <= py_min a b)%Q.
Proof. unfold py_min. destruct (Qlt_le_dec b a); auto. Qed.

Lemma truthy_float_Some (q : Q) : truthy_float (Some q) = true <-> ~ (q == 0)%Q.
Proof.
  simpl. rewrite negb_true_iff. split.
  - intros H Hq. apply Qeq_bool_iff in Hq. congruence.
  - intros H. destruct (Qeq_bool q 0) eqn:E; [|reflexivity].
    apply Qeq_bool_iff in E. contradiction.
Qed.

(** The progress [to_detail] reports, when the processed time is not negative
    and the duration is positive, lies between 0 and 1. *)
Lemma progress_in_unit_interval self now (d t p : Q) :
  media_duration_seconds self = Some d ->
  transcode_media_seconds self = Some t ->
  (0 < d)%Q -> (0 <= t)%Q ->
  transcode_progress (to_detail self now) = Some p ->
  (0 <= p <= 1)%Q.
Proof.
  intros Hd Ht Hdpos Htpos.
  unfold to_detail, progress_and_eta. rewrite Hd, Ht.
  destruct (transcode_started_at self); [|simpl; discriminate].
  destruct (truthy_float (Some d)); [|simpl; discriminate].
  cbn -[py_min Qdiv Qgtb truthy_float total_seconds py_max].
  intros [= <-]. split.
  - apply Qle_shift_div_l; [assumption|]. rewrite Qmult_0_l.
    apply py_min_glb; [assumption|by apply Qlt_le_weak].
  - apply Qle_shift_div_r; [assumption|]. rewrite Qmult_1_l. apply py_min_le_r.
Qed.

Example negative_progress_run :
  let '(record, outcome) :=
    _process_sync software_engine negative_progress_world started_record auto_request in
  outcome = inl (RuntimeError "ffmpeg transcode failed") /\
  media_duration_seconds record = Some (10 # 1)%Q /\
  transcode_media_seconds record = Some (-500000 # 1000000)%Q.
Proof. vm_compute. repeat split. Qed.

(** Below zero the processed time is not clamped: with a positive duration, a
    negative processed time gives a negative progress. *)
Lemma progress_negative self now (d t : Q) started :
  media_duration_seconds self = Some d ->
  transcode_media_seconds self = Some t ->
  transcode_started_at self = Some started ->
  (0 < d)%Q -> (t < 0)%Q ->
  exists p, transcode_progress (to_detail self now) = Some p /\ (p < 0)%Q.
Proof.
  intros Hd Ht Hs Hdpos Htneg.
  unfold to_detail, progress_and_eta. rewrite Hd, Ht, Hs.
  assert (Htr : truthy_float (Some d) = true).
  { apply truthy_float_Some. intros H. rewrite H in Hdpos. exact (Qlt_irrefl _ Hdpos). }
  rewrite Htr. cbn -[py_min Qdiv Qgtb truthy_float total_seconds py_max].
  eexists. split; [reflexivity|].
  apply Qlt_shift_div_r; [assumption|]. rewrite Qmult_0_l.
  eapply Qle_lt_trans; [apply py_min_le_l|assumption].
Qed.

(** C6 (the code at the failing input). The source lasts 10 s and ffmpeg
    reports a processed time of -0.5 s: on the record [_process_sync] leaves
    behind, [to_detail] reports a progress that is not null and is below
    zero, since [min] clamps from above only. *)
Theorem to_detail_progress_below_zero :
  let record :=
    (_process_sync software_engine negative_progress_world started_record
                   auto_request).1 in
  exists p,
    transcode_progress (to_detail record 3000000) = Some p /\
    (p < 0)%Q /\ ~ (0 <= p <= 1)%Q.
Proof.
  eexists. split; [vm_compute; reflexivity|]. split; [reflexivity|].
  intros [H _]. apply H. reflexivity.
Qed.

Lemma to_detail_eta self now :
  transcode_eta_seconds (to_detail self now) = (progress_and_eta self now).2.
Proof. unfold to_detail. destruct (progress_and_eta self now). reflexivity. Qed.

Lemma to_detail_progress self now :
  transcode_progress (to_detail self now) = (progress_and_eta self now).1.
Proof. unfold to_detail. destruct (progress_and_eta self now). reflexivity. Qed.

(** With nothing processed there is no speed to extrapolate from. *)
Lemma no_eta_without_progress (d t elapsed : Q) :
  (t == 0)%Q -> (0 < elapsed)%Q ->
  Qgtb (py_min t d / d) 0 = true -> Qgtb (py_min t d / elapsed) 0 = true -> False.
Proof.
  intros Ht He Hp Hs. apply Qgtb_true in Hp, Hs.
  unfold py_min in *. destruct (Qlt_le_dec d t) as [Hlt|Hle].
  - (* a negative duration: the speed is negative *)
    rewrite Ht in Hlt.
    assert (d / elapsed < 0)%Q.
    { apply Qlt_shift_div_r; [assumption|]. by rewrite Qmult_0_l. }
    eapply Qlt_irrefl, Qlt_trans; eassumption.
  - (* the processed time is zero: so is the progress *)
    rewrite Ht in Hp. unfold Qdiv in Hp. rewrite Qmult_0_l in Hp.
    exact (Qlt_irrefl _ Hp).
Qed.

(** C8. [to_detail] leaves the ETA undefined when the media duration is
    unknown, when the recorded processed media time is zero, and when the
    transcode has finished. *)
Theorem eta_undefined (self : JobRecord) (now : datetime) :
  media_duration_seconds self = None \/
  (exists t, transcode_media_seconds self = Some t /\ (t == 0)%Q) \/
  transcode_finished_at self <> None ->
  transcode_eta_seconds (to_detail self now) = None.
Proof.
  intros H. rewrite to_detail_eta. unfold progress_and_eta.
  destruct (media_duration_seconds self) as [d|]; [|reflexivity].
  destruct (transcode_media_seconds self) as [t|]; [|reflexivity].
  destruct (transcode_started_at self) as [started|]; [|reflexivity].
  destruct (truthy_float (Some d)) eqn:Hd; [|reflexivity].
  cbn -[py_min Qdiv Qgtb truthy_float total_seconds py_max].
  destruct H as [H|[(t' & [= <-] & Ht)|H]]; [discriminate| |].
  - destruct (truthy_float (Some (py_min t d / d)%Q)); [|reflexivity].
    destruct (Qgtb (py_min t d / d) 0) eqn:Hp; [|reflexivity].
    destruct (bool_decide (transcode_finished_at self = None)); [|reflexivity].
    cbn -[py_min Qdiv Qgtb total_seconds py_max].
    destruct (Qgtb (total_seconds now started) 0) eqn:He; [|reflexivity].
    destruct (Qgtb (py_min t d / total_seconds now started) 0) eqn:Hs; [|reflexivity].
    exfalso. apply Qgtb_true in He.
    exact (no_eta_without_progress d t _ Ht He Hp Hs).
  - rewrite (bool_decide_eq_false_2 _ H). rewrite andb_false_r. reflexivity.
Qed.

Lemma eta_undefined_witness :
  transcode_eta_seconds (to_detail finished_record 9500000) = None.
Proof.
  apply (eta_undefined finished_record 9500000).
  right. right. simpl. discriminate.
Defined.

(** While a transcode is under way the ETA is defined. *)
Example eta_defined_midway :
  let record :=
    set_transcode_media_seconds
      (set_media_duration_seconds started_record (Some (10 # 1)%Q)) (Some (4 # 1)%Q) in
  exists eta, transcode_eta_seconds (to_detail record 3000000) = Some eta /\ (eta == 3)%Q.
Proof. eexists. split; [vm_compute; reflexivity|reflexivity]. Qed.

(** ** Processed media seconds against the media duration *)

Example overrun_run :
  let '(record, outcome) :=
    _process_sync software_engine overrun_world started_record auto_request in
  outcome = inl (RuntimeError "ffmpeg transcode failed") /\
  media_duration_seconds record = Some (10 # 1)%Q /\
  transcode_media_seconds record = Some (12000000 # 1000000)%Q.
Proof. vm_compute. repeat split. Qed.

(** C3 (as stated, refuted). A progress update does not preserve the bound:
    from a record with a known duration of 10 s, the update for 12 s of
    output stores 12; and the record a failed [_process_sync] leaves behind
    has both fields known with the counter above the duration. *)
Lemma progress_update_exceeds_duration :
  let before := set_media_duration_seconds started_record (Some (10 # 1)%Q) in
  progress_bounded before /\
  ~ progress_bounded (_update_progress before (12 # 1) (10 # 1) 2000000) /\
  ~ progress_bounded
      (_process_sync software_engine overrun_world started_record auto_request).1.
Proof.
  split; [|split].
  - intros d t _ Ht. discriminate Ht.
  - intros H. specialize (H (10 # 1)%Q (12 # 1)%Q eq_refl eq_refl).
    apply H. reflexivity.
  - intros H.
    specialize (H (10 # 1)%Q (12000000 # 1000000)%Q).
    assert (Hle : (12000000 # 1000000 <= 10 # 1)%Q)
      by (apply H; vm_compute; reflexivity).
    apply Hle. reflexivity.
Qed.

(** The same overrun seen through the manager: the job ends [failed], its
    record keeps 12 s processed against a duration of 10 s, and the callback
    is dispatched once. *)
Example overrun_job :
  let m :=
    worker_process (worker_get hook_manager 3 4) software_engine overrun_world 8 9 in
  status_of m 0%nat = Some failed /\
  media_duration_seconds <$> heap m !! 0%nat = Some (Some (10 # 1)%Q) /\
  transcode_media_seconds <$> heap m !! 0%nat = Some (Some (12000000 # 1000000)%Q) /\
  length (dispatched m) = 1%nat /\
  current m = None.
Proof. vm_compute. repeat split. Qed.

Lemma _process_sync_finalizes self w record request record' res :
  _process_sync self w record request = (record', inr res) ->
  media_duration_seconds record' <> None ->
  transcode_media_seconds record' = media_duration_seconds record'.
Proof.
  unfold _process_sync. intros H Hknown.
  destruct (_probe w (source_path record)) as [e|info]; [discriminate|].
  destruct (_select_profile info request) as [e|profile]; [discriminate|].
  match type of H with
  | match ?c with _ => _ end = _ => destruct c as [[rec2 ran] remuxed]
  end.
  destruct ran as [e|[]]; [discriminate|].
  destruct (shutil_move w _ _) as [e|[]]; [discriminate|].
  injection H as <- _.
  destruct (bool_decide (media_duration_seconds rec2 = None)) eqn:E; simpl in *.
  - apply bool_decide_eq_true in E. contradiction.
  - reflexivity.
Qed.

(** C3 (amended). A progress update stores the reported seconds as they are;
    what is bounded is the value read from the record: the progress
    [to_detail] derives from [min(processed, duration)] never exceeds 1 for a
    positive duration; and when [_process_sync] returns a result with the
    duration known, the stored counter equals the duration. *)
Theorem processed_seconds_bound :
  (forall record s d now,
     transcode_media_seconds (_update_progress record s d now) = Some s) /\
  (forall self now d p,
     media_duration_seconds self = Some d -> (0 < d)%Q ->
     transcode_progress (to_detail self now) = Some p -> (p <= 1)%Q) /\
  (forall self w record request record' res,
     _process_sync self w record request = (record', inr res) ->
     media_duration_seconds record' <> None ->
     transcode_media_seconds record' = media_duration_seconds record' /\
     progress_bounded record').
Proof.
  split; [|split].
  - intros record s d now. unfold _update_progress.
    destruct (_ && _); reflexivity.
  - intros self now d p Hd Hpos. rewrite to_detail_progress.
    unfold progress_and_eta. rewrite Hd.
    destruct (transcode_media_seconds self) as [t|]; [|discriminate].
    destruct (transcode_started_at self); [|discriminate].
    destruct (truthy_float (Some d)); [|discriminate].
    cbn -[py_min Qdiv Qgtb truthy_float total_seconds py_max].
    intros [= <-]. apply Qle_shift_div_r; [assumption|].
    rewrite Qmult_1_l. apply py_min_le_r.
  - intros self w record request record' res H Hknown.
    pose proof (_process_sync_finalizes _ _ _ _ _ _ H Hknown) as Heq.
    split; [assumption|]. intros d t Hd Ht. rewrite Heq, Hd in Ht.
    injection Ht as <-. apply Qle_refl.
Qed.

Lemma processed_seconds_bound_witness :
  let world := scripted_world [(out_time_ms (Some 12000000), 2000000)] 0 in
  let after := (_process_sync software_engine world started_record auto_request).1 in
  transcode_media_seconds after = media_duration_seconds after /\
  progress_bounded after.
Proof.
  eapply (proj2 (proj2 processed_seconds_bound) software_engine
            (scripted_world [(out_time_ms (Some 12000000), 2000000)] 0)
            started_record auto_request).
  - vm_compute. reflexivity.
  - vm_compute. discriminate.
Defined.

Example complete_run :
  let '(record, outcome) :=
    _process_sync software_engine
      (scripted_world [(out_time_ms (Some 4000000), 2000000);
                       (other_line, 2000001);
                       (out_time_ms None, 2000002);
                       (out_time_ms (Some 12000000), 3000000)] 0)
      started_record auto_request in
  outcome = inr {| t_output_path := "/data/output/job.mp4"; t_remuxed := false;
                   t_profile := hd_profile; t_codec := h264 |} /\
  media_duration_seconds record = Some (10 # 1)%Q /\
  transcode_media_seconds record = Some (10 # 1)%Q /\
  updated_at record = 3000000.
Proof. vm_compute. repeat split. Qed.

(** ** Callback dispatch *)

Lemma dispatch_loop_posts post url payload attempts :
  (count_posts (dispatch_loop post url payload attempts) <= length attempts)%nat.
Proof.
  unfold count_posts.
  induction attempts as [|k rest IH]; simpl; [lia|].
  destruct (post k); simpl; lia.
Qed.

(** [dispatch] posts at most [max_attempts] times. *)
Lemma dispatch_at_most_max_attempts self post url payload :
  Z.of_nat (count_posts (dispatch self post url payload).1) <= Z.max 0 (max_attempts self).
Proof.
  unfold dispatch. simpl.
  pose proof (dispatch_loop_posts post url payload (seqZ 1 (max_attempts self))) as H.
  rewrite length_seqZ in H. lia.
Qed.

(** [dispatch] returns whatever the attempts did. *)
Lemma dispatch_never_raises self post url payload :
  (dispatch self post url payload).2 = inr tt.
Proof. reflexivity. Qed.

(** Every wait follows a failed attempt [k] and lasts [min(2^k, 30)]. *)
Lemma dispatch_loop_sleeps post url payload attempts :
  forall seconds, ev_sleep seconds ∈ dispatch_loop post url payload attempts ->
  exists k e, k ∈ attempts /\ post k = inl e /\ seconds = Z.min (2 ^ k) 30.
Proof.
  induction attempts as [|k rest IH]; simpl; intros seconds H.
  - apply list_elem_of_singleton in H. discriminate.
  - apply elem_of_cons in H as [H|H]; [discriminate|].
    destruct (post k) as [e|u] eqn:Hk.
    + apply elem_of_cons in H as [[= ->]|H].
      * exists k, e. split; [by left|]. split; [assumption|reflexivity].
      * destruct (IH _ H) as (k' & e' & ? & ? & ?). exists k', e'.
        split; [by right|]. split; assumption.
    + apply list_elem_of_singleton in H. discriminate.
Qed.

(** Every failed attempt is followed by a wait, the last one included. *)
Lemma dispatch_loop_all_fail post url payload attempts :
  (forall k, k ∈ attempts -> exists e, post k = inl e) ->
  count_sleeps (dispatch_loop post url payload attempts) = length attempts /\
  count_posts (dispatch_loop post url payload attempts) = length attempts.
Proof.
  unfold count_sleeps, count_posts.
  induction attempts as [|k rest IH]; simpl; intros H; [split; reflexivity|].
  destruct (H k) as [e He]; [by left|]. rewrite He. simpl.
  destruct IH as [IH1 IH2]; [intros; apply H; by right|]. lia.
Qed.

(** When no attempt goes through, the trace ends with a wait that no attempt
    follows. *)
Lemma dispatch_loop_trailing_sleep post url payload attempts :
  attempts <> [] ->
  (forall k, k ∈ attempts -> exists e, post k = inl e) ->
  trailing_sleep (dispatch_loop post url payload attempts) = true.
Proof.
  induction attempts as [|k rest IH]; intros Hne H; [contradiction|].
  simpl. destruct (H k) as [e He]; [by left|]. rewrite He.
  cbn [trailing_sleep]. destruct rest as [|k' rest'].
  - reflexivity.
  - rewrite IH; [apply orb_true_r|discriminate|]. intros; apply H; by right.
Qed.

(** For every positive number of attempts and every endpoint that keeps
    failing, [dispatch] waits as often as it posts, the last wait being
    followed by no attempt. *)
Lemma dispatch_all_fail self post url payload :
  0 < max_attempts self ->
  (forall k, exists e, post k = inl e) ->
  let trace := (dispatch self post url payload).1 in
  Z.of_nat (count_posts trace) = max_attempts self /\
  Z.of_nat (count_sleeps trace) = max_attempts self /\
  trailing_sleep trace = true.
Proof.
  intros Hpos Hfail. unfold dispatch. cbn [fst].
  destruct (dispatch_loop_all_fail post url payload (seqZ 1 (max_attempts self)))
    as [Hs Hp]; [intros; apply Hfail|].
  rewrite Hs, Hp, length_seqZ. repeat split; try lia.
  apply dispatch_loop_trailing_sleep; [|intros; apply Hfail].
  intros Hnil. apply (f_equal length) in Hnil. rewrite length_seqZ in Hnil.
  simpl in Hnil. lia.
Qed.

(** C9 (the code at the failing input). With three attempts allowed and an
    endpoint that always fails, [dispatch] posts three times and waits three
    times, 2 s, 4 s and 8 s: the third wait comes after the last attempt, with
    no attempt to follow. *)
Theorem dispatch_waits_after_last_attempt :
  let url := "http://example.test/hook" in
  let trace :=
    (dispatch (new_dispatcher default_settings)
              (fun _ => inl (OSError "connection refused")) url sample_payload).1 in
  trace = [ ev_post url sample_payload 1; ev_sleep 2;
            ev_post url sample_payload 2; ev_sleep 4;
            ev_post url sample_payload 3; ev_sleep 8;
            ev_log_exhausted ] /\
  count_posts trace = 3%nat /\
  count_sleeps trace = 3%nat /\
  trailing_sleep trace = true.
Proof. vm_compute. repeat split. Qed.

(** ** Submission against a full queue *)


(** With room in the queue the call enqueues the item and answers. *)
Lemma submit_job_with_room m upload request new_id t0 t1 t2 :
  queue_full m = false ->
  persist upload = inr tt ->
  let m' := (submit_job m upload request new_id t0 t1 t2).1 in
  (submit_job m upload request new_id t0 t1 t2).2
    = submit_returned {| rs_job_id := new_id; rs_status := queued;
                         rs_message := Some "Job accepted" |} /\
  records m' !! new_id = Some (next_ref m) /\
  queue m' = (queue m ++ [{| wi_record := next_ref m; wi_request := request |}])%list.
Proof.
  intros Hfull Hpersist. unfold submit_job. rewrite Hpersist.
  cbn -[path_name path_join truthy_str].
  change (queue_full _) with (queue_full m). rewrite Hfull.
  cbn -[path_name path_join truthy_str].
  split; [reflexivity|]. split; [apply lookup_insert_eq|reflexivity].
Qed.

(** The only failure of [submit_job] comes before the record exists. *)
Lemma submit_job_raises m upload request new_id t0 t1 t2 e :
  (submit_job m upload request new_id t0 t1 t2).2 = submit_raised e ->
  (submit_job m upload request new_id t0 t1 t2).1 = m /\ persist upload = inl e.
Proof.
  unfold submit_job. destruct (persist upload) as [e'|u].
  - simpl. intros [= ->]. split; reflexivity.
  - cbn -[path_name path_join truthy_str].
    change (queue_full _) with (queue_full m).
    destruct (queue_full m); simpl; discriminate.
Qed.



Lemma purge_fold_fields m l :
  queue (foldl purge_one m l) = queue m /\
  putters (foldl purge_one m l) = putters m /\
  current (foldl purge_one m l) = current m /\
  heap (foldl purge_one m l) = heap m /\
  next_ref (foldl purge_one m l) = next_ref m /\
  dispatched (foldl purge_one m l) = dispatched m.
Proof.
  revert m. induction l as [|kr l IH]; intros m; simpl; [repeat split|].
  destruct (IH (purge_one m kr)) as (? & ? & ? & ? & ? & ?). repeat split; assumption.
Qed.





(** ** Callbacks on terminal transitions *)

(** C2 (as stated, refuted). Cancelling a queued job that has a callback URL
    moves it to [cancelled] without any dispatch; none happens either when the
    worker later takes the job off the queue and skips it. *)
Lemma cancel_dispatches_nothing :
  let cancelled_manager := (cancel_job hook_manager "job-1" 5).1 in
  status_of hook_manager 0%nat = Some queued /\
  callback_url <$> heap hook_manager !! 0%nat = Some (Some hook_url) /\
  (cancel_job hook_manager "job-1" 5).2 = true /\
  status_of cancelled_manager 0%nat = Some cancelled /\
  dispatched cancelled_manager = [] /\
  queue (worker_get cancelled_manager 6 7) = [] /\
  status_of (worker_get cancelled_manager 6 7) 0%nat = Some cancelled /\
  dispatched (worker_get cancelled_manager 6 7) = [].
Proof. vm_compute. repeat split. Qed.

Lemma dispatched_mutate m r f : dispatched (mutate m r f) = dispatched m.
Proof. reflexivity. Qed.

Lemma heap_mutate m r f : heap (mutate m r f) = alter f r (heap m).
Proof. reflexivity. Qed.

Lemma _fire_callback_with_url m record message url :
  callback_url record = Some url -> url <> "" ->
  _fire_callback m record message =
    with_dispatched m
      (dispatched m ++
       [(url, {| cb_job_id := job_id record; cb_status := status record;
                 cb_output_path := output_path record; cb_message := message |})])%list.
Proof.
  intros Hurl Hne. unfold _fire_callback. rewrite Hurl. simpl.
  rewrite (bool_decide_eq_false_2 _ Hne). reflexivity.
Qed.

Lemma mark_failed_status exc t1 t2 record :
  status (mark_failed exc t1 t2 record) = failed.
Proof. unfold mark_failed. destruct (_ && _); reflexivity. Qed.

Lemma mark_failed_callback_url exc t1 t2 record :
  callback_url (mark_failed exc t1 t2 record) = callback_url record.
Proof. unfold mark_failed. destruct (_ && _); reflexivity. Qed.

Lemma cancel_job_dispatched m id now : dispatched (cancel_job m id now).1 = dispatched m.
Proof.
  unfold cancel_job. destruct (records m !! id) as [r|]; [|reflexivity].
  destruct (heap m !! r) as [rcd|]; [|reflexivity].
  destruct (is_terminal (status rcd)); reflexivity.
Qed.

Lemma worker_get_dispatched m now started :
  dispatched (worker_get m now started) = dispatched m.
Proof.
  unfold worker_get. destruct (shutdown m); [reflexivity|].
  destruct (current m); [reflexivity|].
  destruct (queue m) as [|item rest]; [reflexivity|].
  cbn [heap with_queue]. destruct (heap m !! wi_record item) as [rcd|]; [|reflexivity].
  destruct (bool_decide (status rcd = cancelled)); reflexivity.
Qed.

(** C2 (amended). For a job with a callback URL, the transition into
    [completed] or [failed] that the worker makes when processing ends calls
    [dispatch] exactly once, with the new status in the payload; the
    transition into [cancelled] made by [cancel_job] calls it not at all, and
    neither does the worker when it takes an item off the queue. *)
Theorem terminal_transition_dispatch :
  (forall m outcome t1 t2 item record url,
     current m = Some item ->
     heap m !! wi_record item = Some record ->
     callback_url record = Some url -> url <> "" ->
     exists record',
       heap (worker_finish m outcome t1 t2) !! wi_record item = Some record' /\
       status record' = (match outcome with inr _ => completed | inl _ => failed end) /\
       dispatched (worker_finish m outcome t1 t2) =
         (dispatched m ++
          [(url, {| cb_job_id := job_id record; cb_status := status record';
                    cb_output_path := output_path record';
                    cb_message :=
                      Some (match outcome with
                            | inr _ => "completed"
                            | inl exc => str_exc exc
                            end) |})])%list) /\
  (forall m id now, dispatched (cancel_job m id now).1 = dispatched m) /\
  (forall m now started, dispatched (worker_get m now started) = dispatched m).
Proof.
  split; [|split; [apply cancel_job_dispatched|apply worker_get_dispatched]].
  intros m outcome t1 t2 item record url Hcur Hrec Hurl Hne.
  unfold worker_finish. rewrite Hcur.
  set (mark := match outcome with
               | inr res => mark_completed res t1 t2
               | inl exc => mark_failed exc t1 t2
               end).
  assert (Hst : status (mark record) =
                match outcome with inr _ => completed | inl _ => failed end).
  { subst mark. destruct outcome; [apply mark_failed_status|reflexivity]. }
  assert (Hcb : callback_url (mark record) = Some url).
  { subst mark. destruct outcome; [by rewrite mark_failed_callback_url|assumption]. }
  assert (Hid : job_id (mark record) = job_id record).
  { subst mark. destruct outcome; [unfold mark_failed; destruct (_ && _)|]; reflexivity. }
  exists (mark record).
  destruct outcome as [exc|res]; cbn zeta beta iota;
    rewrite heap_mutate, lookup_alter_eq, Hrec; cbn [fmap option_fmap option_map];
    fold mark; rewrite (_fire_callback_with_url _ _ _ url Hcb Hne);
    cbn [heap with_current with_dispatched dispatched];
    rewrite heap_mutate, lookup_alter_eq, Hrec; cbn [fmap option_fmap option_map];
    rewrite Hid, dispatched_mutate; repeat split; assumption.
Qed.

Lemma terminal_transition_dispatch_witness :
  let m := worker_get hook_manager 3 4 in
  dispatched m = [] /\
  exists record',
    heap (worker_finish m (inl (RuntimeError "ffmpeg transcode failed")) 8 9) !! 0%nat
      = Some record' /\
    status record' = failed /\
    length (dispatched (worker_finish m (inl (RuntimeError "ffmpeg transcode failed")) 8 9))
      = 1%nat.
Proof.
  split; [reflexivity|].
  destruct (proj1 terminal_transition_dispatch
              (worker_get hook_manager 3 4)
              (inl (RuntimeError "ffmpeg transcode failed")) 8 9
              {| wi_record := 0%nat; wi_request := hook_request |}
              (set_transcode_started_at
                 (set_updated_at
                    (set_status
                       {| job_id := "job-1"; status := queued; created_at := 0;
                          updated_at := 0;
                          source_path := "/data/input/job-1_a.mp4";
                          source_filename := "a.mp4"; output_path := None;
                          quality := q_auto; codec := c_auto;
                          callback_url := Some hook_url; error := None;
                          download_started_at := Some 1;
                          download_finished_at := Some 2;
                          transcode_started_at := None;
                          transcode_finished_at := None;
                          media_duration_seconds := None;
                          transcode_media_seconds := None |}
                       processing) 3) (Some 4))
              hook_url)
    as (record' & Hheap & Hstatus & Hdisp);
    [reflexivity | vm_compute; reflexivity | reflexivity | discriminate |].
  exists record'. split; [exact Hheap|]. split; [exact Hstatus|].
  rewrite Hdisp. reflexivity.
Defined.

(** ** Cancellation *)

Lemma wf_new_manager s : wf (new_manager s).
Proof.
  split; simpl.
  - constructor.
  - discriminate.
  - intros r H. inversion H.
  - intros r [x H]. rewrite lookup_empty in H. discriminate.
Qed.

(** Only the queue, the suspended puts, the worker's item and the heap matter. *)
Lemma wf_ext m m' :
  queue m' = queue m -> putters m' = putters m -> current m' = current m ->
  heap m' = heap m -> next_ref m' = next_ref m -> wf m -> wf m'.
Proof.
  intros Hq Hp Hc Hh Hn [H1 H2 H3 H4].
  split; unfold pending in *; rewrite ?Hq, ?Hp, ?Hc, ?Hh, ?Hn; assumption.
Qed.

Lemma is_Some_lookup_alter (f : JobRecord -> JobRecord) (h : gmap nat JobRecord) r r' :
  is_Some (alter f r h !! r') <-> is_Some (h !! r').
Proof.
  destruct (decide (r = r')) as [->|Hne].
  - rewrite lookup_alter_eq. apply fmap_is_Some.
  - by rewrite lookup_alter_ne.
Qed.

(** A record may be mutated in place as long as, if it waits, it stays
    [queued] or [cancelled]. *)
Lemma wf_mutate m r f :
  wf m ->
  (r ∈ pending m -> forall rcd, heap m !! r = Some rcd ->
     status (f rcd) = queued \/ status (f rcd) = cancelled) ->
  wf (mutate m r f).
Proof.
  intros [H1 H2 H3 H4] Hf. split; cbn [mutate with_heap heap current next_ref];
    change (pending (with_heap m _)) with (pending m).
  - assumption.
  - intros item Hi. destruct (H2 item Hi). split; [assumption|].
    by apply is_Some_lookup_alter.
  - intros r' Hr'. destruct (H3 r' Hr') as (rcd & Hl & Hs).
    destruct (decide (r = r')) as [->|Hne].
    + exists (f rcd). rewrite lookup_alter_eq, Hl. split; [reflexivity|]. eauto.
    + exists rcd. by rewrite lookup_alter_ne.
  - intros r' Hr'. apply H4. by apply is_Some_lookup_alter in Hr'.
Qed.

Lemma wf_cancel_job m id now : wf m -> wf (cancel_job m id now).1.
Proof.
  intros Hwf. unfold cancel_job.
  destruct (records m !! id) as [r|]; [|assumption].
  destruct (heap m !! r) as [rcd|]; [|assumption].
  destruct (is_terminal (status rcd)); [assumption|].
  apply wf_mutate; [assumption|]. intros; right; reflexivity.
Qed.

Lemma apply_op_status op rcd : status (apply_op op rcd) = status rcd.
Proof.
  destruct op; simpl; [reflexivity| |].
  - unfold _update_progress. destruct (_ && _); reflexivity.
  - destruct (negb _); reflexivity.
Qed.

Lemma wf_engine_step m op : wf m -> wf (engine_step m op).
Proof.
  intros Hwf. unfold engine_step. destruct (current m) as [item|] eqn:Hc; [|assumption].
  apply wf_mutate; [assumption|]. intros Hin.
  destruct (wf_current m Hwf item Hc) as [Hnot _]. contradiction.
Qed.

Lemma wf_stop m : wf m -> wf (stop m).
Proof.
  intros [H1 H2 H3 H4]. split; try assumption. discriminate.
Qed.

Lemma wf_purge m now : wf m -> wf (purge_expired_jobs m now).
Proof.
  unfold purge_expired_jobs.
  destruct (purge_fold_fields m
              (List.filter
                 (expired m (now - job_retention_minutes (settings m) * 60000000))
                 (map_to_list (records m)))) as (? & ? & ? & ? & ? & _).
  by apply wf_ext.
Qed.

Lemma wf_resume_put m : wf m -> wf (resume_put m).1.
Proof.
  intros Hwf. unfold resume_put. destruct (putters m) as [|item rest] eqn:Hp; [assumption|].
  destruct (queue_full m); [assumption|]. cbn [fst].
  destruct Hwf as [H1 H2 H3 H4].
  assert (Hpend : pending (with_putters (with_queue m (queue m ++ [item])) rest)
                  = pending m).
  { unfold pending. cbn [queue putters with_putters with_queue].
    rewrite Hp, <- app_assoc. reflexivity. }
  split; rewrite ?Hpend; assumption.
Qed.

Lemma wf_worker_finish m outcome t1 t2 : wf m -> wf (worker_finish m outcome t1 t2).
Proof.
  intros Hwf. unfold worker_finish.
  destruct (current m) as [item|] eqn:Hc; [|assumption].
  destruct (wf_current m Hwf item Hc) as [Hnot _].
  set (mark := match outcome with
               | inr res => mark_completed res t1 t2
               | inl exc => mark_failed exc t1 t2
               end).
  assert (Hm : wf (mutate m (wi_record item) mark)).
  { apply wf_mutate; [assumption|]. intros Hin. contradiction. }
  assert (Hgoal : forall m1, queue m1 = queue (mutate m (wi_record item) mark) ->
                    putters m1 = putters (mutate m (wi_record item) mark) ->
                    heap m1 = heap (mutate m (wi_record item) mark) ->
                    next_ref m1 = next_ref (mutate m (wi_record item) mark) ->
                    wf (with_current m1 None)).
  { intros m1 Hq Hp Hh Hn. destruct Hm as [H1 H2 H3 H4].
    split; unfold pending in *; cbn [with_current queue putters current heap next_ref];
      rewrite ?Hq, ?Hp, ?Hh, ?Hn; try assumption. discriminate. }
  destruct outcome as [exc|res]; cbn zeta beta iota; fold mark;
    (destruct (heap (mutate m (wi_record item) mark) !! wi_record item) as [rcd|];
     [|by apply Hgoal]);
    unfold _fire_callback; destruct (negb _); by apply Hgoal.
Qed.

Lemma wf_worker_get m now started : wf m -> wf (worker_get m now started).
Proof.
  intros Hwf. unfold worker_get. destruct (shutdown m); [assumption|].
  destruct (current m) as [busy|] eqn:Hc; [assumption|].
  destruct (queue m) as [|item rest] eqn:Hq; [assumption|].
  destruct Hwf as [H1 H2 H3 H4].
  assert (Hpend : pending m = wi_record item :: pending (with_queue m rest)).
  { unfold pending. cbn [queue putters with_queue]. rewrite Hq. reflexivity. }
  rewrite Hpend in H1, H3. apply NoDup_cons in H1 as [Hhead Htail].
  assert (Hrest : wf (with_queue m rest)).
  { split; cbn [current heap next_ref with_queue]; try assumption.
    - rewrite Hc. discriminate.
    - intros r Hr. apply H3. by right. }
  cbn [heap with_queue].
  destruct (heap m !! wi_record item) as [rcd|] eqn:Hl; [|assumption].
  destruct (bool_decide (status rcd = cancelled)); [assumption|].
  split; cbn [current heap next_ref with_current mutate with_heap with_queue];
    change (pending (with_current _ _)) with (pending (with_queue m rest)).
  - assumption.
  - intros ? [= <-]. split; [assumption|].
    apply is_Some_lookup_alter. rewrite Hl. eauto.
  - intros r Hr. destruct (H3 r) as (rcd' & Hl' & Hs); [by right|].
    exists rcd'. split; [|assumption].
    rewrite lookup_alter_ne; [assumption|]. intros Heq. subst r. contradiction.
  - intros r Hr. apply H4. by apply is_Some_lookup_alter in Hr.
Qed.

(** A fresh record object, [queued], joins the waiting ones. *)
Lemma wf_enqueue m m' rcd :
  wf m ->
  heap m' = <[next_ref m := rcd]> (heap m) ->
  next_ref m' = S (next_ref m) ->
  current m' = current m ->
  status rcd = queued ->
  pending m' ≡ₚ next_ref m :: pending m ->
  wf m'.
Proof.
  intros [H1 H2 H3 H4] Hh Hn Hc Hs Hp.
  assert (Hfresh : next_ref m ∉ pending m).
  { intros Hin. destruct (H3 _ Hin) as (x & Hx & _).
    assert (next_ref m < next_ref m)%nat by (apply H4; eauto). lia. }
  split.
  - rewrite Hp. by apply NoDup_cons.
  - intros item Hi. rewrite Hc in Hi. destruct (H2 item Hi) as [Hnot Hsome].
    assert (wi_record item <> next_ref m).
    { intros Heq. rewrite Heq in Hsome. apply H4 in Hsome. lia. }
    split.
    + rewrite Hp. intros Hin. apply elem_of_cons in Hin as [?|?]; contradiction.
    + rewrite Hh, lookup_insert_ne; [assumption|congruence].
  - intros r Hr. rewrite Hp in Hr. rewrite Hh.
    apply elem_of_cons in Hr as [->|Hr].
    + exists rcd. rewrite lookup_insert_eq. eauto.
    + destruct (H3 r Hr) as (x & Hx & Hst). exists x. split; [|assumption].
      rewrite lookup_insert_ne; [assumption|]. intros <-. contradiction.
  - intros r Hr. rewrite Hh in Hr. rewrite Hn.
    destruct (decide (next_ref m = r)) as [<-|Hne]; [lia|].
    rewrite lookup_insert_ne in Hr by assumption. apply H4 in Hr. lia.
Qed.

Lemma wf_submit_job m upload request new_id t0 t1 t2 :
  wf m -> wf (submit_job m upload request new_id t0 t1 t2).1.
Proof.
  intros Hwf. unfold submit_job. destruct (persist upload); [assumption|].
  cbn -[path_name path_join truthy_str].
  change (queue_full _) with (queue_full m).
  destruct (queue_full m); cbn [fst];
    (eapply wf_enqueue; [exact Hwf|reflexivity|reflexivity|reflexivity|reflexivity|]);
    unfold pending; cbn [queue putters with_putters with_queue];
    rewrite !map_app; cbn [map wi_record].
  - rewrite app_assoc. by rewrite <- Permutation_cons_append.
  - rewrite <- app_assoc. cbn [app]. by rewrite <- Permutation_middle.
Qed.

(** Every step keeps the manager well formed. *)
Lemma wf_exec m a : wf m -> wf (exec m a).
Proof.
  intros Hwf. destruct a; simpl.
  - by apply wf_submit_job.
  - by apply wf_resume_put.
  - by apply wf_cancel_job.
  - by apply wf_purge.
  - by apply wf_worker_get.
  - by apply wf_engine_step.
  - by apply wf_worker_finish.
  - by apply wf_stop.
Qed.

Lemma wf_run m actions : wf m -> wf (run m actions).
Proof.
  revert m. induction actions as [|a actions IH]; intros m Hwf; simpl; [assumption|].
  apply IH. by apply wf_exec.
Qed.

Lemma reachable_wf m : reachable m -> wf m.
Proof. intros (s & actions & ->). apply wf_run, wf_new_manager. Qed.

Lemma settled_ext m m' r : heap m' = heap m -> settled m r -> settled m' r.
Proof. intros Hh (rcd & Hl & Ht). exists rcd. by rewrite Hh. Qed.

(** Mutating another object, or this one without leaving the terminal
    statuses, keeps it settled. *)
Lemma settled_mutate m r r' f :
  settled m r ->
  (r' = r -> forall rcd, heap m !! r = Some rcd -> is_terminal (status rcd) = true ->
             is_terminal (status (f rcd)) = true) ->
  settled (mutate m r' f) r.
Proof.
  intros (rcd & Hl & Ht) Hf. unfold settled. cbn [mutate with_heap heap].
  destruct (decide (r' = r)) as [->|Hne].
  - exists (f rcd). rewrite lookup_alter_eq, Hl. split; [reflexivity|]. by apply Hf.
  - exists rcd. by rewrite lookup_alter_ne.
Qed.

Lemma settled_not_processing m r : settled m r -> status_of m r <> Some processing.
Proof.
  intros (rcd & Hl & Ht). unfold status_of. rewrite Hl. simpl.
  intros [= Hs]. rewrite Hs in Ht. discriminate.
Qed.

(** Once a record object is in a terminal status, no step of a well-formed
    manager takes it out of the terminal statuses. *)
Lemma settled_exec m a r : wf m -> settled m r -> settled (exec m a) r.
Proof.
  intros Hwf Hs. destruct a; simpl.
  - (* submit_job *)
    unfold submit_job. destruct (persist upload); [assumption|].
    cbn -[path_name path_join truthy_str].
    change (queue_full _) with (queue_full m).
    destruct Hs as (rcd & Hl & Ht).
    assert (next_ref m <> r).
    { intros <-. assert (next_ref m < next_ref m)%nat by (apply (wf_heap m Hwf); eauto). lia. }
    destruct (queue_full m); exists rcd; cbn [fst heap with_putters with_queue];
      by rewrite lookup_insert_ne.
  - (* resume_put *)
    unfold resume_put. destruct (putters m); [assumption|].
    destruct (queue_full m); [assumption|]. by apply (settled_ext m).
  - (* cancel_job *)
    unfold cancel_job. destruct (records m !! id) as [r'|]; [|assumption].
    destruct (heap m !! r') as [rcd'|] eqn:Hl'; [|assumption].
    destruct (is_terminal (status rcd')) eqn:Ht'; [assumption|].
    apply settled_mutate; [assumption|]. intros; reflexivity.
  - (* purge_expired_jobs *)
    unfold purge_expired_jobs.
    destruct (purge_fold_fields m
                (List.filter
                   (expired m (now - job_retention_minutes (settings m) * 60000000))
                   (map_to_list (records m)))) as (_ & _ & _ & Hh & _).
    by apply (settled_ext m).
  - (* worker_get *)
    unfold worker_get. destruct (shutdown m); [assumption|].
    destruct (current m); [assumption|].
    destruct (queue m) as [|item rest] eqn:Hq; [assumption|].
    cbn [heap with_queue].
    destruct (heap m !! wi_record item) as [rcd'|] eqn:Hl'; [|by apply (settled_ext m)].
    destruct (bool_decide (status rcd' = cancelled)) eqn:Hcan; [by apply (settled_ext m)|].
    apply (settled_ext (mutate m (wi_record item)
             (fun record => set_transcode_started_at
                (set_updated_at (set_status record processing) now) (Some started))));
      [reflexivity|].
    apply settled_mutate; [assumption|]. intros Heq rcd Hl Ht. exfalso.
    (* the head of the queue is waiting, hence queued or cancelled *)
    destruct (wf_pending m Hwf (wi_record item)) as (x & Hx & Hst).
    { unfold pending. rewrite Hq. simpl. by left. }
    rewrite Hl' in Hx. injection Hx as <-.
    rewrite Heq, Hl in Hl'. injection Hl' as ->.
    apply bool_decide_eq_false in Hcan.
    destruct Hst as [Hst|Hst]; [rewrite Hst in Ht; discriminate|contradiction].
  - (* engine_step *)
    unfold engine_step. destruct (current m); [|assumption].
    apply settled_mutate; [assumption|]. intros _ rcd _ Ht. by rewrite apply_op_status.
  - (* worker_finish *)
    unfold worker_finish. destruct (current m) as [item|]; [|assumption].
    set (mark := match outcome with
                 | inr res => mark_completed res t1 t2
                 | inl exc => mark_failed exc t1 t2
                 end).
    assert (Hm : settled (mutate m (wi_record item) mark) r).
    { apply settled_mutate; [assumption|]. intros _ rcd _ _. subst mark.
      destruct outcome; [by rewrite mark_failed_status|reflexivity]. }
    destruct outcome as [exc|res]; cbn zeta beta iota; fold mark;
      (destruct (heap (mutate m (wi_record item) mark) !! wi_record item) as [rcd|];
       [|by apply (settled_ext (mutate m (wi_record item) mark))]);
      unfold _fire_callback; destruct (negb _);
      by apply (settled_ext (mutate m (wi_record item) mark)).
  - (* stop *)
    by apply (settled_ext m).
Qed.

Lemma settled_run m actions r :
  wf m -> settled m r -> settled (run m actions) r.
Proof.
  revert m. induction actions as [|a actions IH]; intros m Hwf Hs; simpl; [assumption|].
  apply IH; [by apply wf_exec|by apply settled_exec].
Qed.

(** C7. In a state the manager can reach, cancelling a job that is [queued]
    succeeds and sets it to [cancelled]; from then on no run ever shows that
    record as [processing], and the worker that takes it off the queue drops
    it without touching it.  Cancelling an unknown job, or one whose status is
    [completed], [failed] or [cancelled], returns false and leaves the whole
    manager, hence every field of the record, as it was. *)
Theorem cancel_job_semantics :
  (forall m id now r rcd,
     reachable m ->
     records m !! id = Some r -> heap m !! r = Some rcd -> status rcd = queued ->
     (cancel_job m id now).2 = true /\
     status_of (cancel_job m id now).1 r = Some cancelled /\
     forall actions,
       status_of (run (cancel_job m id now).1 actions) r <> Some processing) /\
  (forall m item rest rcd now started,
     shutdown m = false -> current m = None -> queue m = item :: rest ->
     heap m !! wi_record item = Some rcd -> status rcd = cancelled ->
     worker_get m now started = with_queue m rest) /\
  (forall m id now,
     (records m !! id = None \/
      exists r rcd, records m !! id = Some r /\ heap m !! r = Some rcd /\
                    status rcd ∈ [completed; failed; cancelled]) ->
     cancel_job m id now = (m, false)).
Proof.
  split; [|split].
  - intros m id now r rcd Hreach Hid Hl Hst.
    pose proof (reachable_wf m Hreach) as Hwf.
    pose proof (wf_cancel_job m id now Hwf) as Hwf'.
    assert (Hcancel : cancel_job m id now =
                      (mutate m r (fun record =>
                         set_updated_at (set_status record cancelled) now), true)).
    { unfold cancel_job. rewrite Hid, Hl, Hst. reflexivity. }
    rewrite Hcancel in *. cbn [fst snd] in *.
    assert (Hs : settled (mutate m r (fun record =>
                   set_updated_at (set_status record cancelled) now)) r).
    { eexists. cbn [mutate with_heap heap]. rewrite lookup_alter_eq, Hl.
      split; reflexivity. }
    split; [reflexivity|]. split.
    + unfold status_of. cbn [mutate with_heap heap]. by rewrite lookup_alter_eq, Hl.
    + intros actions. apply settled_not_processing. by apply settled_run.
  - intros m item rest rcd now started Hsh Hc Hq Hl Hst.
    unfold worker_get. rewrite Hsh, Hc, Hq. cbn [heap with_queue]. rewrite Hl.
    rewrite (bool_decide_eq_true_2 _ Hst). reflexivity.
  - intros m id now [Hnone|(r & rcd & Hid & Hl & Hst)]; unfold cancel_job.
    + by rewrite Hnone.
    + rewrite Hid, Hl. unfold is_terminal. by rewrite (bool_decide_eq_true_2 _ Hst).
Qed.

Lemma cancel_job_semantics_witness :
  (cancel_job cancel_witness_state "job-1" 5).2 = true /\
  status_of (cancel_job cancel_witness_state "job-1" 5).1 0%nat = Some cancelled /\
  status_of (run (cancel_job cancel_witness_state "job-1" 5).1
                 [a_worker_get 6 7;
                  a_worker_finish (inl (RuntimeError "ffmpeg transcode failed")) 8 9])
            0%nat <> Some processing.
Proof.
  destruct (proj1 cancel_job_semantics cancel_witness_state "job-1" 5 0%nat
              {| job_id := "job-1"; status := queued; created_at := 0;
                 updated_at := 0; source_path := "/data/input/job-1_a.mp4";
                 source_filename := "a.mp4"; output_path := None;
                 quality := q_auto; codec := c_auto;
                 callback_url := Some hook_url; error := None;
                 download_started_at := Some 1; download_finished_at := Some 2;
                 transcode_started_at := None; transcode_finished_at := None;
                 media_duration_seconds := None;
                 transcode_media_seconds := None |})
    as (Hok & Hst & Hnever).
  - exists default_settings, [a_submit upload_a hook_request "job-1" 0 1 2].
    reflexivity.
  - vm_compute. reflexivity.
  - vm_compute. reflexivity.
  - reflexivity.
  - split; [exact Hok|]. split; [exact Hst|]. apply Hnever.
Defined.

(** ** The engine's writes, one at a time *)

Lemma apply_ops_app rcd ops1 ops2 :
  apply_ops rcd (ops1 ++ ops2) = apply_ops (apply_ops rcd ops1) ops2.
Proof. apply foldl_app. Qed.

Lemma _run_ffmpeg_progress w cmd action duration rcd :
  (_run_ffmpeg w cmd action
     (Some (fun seconds now r => _update_progress r seconds duration now)) rcd).1
  = apply_ops rcd
      (progress_ops duration (proc_stdout (popen w (wrapped_cmd cmd)))).
Proof.
  unfold _run_ffmpeg. set (stdout := proc_stdout _).
  assert (H : forall r,
             foldl (fun r (entry : StdoutLine * datetime) =>
                      match entry.1 with
                      | out_time_ms (Some microseconds) =>
                          _update_progress r (Qmake microseconds 1000000) duration entry.2
                      | _ => r
                      end) r stdout
             = apply_ops r (progress_ops duration stdout)).
  { clearbody stdout. induction stdout as [|[line now] stdout IH]; intros r; [reflexivity|].
    simpl. rewrite IH. destruct line as [[us|]|]; reflexivity. }
  destruct (negb _); simpl; apply H.
Qed.

Lemma _run_ffmpeg_silent w cmd action rcd :
  (_run_ffmpeg w cmd action None rcd).1 = rcd.
Proof.
  unfold _run_ffmpeg. set (stdout := proc_stdout _).
  assert (H : forall r : JobRecord,
             foldl (fun r (entry : StdoutLine * datetime) => r) r stdout = r).
  { clearbody stdout. induction stdout as [|e stdout IH]; intros r; [reflexivity|].
    simpl. apply IH. }
  destruct (negb _); simpl; apply H.
Qed.

Lemma rkmpp_loop_ops w base_cmd encoder_name profile dest_path candidates :
  forall last_error rcd,
  exists ops,
    (rkmpp_loop w base_cmd encoder_name profile dest_path candidates last_error rcd).1
    = apply_ops rcd ops.
Proof.
  induction candidates as [|[label filter_expr] rest IH]; intros last_error rcd.
  - exists []. simpl. destruct last_error; reflexivity.
  - simpl.
    pose proof (_run_ffmpeg_progress w
                  (rkmpp_cmd base_cmd filter_expr encoder_name profile dest_path)
                  ("transcode-rkmpp-" ++ label) (duration_or_zero rcd) rcd) as Hrun.
    destruct (_run_ffmpeg _ _ _ _ rcd) as [rcd1 [e|u]]; simpl in Hrun.
    + destruct e as [msg| | |]; try (eexists; exact Hrun).
      destruct (IH (Some (RuntimeError msg)) rcd1) as [ops Hops].
      eexists. rewrite Hops, Hrun, <- apply_ops_app. reflexivity.
    + eexists. exact Hrun.
Qed.

(** Whatever [_process_sync] does to the record is a sequence of the engine's
    elementary writes. *)
Lemma _process_sync_ops self w rcd request :
  exists ops, (_process_sync self w rcd request).1 = apply_ops rcd ops.
Proof.
  unfold _process_sync.
  destruct (_probe w (source_path rcd)) as [e|info]; [by exists []|].
  destruct (_select_profile info request) as [e|profile]; [by exists []|].
  set (rcd1 := set_media_duration_seconds rcd (i_duration info)).
  set (target := _resolve_codec info profile request).
  set (work := path_join _ _). set (out := path_join _ _).
  assert (Hrun : exists ops,
            (if _should_remux info profile target
             then let '(record, ran) := _remux self w (source_path rcd) work rcd1 in
                  (record, ran, true)
             else let '(use_hw, decoder, encoder) :=
                    _select_rkmpp_codecs self info target in
                  let '(record, ran) :=
                    if use_hw
                    then _transcode_rkmpp self w rcd1 (source_path rcd) work profile
                                          decoder encoder
                    else _transcode_cpu self w rcd1 (source_path rcd) work profile
                                        target in
                  (record, ran, false)).1.1 = apply_ops rcd1 ops).
  { destruct (_should_remux info profile target).
    - exists []. unfold _remux.
      pose proof (_run_ffmpeg_silent w
        [ffmpeg_command (e_settings self); "-hide_banner"; "-loglevel"; "error";
         "-y"; "-i"; source_path rcd; "-c"; "copy"; "-movflags"; "+faststart"; work]
        "remux" rcd1) as H.
      destruct (_run_ffmpeg _ _ _ _ _). exact H.
    - destruct (_select_rkmpp_codecs self info target) as [[use_hw decoder] encoder].
      destruct use_hw.
      + unfold _transcode_rkmpp.
        destruct (rkmpp_loop_ops w (rkmpp_base_cmd self (source_path rcd) decoder)
                    encoder profile work (rkmpp_filter_candidates w) None rcd1)
          as [ops Hops].
        exists ops. destruct (rkmpp_loop _ _ _ _ _ _ _ _). exact Hops.
      + unfold _transcode_cpu. eexists.
        pose proof (_run_ffmpeg_progress w
          (cpu_cmd self (source_path rcd) work profile target) "transcode"
          (duration_or_zero rcd1) rcd1) as H.
        destruct (_run_ffmpeg _ _ _ _ _). exact H. }
  destruct Hrun as [ops Hops].
  match goal with
  | |- context [match ?c with _ => _ end] =>
      match type of c with
      | (JobRecord * result unit * bool)%type => destruct c as [[rcd2 ran] remuxed]
      end
  end.
  simpl in Hops. subst rcd2.
  destruct ran as [e|u].
  - exists (op_set_duration (i_duration info) :: ops). reflexivity.
  - destruct (shutil_move w work out) as [e|u'].
    + exists (op_set_duration (i_duration info) :: ops). reflexivity.
    + exists (op_set_duration (i_duration info) :: ops ++ [op_finalize])%list.
      cbn [fst]. change (apply_ops rcd (?o :: ?l)) with (apply_ops (apply_op o rcd) l).
      rewrite apply_ops_app. reflexivity.
Qed.

Lemma with_heap_same m : with_heap m (heap m) = m.
Proof. destruct m; reflexivity. Qed.

(** A sequence of engine writes on the record the worker is processing. *)
Lemma run_engine_ops ops : forall m item,
  current m = Some item ->
  run m (map a_engine ops) = mutate m (wi_record item) (fun r => apply_ops r ops).
Proof.
  induction ops as [|op ops IH]; intros m item Hc.
  - simpl. unfold mutate. rewrite alter_id; [by rewrite with_heap_same|reflexivity].
  - simpl. unfold engine_step at 1. rewrite Hc.
    rewrite (IH _ item) by exact Hc.
    unfold mutate. cbn [heap with_heap]. destruct m; cbn.
    f_equal. rewrite alter_alter_eq. reflexivity.
Qed.

(** Processing a job in one go is one of the runs of the manager. *)
Lemma worker_process_run m self w t1 t2 :
  exists actions, worker_process m self w t1 t2 = run m actions.
Proof.
  unfold worker_process.
  destruct (current m) as [item|] eqn:Hc; [|by exists []].
  destruct (heap m !! wi_record item) as [rcd|] eqn:Hl; [|by exists []].
  destruct (_process_sync_ops self w rcd (wi_request item)) as [ops Hops].
  destruct (_process_sync self w rcd (wi_request item)) as [rcd' outcome].
  simpl in Hops.
  exists (map a_engine ops ++ [a_worker_finish outcome t1 t2])%list.
  unfold run. rewrite foldl_app. fold (run m (map a_engine ops)).
  rewrite (run_engine_ops ops m item Hc). simpl. f_equal.
  unfold mutate. f_equal. apply alter_ext. intros x Hx.
  rewrite Hl in Hx. injection Hx as <-. exact Hops.
Qed.

Lemma reachable_run m actions : reachable m -> reachable (run m actions).
Proof.
  intros (s & acts & ->). exists s, (acts ++ actions)%list.
  unfold run. by rewrite foldl_app.
Qed.

Lemma reachable_worker_process m self w t1 t2 :
  reachable m -> reachable (worker_process m self w t1 t2).
Proof.
  intros Hm. destruct (worker_process_run m self w t1 t2) as [actions ->].
  by apply reachable_run.
Qed.

(** * Further properties of the code *)

(** ** Profiles and codecs *)

(** Whatever is asked, the answer is a profile of the table. *)
Lemma choose_profile_in_table w h q p :
  choose_profile w h q = Some p -> p ∈ PROFILES_values.
Proof.
  unfold choose_profile. destruct q; simpl negb; cbv iota.
  - rewrite sorted_profiles_eq.
    destruct (first_fitting w h PROFILES_values) as [p'|] eqn:E.
    + intros [= <-]. destruct (first_fitting_Some _ _ _ _ E) as (b & a & -> & _).
      apply elem_of_app. right. by left.
    + simpl. intros [= <-]. unfold PROFILES_values. simpl. set_solver.
  - simpl. intros [= <-]. unfold PROFILES_values. simpl. set_solver.
  - simpl. intros [= <-]. unfold PROFILES_values. simpl. set_solver.
  - simpl. intros [= <-]. unfold PROFILES_values. simpl. set_solver.
  - simpl. intros [= <-]. unfold PROFILES_values. simpl. set_solver.
Qed.

(** An explicit request is answered by the table entry of that name. *)
Lemma choose_profile_by_name q :
  q <> q_auto ->
  exists p, (forall w' h', choose_profile w' h' q = Some p) /\ p_name p = q.
Proof.
  intros Hq. unfold choose_profile. rewrite (bool_decide_eq_false_2 _ Hq).
  destruct q; [contradiction|..]; simpl; eexists; split; reflexivity.
Qed.

(** X1. A request for an explicit quality returns the profile of that name,
    whatever the dimensions of the source. *)
Theorem choose_profile_requested (w h : Z) (q : QualityTarget) :
  q <> q_auto ->
  exists p,
    choose_profile w h q = Some p /\ p_name p = q /\ p ∈ PROFILES_values /\
    forall w' h', choose_profile w' h' q = Some p.
Proof.
  intros Hq. destruct (choose_profile_by_name q Hq) as (p & Hp & Hn).
  exists p. split; [apply Hp|]. split; [assumption|].
  split; [exact (choose_profile_in_table w h q p (Hp w h))|assumption].
Qed.

Lemma choose_profile_requested_witness :
  exists p,
    choose_profile 426 240 fhd_1080p = Some p /\ p_name p = fhd_1080p /\
    p ∈ PROFILES_values /\
    forall w' h', choose_profile w' h' fhd_1080p = Some p.
Proof. apply (choose_profile_requested 426 240 fhd_1080p). discriminate. Defined.

(** X2. In [auto] mode a source that is at least as wide and at least as
    high gets a profile that is at least as large. *)
Theorem choose_profile_auto_monotone (w1 h1 w2 h2 : Z) :
  w1 <= w2 -> h1 <= h2 ->
  exists p1 p2,
    choose_profile w1 h1 q_auto = Some p1 /\
    choose_profile w2 h2 q_auto = Some p2 /\
    p_height p1 <= p_height p2 /\ p_width p1 <= p_width p2.
Proof.
  intros Hw Hh. unfold choose_profile. simpl negb. cbv iota.
  rewrite sorted_profiles_eq. unfold PROFILES_values, PROFILES. simpl.
  repeat match goal with
         | |- context [?a >=? ?b] => destruct (Z.geb_spec a b); simpl
         end;
    try lia; do 2 eexists; (split; [reflexivity|]); (split; [reflexivity|]);
    simpl; lia.
Qed.

Lemma choose_profile_auto_monotone_witness :
  exists p1 p2,
    choose_profile 1280 720 q_auto = Some p1 /\
    choose_profile 3840 2160 q_auto = Some p2 /\
    p_height p1 <= p_height p2 /\ p_width p1 <= p_width p2.
Proof. apply (choose_profile_auto_monotone 1280 720 3840 2160); lia. Defined.

(** X3. [_select_profile] raises [RuntimeError] exactly for a source without
    a video stream or with an unknown (absent or zero) width or height; for
    every other source it returns one of the four profiles, the requested
    one when the request is explicit.  It never raises [KeyError]. *)
Theorem _select_profile_outcome (info : MediaInfo) (request : JobRequest) :
  (resolution_unknown (i_video info) = true ->
     _select_profile info request
       = inl (RuntimeError "Unable to determine source resolution")) /\
  (resolution_unknown (i_video info) = false ->
     exists p,
       _select_profile info request = inr p /\ p ∈ PROFILES_values /\
       (rq_quality request <> q_auto -> p_name p = rq_quality request)).
Proof.
  unfold _select_profile. destruct (i_video info) as [v|]; split; intros Hres;
    try reflexivity; try discriminate; rewrite Hres; [reflexivity|].
  destruct (choose_profile_total (default 0 (s_width v)) (default 0 (s_height v))
              (rq_quality request)) as [p Hp].
  rewrite Hp. exists p. split; [reflexivity|].
  split; [exact (choose_profile_in_table _ _ _ _ Hp)|].
  intros Ha. destruct (choose_profile_by_name _ Ha) as (p' & Hp' & Hn).
  rewrite Hp' in Hp. injection Hp as <-. assumption.
Qed.

(** X4. The target codec is resolved by precedence: an explicit request wins;
    otherwise the codec of the source when it is h264 or h265; otherwise the
    default of the profile (h264 should the profile have none).  The result is
    never [auto]. *)
Theorem _resolve_codec_precedence (info : MediaInfo) (profile : QualityProfile)
    (request : JobRequest) :
  (rq_codec request <> c_auto ->
     _resolve_codec info profile request = rq_codec request) /\
  (forall c, rq_codec request = c_auto -> source_codec info = Some c ->
     _resolve_codec info profile request = c) /\
  (rq_codec request = c_auto -> source_codec info = None ->
     _resolve_codec info profile request
       = if decide (p_codec profile = c_auto) then h264 else p_codec profile) /\
  _resolve_codec info profile request <> c_auto.
Proof.
  split; [|split; [|split]].
  - intros H. unfold _resolve_codec. by rewrite (bool_decide_eq_false_2 _ H).
  - intros c H Hc. unfold _resolve_codec, source_codec in *. rewrite H, Hc. simpl.
    pose proof (_map_codec_name_not_auto
                  (match i_video info with Some v => s_codec_name v | None => None end)).
    destruct c; [congruence|reflexivity|reflexivity].
  - intros H Hc. unfold _resolve_codec, source_codec in *. rewrite H, Hc. simpl.
    destruct (decide (p_codec profile = c_auto)) as [Hp|Hp].
    + by rewrite (bool_decide_eq_true_2 _ Hp).
    + by rewrite (bool_decide_eq_false_2 _ Hp).
  - apply _resolve_codec_not_auto.
Qed.

(** X5. With the codec left to [auto] and a source already in h264 or h265,
    the source codec is kept, and the remux decision comes down to the
    container and the dimensions: such a source is copied exactly when it is
    in an MP4-family container and fits the profile. *)
Theorem remux_of_supported_source (info : MediaInfo) (profile : QualityProfile)
    (request : JobRequest) (c : CodecPreference) :
  rq_codec request = c_auto ->
  source_codec info = Some c ->
  resolution_unknown (i_video info) = false ->
  _resolve_codec info profile request = c /\
  (_should_remux info profile (_resolve_codec info profile request) = true <->
   is_mp4_container info = true /\
   source_width info <= p_width profile /\
   source_height info <= p_height profile).
Proof.
  intros Hreq Hc Hres.
  assert (Htarget : _resolve_codec info profile request = c).
  { unfold _resolve_codec, source_codec in *. rewrite Hreq, Hc. simpl.
    pose proof (_map_codec_name_not_auto
                  (match i_video info with Some v => s_codec_name v | None => None end)).
    destruct c; [congruence|reflexivity|reflexivity]. }
  split; [assumption|]. rewrite Htarget.
  assert (Hna : c <> c_auto).
  { intros ->. unfold source_codec in Hc. by apply _map_codec_name_not_auto in Hc. }
  unfold _should_remux, source_codec, source_width, source_height in *.
  destruct (i_video info) as [v|]; [|discriminate Hres].
  rewrite Hres, Hc. rewrite (bool_decide_eq_false_2 _ Hna).
  rewrite bool_decide_eq_true_2 by reflexivity. simpl.
  destruct (is_mp4_container info); simpl; [|split; [discriminate|intros [? _]; discriminate]].
  destruct (Z.gtb_spec (default 0 (s_width v)) (p_width profile)); simpl;
    [split; [discriminate|intros (_ & ? & _); lia]|].
  destruct (Z.gtb_spec (default 0 (s_height v)) (p_height profile)); simpl;
    [split; [discriminate|intros (_ & _ & ?); lia]|].
  split; [intros _; repeat split; lia|reflexivity].
Qed.

Lemma remux_of_supported_source_witness :
  _resolve_codec uhd_h264_mp4 hd_profile auto_request = h264 /\
  (_should_remux uhd_h264_mp4 hd_profile
                 (_resolve_codec uhd_h264_mp4 hd_profile auto_request) = true <->
   is_mp4_container uhd_h264_mp4 = true /\
   source_width uhd_h264_mp4 <= p_width hd_profile /\
   source_height uhd_h264_mp4 <= p_height hd_profile).
Proof.
  apply (remux_of_supported_source uhd_h264_mp4 hd_profile auto_request h264);
    reflexivity.
Defined.

Lemma lower_ascii_idem c : lower_ascii (lower_ascii c) = lower_ascii c.
Proof. destruct c as [[] [] [] [] [] [] [] []]; reflexivity. Qed.

Lemma lower_idem s : lower (lower s) = lower s.
Proof. induction s as [|c s IH]; simpl; [reflexivity|]. by rewrite lower_ascii_idem, IH. Qed.

Lemma lower_empty s : lower s = "" <-> s = "".
Proof. destruct s; simpl; split; congruence. Qed.

(** X6. Codec names are matched without regard to case: two names that
    differ only in the case of their letters are mapped to the same codec and
    to the same hardware decoder. *)
Theorem codec_names_case_insensitive (s t : string) :
  lower s = lower t ->
  _map_codec_name (Some s) = _map_codec_name (Some t) /\
  _rkmpp_decoder_name s = _rkmpp_decoder_name t.
Proof.
  intros H. split.
  - destruct (decide (s = "")) as [Hs|Hs].
    + assert (Ht : t = "").
      { apply lower_empty. rewrite <- H, Hs. reflexivity. }
      by rewrite Hs, Ht.
    + assert (Ht : t <> "").
      { intros Ht. apply Hs, lower_empty. rewrite H, Ht. reflexivity. }
      unfold _map_codec_name. simpl.
      by rewrite (bool_decide_eq_false_2 _ Hs), (bool_decide_eq_false_2 _ Ht), H.
  - unfold _rkmpp_decoder_name. by rewrite H.
Qed.

Lemma codec_names_case_insensitive_witness :
  _map_codec_name (Some "HEVC") = _map_codec_name (Some "hevc") /\
  _rkmpp_decoder_name "HEVC" = _rkmpp_decoder_name "hevc".
Proof. apply (codec_names_case_insensitive "HEVC" "hevc"). reflexivity. Defined.

Ltac closed_cases :=
  repeat split; intros;
  repeat match goal with H : _ /\ _ |- _ => destruct H end;
  try discriminate; try congruence; try tauto.

(** X7. The hardware decoder table agrees with the codec mapping, with one
    gap: a name has the H.264 decoder exactly when it is mapped to h264, and
    it has the HEVC decoder exactly when it is mapped to h265 and is not
    [hvc1], which is recognised as h265 but has no hardware decoder. *)
Theorem rkmpp_decoder_matches_codec (name : string) :
  (_rkmpp_decoder_name name = Some "h264_rkmpp" <->
   _map_codec_name (Some name) = Some h264) /\
  (_rkmpp_decoder_name name = Some "hevc_rkmpp" <->
   _map_codec_name (Some name) = Some h265 /\ lower name <> "hvc1").
Proof.
  destruct (decide (name = "")) as [->|Hn].
  { vm_compute. closed_cases. }
  unfold _rkmpp_decoder_name, _map_codec_name. simpl.
  rewrite (bool_decide_eq_false_2 _ Hn). simpl.
  generalize (lower name) as l. clear name Hn. intros l.
  destruct (decide (l = "h264")) as [->|N1];
    [vm_compute; closed_cases|].
  destruct (decide (l = "avc1")) as [->|N2];
    [vm_compute; closed_cases|].
  destruct (decide (l = "avc")) as [->|N3];
    [vm_compute; closed_cases|].
  destruct (decide (l = "h265")) as [->|N4];
    [vm_compute; closed_cases|].
  destruct (decide (l = "hevc")) as [->|N5];
    [vm_compute; closed_cases|].
  destruct (decide (l = "hvc1")) as [->|N6];
    [vm_compute; closed_cases|].
  assert (M1 : l ∉ ["h264"; "avc1"; "avc"]).
  { intros H. repeat (apply elem_of_cons in H as [H|H]; [congruence|]).
    by apply elem_of_nil in H. }
  assert (M2 : l ∉ ["h265"; "hevc"; "hvc1"]).
  { intros H. repeat (apply elem_of_cons in H as [H|H]; [congruence|]).
    by apply elem_of_nil in H. }
  rewrite (bool_decide_eq_false_2 _ M1), (bool_decide_eq_false_2 _ M2).
  repeat match goal with
         | |- context [bool_decide (?k = l)] =>
             destruct (bool_decide_reflect (k = l)); [subst l|]; simpl
         end;
    closed_cases.
Qed.

Lemma _rkmpp_decoder_name_values name d :
  _rkmpp_decoder_name name = Some d ->
  d ∈ ["av1_rkmpp"; "vp9_rkmpp"; "vp8_rkmpp"; "h264_rkmpp"; "hevc_rkmpp"].
Proof.
  unfold _rkmpp_decoder_name. generalize (lower name) as l. intros l. simpl.
  repeat match goal with
         | |- context [bool_decide (?k = l)] =>
             destruct (bool_decide (k = l)); simpl
         end; intros [= <-]; set_solver.
Qed.

Lemma _rkmpp_decoder_name_lower name d :
  _rkmpp_decoder_name name = Some d -> lower d = d /\ d <> "".
Proof.
  intros H. apply _rkmpp_decoder_name_values in H.
  repeat (apply elem_of_cons in H as [->|H]; [split; [reflexivity|discriminate]|]).
  by apply elem_of_nil in H.
Qed.

(** X8. Hardware is chosen exactly when the RKMPP encoder of the target
    codec is among the encoders ffmpeg listed, and then that encoder is the
    one returned; a hardware decoder is returned only if it is the decoder of
    the source's codec and is among the listed decoders.  A missing decoder
    does not prevent hardware encoding. *)
Theorem select_rkmpp_codecs_available (self : TranscodeEngine) (info : MediaInfo)
    (target : CodecPreference) :
  let wanted := if decide (target = h265) then "hevc_rkmpp" else "h264_rkmpp" in
  let '(use_hw, decoder, encoder) := _select_rkmpp_codecs self info target in
  (use_hw = true <-> wanted ∈ ffmpeg_encoders self) /\
  encoder = (if use_hw then wanted else "") /\
  (decoder <> "" ->
     decoder ∈ ffmpeg_decoders self /\
     exists v name, i_video info = Some v /\ s_codec_name v = Some name /\
                    _rkmpp_decoder_name name = Some decoder).
Proof.
  unfold _select_rkmpp_codecs, _rkmpp_encoder_name.
  set (dec := match i_video info with Some v => _ | None => None end).
  assert (Hdec : forall d, dec = Some d -> d <> "" ->
            d ∈ ffmpeg_decoders self /\
            exists v name, i_video info = Some v /\ s_codec_name v = Some name /\
                           _rkmpp_decoder_name name = Some d).
  { subst dec. intros d. destruct (i_video info) as [v|]; [|discriminate].
    destruct (s_codec_name v) as [name|] eqn:Hname; simpl; [|discriminate].
    destruct (bool_decide (name = "")); simpl; [discriminate|].
    destruct (_rkmpp_decoder_name name) as [d'|] eqn:Hd; simpl; [|discriminate].
    destruct (_rkmpp_decoder_name_lower _ _ Hd) as [Hl Hne].
    rewrite (bool_decide_eq_false_2 _ Hne), Hl. simpl.
    destruct (bool_decide_reflect (d' ∈ ffmpeg_decoders self)); simpl; [|discriminate].
    intros [= <-] _. split; [assumption|]. eauto. }
  assert (Hout : (if truthy_str dec then default "" dec else "") <> "" ->
                 exists d, dec = Some d /\ d = (if truthy_str dec then default "" dec else "")
                           /\ d <> "").
  { destruct dec as [d|]; simpl; [|congruence].
    destruct (bool_decide (d = "")); simpl; [congruence|]. eauto. }
  destruct (decide (target = h265)) as [->|Ht].
  - assert (L : lower "hevc_rkmpp" = "hevc_rkmpp") by reflexivity.
    simpl in L |- *. rewrite !L.
    destruct (bool_decide_reflect ("hevc_rkmpp" ∈ ffmpeg_encoders self));
      simpl; (split; [split; [done|done]|]); (split; [reflexivity|]);
      intros Hd; destruct (Hout Hd) as (d & Hd1 & <- & Hd3); by apply Hdec.
  - rewrite (bool_decide_eq_false_2 _ Ht).
    assert (L : lower "h264_rkmpp" = "h264_rkmpp") by reflexivity.
    simpl in L |- *. rewrite !L.
    destruct (bool_decide_reflect ("h264_rkmpp" ∈ ffmpeg_encoders self));
      simpl; (split; [split; [done|done]|]); (split; [reflexivity|]);
      intros Hd; destruct (Hout Hd) as (d & Hd1 & <- & Hd3); by apply Hdec.
Qed.

(** ** Running ffmpeg *)

(** X9. The hardware path tries its filter candidates in order: it succeeds
    as soon as one ffmpeg run exits with code 0; when every run fails, the
    error raised is that of the last candidate, the software [format]
    filter.  The fallback error [rk transcode failed] is never raised. *)
Theorem rkmpp_fallback_chain (self : TranscodeEngine) (w : World) (rcd : JobRecord)
    (source_path dest_path : string) (profile : QualityProfile)
    (decoder_name encoder_name : string) :
  let code :=
    rkmpp_returncode self w source_path dest_path profile decoder_name encoder_name in
  let outcome :=
    (_transcode_rkmpp self w rcd source_path dest_path profile decoder_name
                      encoder_name).2 in
  ((exists c, c ∈ rkmpp_filter_candidates w /\ code c.2 = 0) -> outcome = inr tt) /\
  ((forall c, c ∈ rkmpp_filter_candidates w -> code c.2 <> 0) ->
     outcome = inl (RuntimeError "ffmpeg transcode-rkmpp-format failed")) /\
  outcome <> inl (RuntimeError "rk transcode failed").
Proof.
  cbv zeta. unfold _transcode_rkmpp, rkmpp_returncode.
  assert (Hok : (exists c, c ∈ rkmpp_filter_candidates w /\
                   proc_returncode
                     (popen w (wrapped_cmd
                        (rkmpp_cmd (rkmpp_base_cmd self source_path decoder_name) c.2
                                   encoder_name profile dest_path))) = 0) ->
                (rkmpp_loop w (rkmpp_base_cmd self source_path decoder_name)
                   encoder_name profile dest_path (rkmpp_filter_candidates w) None rcd).2
                = inr tt) by apply rkmpp_loop_success.
  assert (Hko : (forall c, c ∈ rkmpp_filter_candidates w ->
                   proc_returncode
                     (popen w (wrapped_cmd
                        (rkmpp_cmd (rkmpp_base_cmd self source_path decoder_name) c.2
                                   encoder_name profile dest_path))) <> 0) ->
                (rkmpp_loop w (rkmpp_base_cmd self source_path decoder_name)
                   encoder_name profile dest_path (rkmpp_filter_candidates w) None rcd).2
                = inl (RuntimeError "ffmpeg transcode-rkmpp-format failed")).
  { intros H. rewrite rkmpp_loop_failure by assumption.
    unfold rkmpp_filter_candidates. destruct (rga_exists w); reflexivity. }
  split; [assumption|]. split; [assumption|].
  destruct (decide (Exists (fun c : string * string =>
              proc_returncode
                (popen w (wrapped_cmd
                   (rkmpp_cmd (rkmpp_base_cmd self source_path decoder_name) c.2
                              encoder_name profile dest_path))) = 0)
              (rkmpp_filter_candidates w))) as [Hex|Hnex].
  - rewrite Hok; [discriminate|]. apply Exists_exists in Hex. exact Hex.
  - rewrite Hko; [discriminate|]. intros c Hc Hz. apply Hnex.
    apply Exists_exists. eauto.
Qed.

Lemma rkmpp_fallback_chain_witness :
  (_transcode_rkmpp software_engine (scripted_world [] 1) started_record
     "/data/input/job_a.mkv" "/data/work/job.mp4" hd_profile "" "h264_rkmpp").2
  = inl (RuntimeError "ffmpeg transcode-rkmpp-format failed").
Proof.
  apply (proj1 (proj2 (rkmpp_fallback_chain software_engine (scripted_world [] 1)
                         started_record "/data/input/job_a.mkv" "/data/work/job.mp4"
                         hd_profile "" "h264_rkmpp"))).
  intros c _. vm_compute. discriminate.
Defined.

Lemma progress_ops_reported duration stdout :
  progress_ops duration stdout =
    map (fun r : Z * datetime => op_update_progress (Qmake r.1 1000000) duration r.2)
        (reported stdout).
Proof.
  unfold progress_ops, reported.
  induction stdout as [|[line now] stdout IH]; [reflexivity|].
  destruct line as [[us|]|]; cbn in *; [f_equal|..]; exact IH.
Qed.

Lemma apply_ops_last_progress rcd duration reports us now :
  last reports = Some (us, now) ->
  let rcd' :=
    apply_ops rcd
      (map (fun r : Z * datetime => op_update_progress (Qmake r.1 1000000) duration r.2)
           reports) in
  transcode_media_seconds rcd' = Some (Qmake us 1000000) /\ updated_at rcd' = now.
Proof.
  intros Hlast. cbv zeta.
  destruct (last_Some reports (us, now)) as [(before & ->) _]; [assumption|].
  rewrite map_app, apply_ops_app. simpl.
  unfold _update_progress. destruct (_ && _); split; reflexivity.
Qed.

(** X10. [_run_ffmpeg] raises exactly when ffmpeg exits with a code other
    than 0.  During a software transcode the record's processed seconds and
    [updated_at] are those of the last progress line that could be read;
    other lines, and [out_time_ms] lines [int] cannot read, change nothing. *)
Theorem transcode_cpu_progress (self : TranscodeEngine) (w : World) (rcd : JobRecord)
    (source_path dest_path : string) (profile : QualityProfile)
    (codec : CodecPreference) :
  let process :=
    popen w (wrapped_cmd (cpu_cmd self source_path dest_path profile codec)) in
  let after := _transcode_cpu self w rcd source_path dest_path profile codec in
  (after.2 = if proc_returncode process =? 0 then inr tt
             else inl (RuntimeError "ffmpeg transcode failed")) /\
  (reported (proc_stdout process) = [] -> after.1 = rcd) /\
  (forall us now, last (reported (proc_stdout process)) = Some (us, now) ->
     transcode_media_seconds after.1 = Some (Qmake us 1000000) /\
     updated_at after.1 = now).
Proof.
  cbv zeta. unfold _transcode_cpu. split; [apply _run_ffmpeg_outcome|].
  rewrite _run_ffmpeg_progress, progress_ops_reported. split.
  - intros ->. reflexivity.
  - intros us now Hlast. by apply apply_ops_last_progress.
Qed.

Lemma transcode_cpu_progress_witness :
  let after :=
    _transcode_cpu software_engine
      (scripted_world [(out_time_ms (Some 4000000), 2000000); (other_line, 2000001);
                       (out_time_ms (Some 7000000), 3000000);
                       (out_time_ms None, 3000001)] 0)
      started_record "/data/input/job_a.mkv" "/data/work/job.mp4" hd_profile h264 in
  transcode_media_seconds after.1 = Some (7000000 # 1000000)%Q /\
  updated_at after.1 = 3000000.
Proof.
  apply (proj2 (proj2 (transcode_cpu_progress software_engine
           (scripted_world [(out_time_ms (Some 4000000), 2000000); (other_line, 2000001);
                            (out_time_ms (Some 7000000), 3000000);
                            (out_time_ms None, 3000001)] 0)
           started_record "/data/input/job_a.mkv" "/data/work/job.mp4" hd_profile h264))).
  reflexivity.
Defined.

(** ** What the engine leaves alone *)

Lemma apply_op_frame op rcd :
  job_id (apply_op op rcd) = job_id rcd /\
  status (apply_op op rcd) = status rcd /\
  callback_url (apply_op op rcd) = callback_url rcd /\
  output_path (apply_op op rcd) = output_path rcd /\
  error (apply_op op rcd) = error rcd /\
  source_path (apply_op op rcd) = source_path rcd /\
  created_at (apply_op op rcd) = created_at rcd /\
  transcode_started_at (apply_op op rcd) = transcode_started_at rcd /\
  transcode_finished_at (apply_op op rcd) = transcode_finished_at rcd.
Proof.
  destruct op; simpl.
  - repeat split.
  - unfold _update_progress. destruct (_ && _); repeat split.
  - destruct (negb _); repeat split.
Qed.

Lemma apply_ops_frame ops : forall rcd,
  job_id (apply_ops rcd ops) = job_id rcd /\
  status (apply_ops rcd ops) = status rcd /\
  callback_url (apply_ops rcd ops) = callback_url rcd /\
  output_path (apply_ops rcd ops) = output_path rcd /\
  error (apply_ops rcd ops) = error rcd /\
  source_path (apply_ops rcd ops) = source_path rcd /\
  created_at (apply_ops rcd ops) = created_at rcd /\
  transcode_started_at (apply_ops rcd ops) = transcode_started_at rcd /\
  transcode_finished_at (apply_ops rcd ops) = transcode_finished_at rcd.
Proof.
  induction ops as [|op ops IH]; intros rcd; [repeat split|].
  change (apply_ops rcd (op :: ops)) with (apply_ops (apply_op op rcd) ops).
  destruct (IH (apply_op op rcd)) as (-> & -> & -> & -> & -> & -> & -> & -> & ->).
  apply apply_op_frame.
Qed.

(** X11. Whatever happens inside [_process_sync], on success as on failure,
    the engine writes only the media duration, the processed seconds and
    [updated_at]: the job's identifier, status, callback URL, output path,
    error, source path and the transcode time stamps are as before. *)
Theorem _process_sync_frame (self : TranscodeEngine) (w : World) (rcd : JobRecord)
    (request : JobRequest) :
  let after := (_process_sync self w rcd request).1 in
  job_id after = job_id rcd /\
  status after = status rcd /\
  callback_url after = callback_url rcd /\
  output_path after = output_path rcd /\
  error after = error rcd /\
  source_path after = source_path rcd /\
  created_at after = created_at rcd /\
  transcode_started_at after = transcode_started_at rcd /\
  transcode_finished_at after = transcode_finished_at rcd.
Proof.
  cbv zeta. destruct (_process_sync_ops self w rcd request) as [ops ->].
  apply apply_ops_frame.
Qed.

(** ** Outcomes of [_process_sync] *)

Lemma duration_or_zero_eq rcd :
  duration_or_zero rcd =
    if truthy_float (media_duration_seconds rcd)
    then default 0%Q (media_duration_seconds rcd) else 0%Q.
Proof. reflexivity. Qed.

(** With the duration the engine passes, a progress update never changes the
    media duration: the backfill needs an unknown duration and a positive
    argument, and the argument is zero when the duration is unknown. *)
Lemma _update_progress_duration rcd0 rcd s now :
  media_duration_seconds rcd = media_duration_seconds rcd0 ->
  media_duration_seconds (_update_progress rcd s (duration_or_zero rcd0) now)
  = media_duration_seconds rcd0.
Proof.
  intros H. unfold _update_progress, duration_or_zero. cbn [media_duration_seconds
    set_transcode_media_seconds]. rewrite H.
  destruct (media_duration_seconds rcd0) as [d|]; simpl.
  - destruct (negb (Qeq_bool d 0)); simpl; exact H.
  - simpl. exact H.
Qed.

Lemma progress_ops_duration rcd0 stdout : forall rcd,
  media_duration_seconds rcd = media_duration_seconds rcd0 ->
  media_duration_seconds (apply_ops rcd (progress_ops (duration_or_zero rcd0) stdout))
  = media_duration_seconds rcd0.
Proof.
  unfold progress_ops.
  induction stdout as [|[line now] stdout IH]; intros rcd H; [exact H|].
  destruct line as [[us|]|]; cbn in *; try (by apply IH).
  apply IH. by apply _update_progress_duration.
Qed.

Lemma rkmpp_loop_duration w base_cmd encoder_name profile dest_path candidates :
  forall last_error rcd,
  media_duration_seconds
    (rkmpp_loop w base_cmd encoder_name profile dest_path candidates last_error rcd).1
  = media_duration_seconds rcd.
Proof.
  induction candidates as [|[label filter_expr] rest IH]; intros last_error rcd.
  - simpl. destruct last_error; reflexivity.
  - simpl.
    pose proof (_run_ffmpeg_progress w
                  (rkmpp_cmd base_cmd filter_expr encoder_name profile dest_path)
                  ("transcode-rkmpp-" ++ label) (duration_or_zero rcd) rcd) as Hrun.
    destruct (_run_ffmpeg _ _ _ _ rcd) as [rcd1 [e|u]]; simpl in Hrun.
    + assert (Hd : media_duration_seconds rcd1 = media_duration_seconds rcd).
      { rewrite Hrun. by apply progress_ops_duration. }
      destruct e; simpl; try exact Hd. rewrite IH. exact Hd.
    + simpl. rewrite Hrun. by apply progress_ops_duration.
Qed.

Lemma _transcode_rkmpp_outcome self w rcd source_path dest_path profile decoder encoder :
  (_transcode_rkmpp self w rcd source_path dest_path profile decoder encoder).2 = inr tt \/
  (_transcode_rkmpp self w rcd source_path dest_path profile decoder encoder).2
    = inl (RuntimeError "ffmpeg transcode-rkmpp-format failed").
Proof.
  unfold _transcode_rkmpp.
  destruct (decide (Exists (fun c : string * string =>
              proc_returncode
                (popen w (wrapped_cmd
                   (rkmpp_cmd (rkmpp_base_cmd self source_path decoder) c.2
                              encoder profile dest_path))) = 0)
              (rkmpp_filter_candidates w))) as [Hex|Hnex].
  - left. apply rkmpp_loop_success. apply Exists_exists in Hex. exact Hex.
  - right. rewrite rkmpp_loop_failure.
    + unfold rkmpp_filter_candidates. destruct (rga_exists w); reflexivity.
    + intros c Hc Hz. apply Hnex. apply Exists_exists. eauto.
Qed.

(** The transcoding step of [_process_sync]: remux, hardware or software. *)
Lemma transcoding_step self w rcd1 src work info profile target rec2 ran remuxed :
  (if _should_remux info profile target
   then let '(record, ran) := _remux self w src work rcd1 in (record, ran, true)
   else let '(use_hw, decoder, encoder) := _select_rkmpp_codecs self info target in
        let '(record, ran) :=
          if use_hw
          then _transcode_rkmpp self w rcd1 src work profile decoder encoder
          else _transcode_cpu self w rcd1 src work profile target in
        (record, ran, false)) = (rec2, ran, remuxed) ->
  remuxed = _should_remux info profile target /\
  media_duration_seconds rec2 = media_duration_seconds rcd1 /\
  (forall e, ran = inl e ->
     e ∈ [RuntimeError "ffmpeg remux failed"; RuntimeError "ffmpeg transcode failed";
          RuntimeError "ffmpeg transcode-rkmpp-format failed"]).
Proof.
  destruct (_should_remux info profile target).
  - unfold _remux.
    match goal with
    | |- context [_run_ffmpeg w ?cmd ?a None rcd1] =>
        pose proof (_run_ffmpeg_silent w cmd a rcd1) as H1;
        pose proof (_run_ffmpeg_outcome w cmd a None rcd1) as H2;
        destruct (_run_ffmpeg w cmd a None rcd1) as [r o]
    end.
    simpl in H1, H2. intros [= <- <- <-]. subst r o.
    split; [reflexivity|]. split; [reflexivity|].
    intros e. destruct (_ =? 0); [discriminate|]. intros [= <-]. set_solver.
  - destruct (_select_rkmpp_codecs self info target) as [[use_hw decoder] encoder].
    destruct use_hw.
    + pose proof (_transcode_rkmpp_outcome self w rcd1 src work profile decoder encoder)
        as Hout.
      pose proof (rkmpp_loop_duration w (rkmpp_base_cmd self src decoder) encoder profile
                    work (rkmpp_filter_candidates w) None rcd1) as Hd.
      fold (_transcode_rkmpp self w rcd1 src work profile decoder encoder) in Hd.
      destruct (_transcode_rkmpp _ _ _ _ _ _ _ _) as [r o]. simpl in Hout, Hd.
      intros [= <- <- <-]. split; [reflexivity|]. split; [assumption|].
      intros e ->. destruct Hout as [?|[= ->]]; [discriminate|]. set_solver.
    + unfold _transcode_cpu.
      match goal with
      | |- context [_run_ffmpeg w ?cmd ?a ?h rcd1] =>
          pose proof (_run_ffmpeg_progress w cmd a (duration_or_zero rcd1) rcd1) as H1;
          pose proof (_run_ffmpeg_outcome w cmd a h rcd1) as H2;
          destruct (_run_ffmpeg w cmd a h rcd1) as [r o]
      end.
      simpl in H1, H2. intros [= <- <- <-]. subst r o.
      split; [reflexivity|]. split; [by apply progress_ops_duration|].
      intros e. destruct (_ =? 0); [discriminate|]. intros [= <-]. set_solver.
Qed.

(** The transcoding step fails when the ffmpeg run of the selected path exits
    with a code other than 0 (on the hardware path: the runs of all filter
    candidates). *)
Lemma transcoding_step_failure self w rcd1 src work info profile target rec2 ran remuxed :
  (if _should_remux info profile target
   then let '(record, ran) := _remux self w src work rcd1 in (record, ran, true)
   else let '(use_hw, decoder, encoder) := _select_rkmpp_codecs self info target in
        let '(record, ran) :=
          if use_hw
          then _transcode_rkmpp self w rcd1 src work profile decoder encoder
          else _transcode_cpu self w rcd1 src work profile target in
        (record, ran, false)) = (rec2, ran, remuxed) ->
  (_should_remux info profile target = true ->
   remux_returncode self w src work <> 0 ->
   ran = inl (RuntimeError "ffmpeg remux failed")) /\
  (forall decoder encoder,
     _should_remux info profile target = false ->
     _select_rkmpp_codecs self info target = (false, decoder, encoder) ->
     cpu_returncode self w src work profile target <> 0 ->
     ran = inl (RuntimeError "ffmpeg transcode failed")) /\
  (forall decoder encoder,
     _should_remux info profile target = false ->
     _select_rkmpp_codecs self info target = (true, decoder, encoder) ->
     (forall c, c ∈ rkmpp_filter_candidates w ->
        rkmpp_returncode self w src work profile decoder encoder c.2 <> 0) ->
     ran = inl (RuntimeError "ffmpeg transcode-rkmpp-format failed")).
Proof.
  destruct (_should_remux info profile target).
  - unfold _remux, remux_returncode.
    match goal with
    | |- context [_run_ffmpeg w ?cmd ?a None rcd1] =>
        pose proof (_run_ffmpeg_outcome w cmd a None rcd1) as H2;
        destruct (_run_ffmpeg w cmd a None rcd1) as [r o]
    end.
    cbn [snd] in H2. intros [= <- <- <-]. subst o.
    split; [|split; intros; discriminate].
    intros _ Hne. apply Z.eqb_neq in Hne. by rewrite Hne.
  - destruct (_select_rkmpp_codecs self info target) as [[use_hw decoder] encoder].
    destruct use_hw.
    + pose proof (rkmpp_loop_failure w (rkmpp_base_cmd self src decoder) encoder profile
                    work (rkmpp_filter_candidates w) None rcd1) as Hko.
      fold (_transcode_rkmpp self w rcd1 src work profile decoder encoder) in Hko.
      destruct (_transcode_rkmpp _ _ _ _ _ _ _ _) as [r o]. simpl in Hko.
      intros [= <- <- <-].
      split; [intros; discriminate|]. split; [intros; discriminate|].
      intros d e _ [= <- <-] Hall. rewrite Hko by exact Hall.
      unfold rkmpp_filter_candidates. destruct (rga_exists w); reflexivity.
    + unfold _transcode_cpu, cpu_returncode.
      match goal with
      | |- context [_run_ffmpeg w ?cmd ?a ?h rcd1] =>
          pose proof (_run_ffmpeg_outcome w cmd a h rcd1) as H2;
          destruct (_run_ffmpeg w cmd a h rcd1) as [r o]
      end.
      cbn [snd] in H2. intros [= <- <- <-]. subst o.
      split; [intros; discriminate|]. split; [|intros; discriminate].
      intros d e _ _ Hne. apply Z.eqb_neq in Hne. by rewrite Hne.
Qed.

(** X12. How [_process_sync] fails.  A probe error is passed on and an
    unknown resolution raises [Unable to determine source resolution], both
    leaving the record untouched.  When the ffmpeg run of the selected path
    exits with a code other than 0 (on the hardware path: the runs of all
    filter candidates), the error raised is [ffmpeg remux failed],
    [ffmpeg transcode failed] or [ffmpeg transcode-rkmpp-format failed]
    according to the path, and the record holds the probed duration.  When
    the final move of the work file fails, no result is returned. *)
Theorem _process_sync_failure (self : TranscodeEngine) (w : World) (rcd : JobRecord)
    (request : JobRequest) :
  let outcome := _process_sync self w rcd request in
  let work := path_join (work_dir (e_settings self)) (job_id rcd ++ ".mp4") in
  let output := path_join (output_dir (e_settings self)) (job_id rcd ++ ".mp4") in
  (forall e, probe_media w (source_path rcd) = inl e -> outcome = (rcd, inl e)) /\
  (forall info,
     probe_media w (source_path rcd) = inr info ->
     resolution_unknown (i_video info) = true ->
     outcome = (rcd, inl (RuntimeError "Unable to determine source resolution"))) /\
  (forall info profile,
     probe_media w (source_path rcd) = inr info ->
     _select_profile info request = inr profile ->
     let codec := _resolve_codec info profile request in
     (_should_remux info profile codec = true ->
      remux_returncode self w (source_path rcd) work <> 0 ->
      outcome.2 = inl (RuntimeError "ffmpeg remux failed") /\
      media_duration_seconds outcome.1 = i_duration info) /\
     (forall decoder encoder,
        _should_remux info profile codec = false ->
        _select_rkmpp_codecs self info codec = (false, decoder, encoder) ->
        cpu_returncode self w (source_path rcd) work profile codec <> 0 ->
        outcome.2 = inl (RuntimeError "ffmpeg transcode failed") /\
        media_duration_seconds outcome.1 = i_duration info) /\
     (forall decoder encoder,
        _should_remux info profile codec = false ->
        _select_rkmpp_codecs self info codec = (true, decoder, encoder) ->
        (forall c, c ∈ rkmpp_filter_candidates w ->
           rkmpp_returncode self w (source_path rcd) work profile decoder encoder c.2
           <> 0) ->
        outcome.2 = inl (RuntimeError "ffmpeg transcode-rkmpp-format failed") /\
        media_duration_seconds outcome.1 = i_duration info) /\
     (forall e, shutil_move w work output = inl e ->
                forall res, outcome.2 <> inr res)).
Proof.
  cbv zeta. split; [|split].
  - intros e He. unfold _process_sync, _probe. by rewrite He.
  - intros info Hp Hres. unfold _process_sync, _probe. rewrite Hp.
    assert (Hs : _select_profile info request
                 = inl (RuntimeError "Unable to determine source resolution")).
    { unfold _select_profile. destruct (i_video info) as [v|]; [|reflexivity].
      by rewrite Hres. }
    by rewrite Hs.
  - intros info profile Hp Hs.
    unfold _process_sync, _probe. rewrite Hp, Hs.
    match goal with
    | |- context [if _should_remux ?i ?p ?t then ?a else ?b] =>
        destruct (if _should_remux i p t then a else b) as [[rec2 ran] remuxed] eqn:Hstep
    end.
    pose proof (transcoding_step _ _ _ _ _ _ _ _ _ _ _ Hstep) as (_ & Hd & _).
    pose proof (transcoding_step_failure _ _ _ _ _ _ _ _ _ _ _ Hstep)
      as (Hremux & Hcpu & Hhw).
    cbn [media_duration_seconds set_media_duration_seconds] in Hd.
    split; [|split; [|split]].
    + intros Hr Hne. rewrite (Hremux Hr Hne). by split.
    + intros decoder encoder Hr Hsel Hne. rewrite (Hcpu _ _ Hr Hsel Hne). by split.
    + intros decoder encoder Hr Hsel Hall. rewrite (Hhw _ _ Hr Hsel Hall). by split.
    + intros e He res. destruct ran as [e1|[]]; [discriminate|].
      rewrite He. discriminate.
Qed.

Lemma _process_sync_failure_witness :
  (_process_sync software_engine overrun_world started_record auto_request).2
    = inl (RuntimeError "ffmpeg transcode failed") /\
  media_duration_seconds
    (_process_sync software_engine overrun_world started_record auto_request).1
  = Some (10 # 1)%Q.
Proof.
  assert (Hs : _select_profile hd_h264_mkv auto_request = inr hd_profile)
    by reflexivity.
  destruct (_process_sync_failure software_engine overrun_world started_record
              auto_request) as (_ & _ & H).
  destruct (H hd_h264_mkv hd_profile eq_refl Hs) as (_ & Hcpu & _).
  apply (Hcpu "" ""); [reflexivity|reflexivity|discriminate].
Defined.

(** X13. What a successful [_process_sync] has done: the source was probed,
    its resolution was known, and the result names the selected profile, the
    resolved codec (never [auto]), the remux decision taken and the output
    path [<output_dir>/<job_id>.mp4]; the record holds the probed duration,
    and the processed seconds are set to it when it is known. *)
Theorem _process_sync_success (self : TranscodeEngine) (w : World) (rcd : JobRecord)
    (request : JobRequest) (rcd' : JobRecord) (res : TranscodeResult) :
  _process_sync self w rcd request = (rcd', inr res) ->
  exists info,
    probe_media w (source_path rcd) = inr info /\
    resolution_unknown (i_video info) = false /\
    _select_profile info request = inr (t_profile res) /\
    t_codec res = _resolve_codec info (t_profile res) request /\
    t_codec res <> c_auto /\
    t_remuxed res = _should_remux info (t_profile res) (t_codec res) /\
    t_output_path res
      = path_join (output_dir (e_settings self)) (job_id rcd ++ ".mp4") /\
    media_duration_seconds rcd' = i_duration info /\
    (i_duration info <> None -> transcode_media_seconds rcd' = i_duration info).
Proof.
  intros H.
  assert (Hfin : media_duration_seconds rcd' <> None ->
                 transcode_media_seconds rcd' = media_duration_seconds rcd')
    by exact (_process_sync_finalizes _ _ _ _ _ _ H).
  revert H. unfold _process_sync, _probe.
  destruct (probe_media w (source_path rcd)) as [e0|info] eqn:Hp; [discriminate|].
  destruct (_select_profile info request) as [e0|profile] eqn:Hs; [discriminate|].
  match goal with
  | |- match ?c with _ => _ end = _ -> _ => destruct c as [[rec2 ran] remuxed] eqn:Hstep
  end.
  apply transcoding_step in Hstep as (Hrem & Hd & _).
  destruct ran as [e1|[]]; [discriminate|].
  destruct (shutil_move w _ _) as [e1|[]]; [discriminate|].
  intros [= <- <-]. cbn [t_profile t_codec t_remuxed t_output_path].
  assert (Hdur : media_duration_seconds
                   (if negb (bool_decide (media_duration_seconds rec2 = None))
                    then set_transcode_media_seconds rec2 (media_duration_seconds rec2)
                    else rec2) = i_duration info).
  { destruct (negb _); exact Hd. }
  exists info. split; [reflexivity|].
  split; [exact (_select_profile_resolution _ _ _ Hs)|].
  split; [exact Hs|]. split; [reflexivity|].
  split; [apply _resolve_codec_not_auto|]. split; [exact Hrem|].
  split; [reflexivity|]. split; [exact Hdur|].
  intros Hknown. rewrite <- Hdur. apply Hfin. by rewrite Hdur.
Qed.

Lemma _process_sync_success_witness :
  exists info,
    probe_media (scripted_world [(out_time_ms (Some 4000000), 2000000)] 0)
                (source_path started_record) = inr info /\
    resolution_unknown (i_video info) = false /\
    _select_profile info auto_request = inr hd_profile.
Proof.
  assert (Hrun : _process_sync software_engine
                   (scripted_world [(out_time_ms (Some 4000000), 2000000)] 0)
                   started_record auto_request
                 = ((_process_sync software_engine
                       (scripted_world [(out_time_ms (Some 4000000), 2000000)] 0)
                       started_record auto_request).1,
                    inr {| t_output_path := "/data/output/job.mp4"; t_remuxed := false;
                           t_profile := hd_profile; t_codec := h264 |}))
    by (vm_compute; reflexivity).
  destruct (_process_sync_success _ _ _ _ _ _ Hrun) as (info & H1 & H2 & H3 & _).
  exists info. auto.
Defined.

(** ** The derived view *)

(** X14. The clock matters to [to_detail] only while a transcode is under
    way: for a record whose transcode has not started, or has finished, the
    view is the same whenever it is computed. *)
Theorem to_detail_clock_independent (self : JobRecord) (now1 now2 : datetime) :
  transcode_started_at self = None \/ transcode_finished_at self <> None ->
  to_detail self now1 = to_detail self now2.
Proof.
  intros H. unfold to_detail.
  assert (Hpe : progress_and_eta self now1 = progress_and_eta self now2).
  { unfold progress_and_eta.
    destruct (media_duration_seconds self) as [d|]; [|reflexivity].
    destruct (transcode_media_seconds self) as [t|]; [|reflexivity].
    destruct (transcode_started_at self) as [started|]; [|reflexivity].
    destruct H as [H|H]; [discriminate|].
    destruct (truthy_float (Some d)); [|reflexivity].
    rewrite (bool_decide_eq_false_2 _ H), !andb_false_r. reflexivity. }
  rewrite Hpe. destruct (progress_and_eta self now2) as [progress eta].
  destruct (transcode_started_at self) as [started|]; [|reflexivity].
  destruct H as [H|H]; [discriminate|].
  destruct (transcode_finished_at self) as [finished|]; [|contradiction].
  reflexivity.
Qed.

Lemma to_detail_clock_independent_witness :
  to_detail finished_record 9500000 = to_detail finished_record 99000000.
Proof.
  apply (to_detail_clock_independent finished_record 9500000 99000000).
  right. discriminate.
Defined.

Lemma py_max_nonneg (a : Q) : (0 <= py_max a 0)%Q.
Proof.
  unfold py_max. destruct (Qlt_le_dec a 0); [apply Qle_refl|assumption].
Qed.

Lemma py_max_of_nonneg (a : Q) : (0 <= a)%Q -> py_max a 0 = a.
Proof.
  intros H. unfold py_max. destruct (Qlt_le_dec a 0) as [Hlt|]; [|reflexivity].
  exfalso. exact (Qlt_not_le _ _ Hlt H).
Qed.

(** X15. An ETA is reported only for a job that is being transcoded (started
    before [now], not finished, duration and processed time known and
    positive); it is then never negative, and it is zero once the processed
    time has reached the duration. *)
Theorem eta_when_defined (self : JobRecord) (now : datetime) (eta : Q) :
  transcode_eta_seconds (to_detail self now) = Some eta ->
  exists d t started,
    media_duration_seconds self = Some d /\
    transcode_media_seconds self = Some t /\
    transcode_started_at self = Some started /\
    transcode_finished_at self = None /\
    started < now /\
    (0 < d)%Q /\
    (0 < py_min t d)%Q /\
    (0 <= eta)%Q /\
    (d <= t -> eta == 0)%Q.
Proof.
  rewrite to_detail_eta. unfold progress_and_eta.
  destruct (media_duration_seconds self) as [d|]; [|discriminate].
  destruct (transcode_media_seconds self) as [t|]; [|discriminate].
  destruct (transcode_started_at self) as [started|]; [|discriminate].
  destruct (truthy_float (Some d)); [|discriminate].
  cbn -[py_min Qdiv Qgtb truthy_float total_seconds py_max].
  destruct (truthy_float (Some (py_min t d / d)%Q)); [|discriminate].
  destruct (Qgtb (py_min t d / d) 0) eqn:Hp; [|discriminate].
  destruct (bool_decide_reflect (transcode_finished_at self = None)) as [Hf|];
    [|discriminate].
  cbn -[py_min Qdiv Qgtb total_seconds py_max].
  destruct (Qgtb (total_seconds now started) 0) eqn:He; [|discriminate].
  destruct (Qgtb (py_min t d / total_seconds now started) 0) eqn:Hs; [|discriminate].
  intros [= <-].
  apply Qgtb_true in He, Hs.
  set (p := py_min t d) in *. set (el := total_seconds now started) in *.
  assert (Hppos : (0 < p)%Q).
  { destruct (Qlt_le_dec 0 p) as [|Hle]; [assumption|]. exfalso.
    assert (p / el <= 0)%Q.
    { apply Qle_shift_div_r; [assumption|]. by rewrite Qmult_0_l. }
    eapply Qlt_not_le; eassumption. }
  assert (Hrem : (0 <= d - p)%Q).
  { unfold Qminus. rewrite <- (Qplus_opp_r p).
    apply Qplus_le_compat; [apply py_min_le_r|apply Qle_refl]. }
  assert (Hdpos : (0 < d)%Q).
  { apply Qgtb_true in Hp. destruct (Qlt_le_dec 0 d) as [|Hle]; [assumption|]. exfalso.
    apply (Qlt_not_le _ _ Hppos). apply Qle_trans with d; [apply py_min_le_r|exact Hle]. }
  exists d, t, started. repeat split; try assumption.
  - subst el. unfold total_seconds, Qlt in He. simpl in He. lia.
  - apply Qle_shift_div_l; [assumption|]. rewrite Qmult_0_l. apply py_max_nonneg.
  - intros Hdt.
    assert (Hpd : (p == d)%Q).
    { apply Qle_antisym; [apply py_min_le_r|]. by apply py_min_glb; [|apply Qle_refl]. }
    assert (Hz : (d - p == 0)%Q) by (rewrite Hpd; ring).
    rewrite (py_max_of_nonneg _ Hrem), Hz. unfold Qdiv. apply Qmult_0_l.
Qed.

Lemma eta_when_defined_witness :
  exists d t started,
    media_duration_seconds
      (set_transcode_media_seconds
         (set_media_duration_seconds started_record (Some (10 # 1)%Q))
         (Some (4 # 1)%Q)) = Some d /\
    transcode_media_seconds
      (set_transcode_media_seconds
         (set_media_duration_seconds started_record (Some (10 # 1)%Q))
         (Some (4 # 1)%Q)) = Some t /\
    transcode_started_at
      (set_transcode_media_seconds
         (set_media_duration_seconds started_record (Some (10 # 1)%Q))
         (Some (4 # 1)%Q)) = Some started /\
    started < 3000000.
Proof.
  assert (H : exists eta,
             transcode_eta_seconds
               (to_detail
                  (set_transcode_media_seconds
                     (set_media_duration_seconds started_record (Some (10 # 1)%Q))
                     (Some (4 # 1)%Q)) 3000000) = Some eta)
    by (eexists; vm_compute; reflexivity).
  destruct H as [eta Heta].
  destruct (eta_when_defined _ _ _ Heta) as (d & t & started & H1 & H2 & H3 & _ & H5 & _).
  exists d, t, started. auto.
Defined.

(** X16. After a successful [_process_sync] on a source whose duration is
    known and not zero, the progress shown for the record is 1. *)
Theorem progress_complete_after_success (self : TranscodeEngine) (w : World)
    (rcd : JobRecord) (request : JobRequest) (rcd' : JobRecord)
    (res : TranscodeResult) (d : Q) (started now : datetime) :
  _process_sync self w rcd request = (rcd', inr res) ->
  media_duration_seconds rcd' = Some d -> ~ (d == 0)%Q ->
  transcode_started_at rcd' = Some started ->
  exists p, transcode_progress (to_detail rcd' now) = Some p /\ (p == 1)%Q.
Proof.
  intros Hrun Hd Hnz Hs.
  assert (Ht : transcode_media_seconds rcd' = Some d).
  { rewrite <- Hd. apply (_process_sync_finalizes _ _ _ _ _ _ Hrun). by rewrite Hd. }
  rewrite to_detail_progress. unfold progress_and_eta. rewrite Hd, Ht, Hs.
  rewrite (proj2 (truthy_float_Some d) Hnz).
  cbn -[py_min Qdiv Qgtb truthy_float total_seconds py_max].
  eexists. split; [reflexivity|].
  unfold py_min. destruct (Qlt_le_dec d d); by apply Qmult_inv_r.
Qed.

Lemma progress_complete_after_success_witness :
  exists p,
    transcode_progress
      (to_detail
         (_process_sync software_engine
            (scripted_world [(out_time_ms (Some 4000000), 2000000)] 0)
            started_record auto_request).1 5000000) = Some p /\ (p == 1)%Q.
Proof.
  eapply (progress_complete_after_success software_engine
            (scripted_world [(out_time_ms (Some 4000000), 2000000)] 0)
            started_record auto_request _ _ (10 # 1)%Q 1000000 5000000).
  - vm_compute. reflexivity.
  - vm_compute. reflexivity.
  - discriminate.
  - vm_compute. reflexivity.
Defined.

(** ** More on callback dispatch *)

Lemma dispatch_loop_until_success post url payload k u rest : forall fails,
  (forall j, j ∈ fails -> exists e, post j = inl e) ->
  post k = inr u ->
  let trace := dispatch_loop post url payload (fails ++ k :: rest) in
  count_posts trace = S (length fails) /\
  count_sleeps trace = length fails /\
  last trace = Some ev_log_delivered /\
  existsb is_post trace = true /\
  trailing_sleep trace = false.
Proof.
  unfold count_posts, count_sleeps.
  induction fails as [|j fails IH]; intros Hfail Hk; cbv zeta.
  - simpl. rewrite Hk. repeat split.
  - simpl. destruct (Hfail j) as [e He]; [by left|]. rewrite He.
    destruct IH as (IH1 & IH2 & IH3 & IH4 & IH5); [intros; apply Hfail; by right|assumption|].
    cbn [List.filter is_post is_sleep length existsb trailing_sleep orb].
    rewrite IH1, IH2, IH4, IH5. repeat split.
    rewrite !last_cons, IH3. reflexivity.
Qed.

(** X17. [dispatch] stops at the first attempt that goes through: when
    attempt [k] is the first to succeed, it has posted [k] times and waited
    [k - 1] times, the delivery is logged last, and no wait is left without
    an attempt after it. *)
Theorem dispatch_first_success (self : CallbackDispatcher) (post : Z -> result unit)
    (url : string) (payload : CallbackPayload) (k : Z) :
  1 <= k <= max_attempts self ->
  post k = inr tt ->
  (forall j, 1 <= j < k -> exists e, post j = inl e) ->
  let trace := (dispatch self post url payload).1 in
  Z.of_nat (count_posts trace) = k /\
  Z.of_nat (count_sleeps trace) = k - 1 /\
  last trace = Some ev_log_delivered /\
  trailing_sleep trace = false.
Proof.
  intros Hk Hpost Hfail. unfold dispatch. cbn [fst].
  replace (max_attempts self) with ((k - 1) + (max_attempts self - (k - 1))) by lia.
  rewrite seqZ_app by lia.
  rewrite (seqZ_cons (1 + (k - 1))) by lia.
  replace (1 + (k - 1)) with k by lia.
  destruct (dispatch_loop_until_success post url payload k tt
              (seqZ (Z.succ k) (Z.pred (max_attempts self - (k - 1))))
              (seqZ 1 (k - 1)))
    as (H1 & H2 & H3 & _ & H5).
  - intros j Hj. apply elem_of_seqZ in Hj. apply Hfail. lia.
  - assumption.
  - rewrite H1, H2, length_seqZ. repeat split; try assumption; lia.
Qed.

Lemma dispatch_first_success_witness :
  let trace :=
    (dispatch (new_dispatcher default_settings)
       (fun k => if k =? 2 then inr tt else inl (OSError "connection refused"))
       hook_url sample_payload).1 in
  Z.of_nat (count_posts trace) = 2 /\
  Z.of_nat (count_sleeps trace) = 2 - 1 /\
  last trace = Some ev_log_delivered /\
  trailing_sleep trace = false.
Proof.
  apply (dispatch_first_success (new_dispatcher default_settings)
           (fun k => if k =? 2 then inr tt else inl (OSError "connection refused"))
           hook_url sample_payload 2).
  - simpl. lia.
  - reflexivity.
  - intros j Hj. assert (j = 1) as -> by lia. eexists. reflexivity.
Defined.

Lemma dispatch_loop_sleeps_le_posts post url payload attempts :
  (count_sleeps (dispatch_loop post url payload attempts)
   <= count_posts (dispatch_loop post url payload attempts))%nat.
Proof.
  unfold count_sleeps, count_posts.
  induction attempts as [|k rest IH]; simpl; [lia|].
  destruct (post k); simpl; lia.
Qed.

(** X18. Whatever the endpoint answers, [dispatch] posts at most
    [max_attempts] times, never waits more often than it posts, waits
    between 2 and 30 seconds each time, and returns without raising; with
    [max_attempts] at zero or below it posts nothing at all. *)
Theorem dispatch_bounded (self : CallbackDispatcher) (post : Z -> result unit)
    (url : string) (payload : CallbackPayload) :
  let trace := (dispatch self post url payload).1 in
  Z.of_nat (count_posts trace) <= Z.max 0 (max_attempts self) /\
  (count_sleeps trace <= count_posts trace)%nat /\
  (forall seconds, ev_sleep seconds ∈ trace -> 2 <= seconds <= 30) /\
  (max_attempts self <= 0 -> trace = [ev_log_exhausted]) /\
  (dispatch self post url payload).2 = inr tt.
Proof.
  cbv zeta. unfold dispatch. cbn [fst snd].
  split; [|split; [|split; [|split]]].
  - pose proof (dispatch_loop_posts post url payload (seqZ 1 (max_attempts self))) as H.
    rewrite length_seqZ in H. lia.
  - apply dispatch_loop_sleeps_le_posts.
  - intros seconds Hin.
    destruct (dispatch_loop_sleeps _ _ _ _ _ Hin) as (k & e & Hk & _ & ->).
    apply elem_of_seqZ in Hk.
    assert (2 ^ 1 <= 2 ^ k) by (apply Z.pow_le_mono_r; lia).
    change (2 ^ 1) with 2 in *. lia.
  - intros Hn. by rewrite seqZ_nil.
  - reflexivity.
Qed.

(** ** Invariants of the manager *)

Lemma coherent_new_manager s : coherent (new_manager s).
Proof.
  split; simpl; try (intros; rewrite lookup_empty in *; discriminate); discriminate.
Qed.

(** A record changed in place: its identifier stays, it remains [record_ok],
    it does not become [processing], and if the worker holds it, it stays
    [processing] or [cancelled] with its start time stamp. *)
Lemma coherent_mutate m r f :
  coherent m ->
  (forall rcd, heap m !! r = Some rcd ->
     job_id (f rcd) = job_id rcd /\
     record_ok (f rcd) /\
     (status (f rcd) = processing -> status rcd = processing) /\
     (forall item, current m = Some item -> wi_record item = r ->
        (status (f rcd) = processing \/ status (f rcd) = cancelled) /\
        transcode_started_at (f rcd) <> None)) ->
  coherent (mutate m r f).
Proof.
  intros [C1 C2 C3 C4 C5] Hf.
  assert (Hlook : forall r' rcd', alter f r (heap m) !! r' = Some rcd' ->
            (r' = r /\ exists rcd, heap m !! r = Some rcd /\ rcd' = f rcd) \/
            (r' <> r /\ heap m !! r' = Some rcd')).
  { intros r' rcd'. destruct (decide (r = r')) as [<-|Hne].
    - rewrite lookup_alter_eq. destruct (heap m !! r) as [rcd|]; [|discriminate].
      intros [= <-]. left. eauto.
    - rewrite lookup_alter_ne by assumption. intros; right. split; [congruence|assumption]. }
  assert (Hproc : forall r' rcd', alter f r (heap m) !! r' = Some rcd' ->
            status rcd' = processing ->
            exists rcd, heap m !! r' = Some rcd /\ status rcd = processing).
  { intros r' rcd' Hl Hs. destruct (Hlook _ _ Hl) as [(-> & rcd & Hr & ->)|(_ & Hr)].
    - exists rcd. split; [assumption|]. by apply (Hf rcd Hr).
    - eauto. }
  split; cbn [mutate with_heap heap records current shutdown].
  - intros id r' Hid. destruct (C1 id r' Hid) as (rcd & Hr & Hj).
    destruct (decide (r = r')) as [<-|Hne].
    + exists (f rcd). rewrite lookup_alter_eq, Hr. split; [reflexivity|].
      rewrite <- Hj. by apply (Hf rcd Hr).
    + exists rcd. by rewrite lookup_alter_ne.
  - intros r' rcd' Hl. destruct (Hlook _ _ Hl) as [(-> & rcd & Hr & ->)|(_ & Hr)].
    + by apply (Hf rcd Hr).
    + by apply (C2 r').
  - intros item Hi. destruct (C3 item Hi) as (Hsh & rcd & Hr & Hst & Hstart).
    split; [assumption|].
    destruct (decide (r = wi_record item)) as [->|Hne].
    + exists (f rcd). rewrite lookup_alter_eq, Hr. split; [reflexivity|].
      destruct (Hf rcd Hr) as (_ & _ & _ & Hcur). by apply (Hcur item).
    + exists rcd. by rewrite lookup_alter_ne.
  - intros r' rcd' Hl Hs Hsh. destruct (Hproc _ _ Hl Hs) as (rcd & Hr & Hs').
    by apply (C4 r' rcd).
  - intros r1 r2 rcd1 rcd2 H1 H2 S1 S2.
    destruct (Hproc _ _ H1 S1) as (x1 & Hx1 & Sx1).
    destruct (Hproc _ _ H2 S2) as (x2 & Hx2 & Sx2).
    by apply (C5 r1 r2 x1 x2).
Qed.

Lemma coherent_cancel_job m id now : coherent m -> coherent (cancel_job m id now).1.
Proof.
  intros Hco. unfold cancel_job.
  destruct (records m !! id) as [r|]; [|assumption].
  destruct (heap m !! r) as [rcd|] eqn:Hr; [|assumption].
  destruct (is_terminal (status rcd)) eqn:Ht; [assumption|].
  apply coherent_mutate; [assumption|]. intros x Hx. rewrite Hr in Hx.
  injection Hx as <-. cbn.
  destruct (co_ok m Hco r rcd Hr) as [Hout Hfin].
  split; [reflexivity|]. split; [|split].
  - split; cbn.
    + split; [|discriminate]. intros Ho. apply Hout in Ho. rewrite Ho in Ht. discriminate.
    + intros [?|?]; discriminate.
  - discriminate.
  - intros item Hi Hw. split; [by right|].
    destruct (co_current m Hco item Hi) as (_ & x & Hx & _ & Hs).
    rewrite Hw, Hr in Hx. by injection Hx as <-.
Qed.

Lemma coherent_engine_step m op : coherent m -> coherent (engine_step m op).
Proof.
  intros Hco. unfold engine_step. destruct (current m) as [cur|] eqn:Hc; [|assumption].
  apply coherent_mutate; [assumption|]. intros rcd Hr.
  destruct (apply_op_frame op rcd) as (Hj & Hs & _ & Ho & _ & _ & _ & Hst & Hfin).
  destruct (co_ok m Hco _ rcd Hr) as [Hout Hf].
  split; [assumption|]. split; [|split].
  - split; rewrite ?Ho, ?Hs, ?Hfin, ?Hst; assumption.
  - by rewrite Hs.
  - intros item Hi Hw. rewrite Hs, Hst.
    destruct (co_current m Hco item Hi) as (_ & x & Hx & Hsx & Hstx).
    rewrite Hw, Hr in Hx. by injection Hx as <-.
Qed.

Lemma coherent_ext m m' :
  heap m' = heap m -> records m' = records m -> current m' = current m ->
  shutdown m' = shutdown m -> coherent m -> coherent m'.
Proof.
  intros Hh Hr Hc Hs [C1 C2 C3 C4 C5].
  split; rewrite ?Hh, ?Hr, ?Hc, ?Hs; assumption.
Qed.

Lemma coherent_stop m : coherent m -> coherent (stop m).
Proof.
  intros [C1 C2 C3 C4 C5]. split; cbn [stop heap records current shutdown];
    try assumption; discriminate.
Qed.

Lemma purge_fold_records m l :
  shutdown (foldl purge_one m l) = shutdown m /\
  forall id r, records (foldl purge_one m l) !! id = Some r -> records m !! id = Some r.
Proof.
  revert m. induction l as [|kr l IH]; intros m; simpl; [split; [reflexivity|auto]|].
  destruct (IH (purge_one m kr)) as [Hs Hr]. split; [exact Hs|].
  intros id r H. apply Hr in H. cbn [purge_one records] in H.
  apply lookup_delete_Some in H as [_ H]. exact H.
Qed.

Lemma coherent_purge m now : coherent m -> coherent (purge_expired_jobs m now).
Proof.
  intros [C1 C2 C3 C4 C5]. unfold purge_expired_jobs.
  set (l := List.filter _ _).
  destruct (purge_fold_fields m l) as (_ & _ & Hc & Hh & _ & _).
  destruct (purge_fold_records m l) as [Hs Hr].
  split; rewrite ?Hh, ?Hc, ?Hs; try assumption.
  intros id r H. apply C1. by apply Hr.
Qed.

Lemma coherent_resume_put m : coherent m -> coherent (resume_put m).1.
Proof.
  intros Hco. unfold resume_put. destruct (putters m); [assumption|].
  destruct (queue_full m); [assumption|]. by apply (coherent_ext m).
Qed.

Lemma mark_job_id outcome t1 t2 rcd :
  job_id (match outcome with
          | inr res => mark_completed res t1 t2
          | inl exc => mark_failed exc t1 t2
          end rcd) = job_id rcd.
Proof.
  destruct outcome; [unfold mark_failed; destruct (_ && _)|]; reflexivity.
Qed.

Lemma mark_record_ok (outcome : result TranscodeResult) t1 t2 rcd :
  output_path rcd = None -> transcode_started_at rcd <> None ->
  record_ok (match outcome with
             | inr res => mark_completed res t1 t2
             | inl exc => mark_failed exc t1 t2
             end rcd).
Proof.
  intros Ho Hs. destruct outcome as [exc|res].
  - unfold mark_failed. cbn [transcode_finished_at transcode_started_at set_error
      set_updated_at set_status].
    rewrite (bool_decide_eq_false_2 (transcode_started_at rcd = None)) by assumption.
    destruct (bool_decide_reflect (transcode_finished_at rcd = None)); cbn.
    + split; cbn; [split; [congruence|discriminate]|intros _; split; [discriminate|assumption]].
    + split; cbn; [split; [congruence|discriminate]|auto].
  - split; cbn; [split; [reflexivity|discriminate]|intros _; split; [discriminate|assumption]].
Qed.

Lemma mark_status (outcome : result TranscodeResult) t1 t2 rcd :
  status (match outcome with
          | inr res => mark_completed res t1 t2
          | inl exc => mark_failed exc t1 t2
          end rcd)
  = match outcome with inr _ => completed | inl _ => failed end.
Proof. destruct outcome; [apply mark_failed_status|reflexivity]. Qed.

(** The manager [worker_finish] returns differs from the marked one only by
    the dispatch log. *)
Lemma worker_finish_fields m outcome t1 t2 item :
  current m = Some item ->
  let mark := match outcome with
              | inr res => mark_completed res t1 t2
              | inl exc => mark_failed exc t1 t2
              end in
  let m' := worker_finish m outcome t1 t2 in
  heap m' = alter mark (wi_record item) (heap m) /\
  records m' = records m /\ current m' = None /\ shutdown m' = shutdown m /\
  queue m' = queue m /\ putters m' = putters m /\ next_ref m' = next_ref m.
Proof.
  intros Hc. cbv zeta. unfold worker_finish. rewrite Hc.
  destruct outcome as [exc|res]; cbn zeta beta iota;
    match goal with
    | |- context [match ?h !! ?r with _ => _ end] => destruct (h !! r)
    end; unfold _fire_callback; try destruct (negb _); repeat split.
Qed.

Lemma coherent_worker_finish m outcome t1 t2 :
  coherent m -> coherent (worker_finish m outcome t1 t2).
Proof.
  intros Hco. destruct (current m) as [item|] eqn:Hc;
    [|unfold worker_finish; by rewrite Hc].
  destruct (worker_finish_fields m outcome t1 t2 item Hc)
    as (Hh & Hr & Hcu & Hs & _).
  set (mark := match outcome with
               | inr res => mark_completed res t1 t2
               | inl exc => mark_failed exc t1 t2
               end) in *.
  destruct Hco as [C1 C2 C3 C4 C5].
  destruct (C3 item Hc) as (Hsh & rcd & Hrcd & Hst & Hstart).
  assert (Hout : output_path rcd = None).
  { destruct (C2 _ _ Hrcd) as [Ho _].
    destruct (output_path rcd) eqn:E; [|reflexivity].
    assert (status rcd = completed) by (apply Ho; discriminate).
    destruct Hst; congruence. }
  assert (Hproc : forall r' rcd', alter mark (wi_record item) (heap m) !! r' = Some rcd' ->
            status rcd' = processing -> False).
  { intros r' rcd' Hl Hp. destruct (decide (wi_record item = r')) as [<-|Hne].
    - rewrite lookup_alter_eq, Hrcd in Hl. injection Hl as <-.
      subst mark. rewrite mark_status in Hp. destruct outcome; discriminate.
    - rewrite lookup_alter_ne in Hl by assumption.
      destruct (C4 r' rcd' Hl Hp Hsh) as (item' & Hi' & Hw'). congruence. }
  split; rewrite ?Hh, ?Hr, ?Hcu, ?Hs.
  - intros id r' Hid. destruct (C1 id r' Hid) as (x & Hx & Hj).
    destruct (decide (wi_record item = r')) as [<-|Hne].
    + exists (mark x). rewrite lookup_alter_eq, Hx. split; [reflexivity|].
      subst mark. by rewrite mark_job_id.
    + exists x. by rewrite lookup_alter_ne.
  - intros r' rcd' Hl. destruct (decide (wi_record item = r')) as [<-|Hne].
    + rewrite lookup_alter_eq, Hrcd in Hl. injection Hl as <-.
      by apply mark_record_ok.
    + rewrite lookup_alter_ne in Hl by assumption. by apply (C2 r').
  - discriminate.
  - intros r' rcd' Hl Hp. exfalso. by apply (Hproc r' rcd').
  - intros r1 r2 rcd1 rcd2 H1 _ S1. exfalso. by apply (Hproc r1 rcd1).
Qed.

Lemma coherent_worker_get m now started :
  wf m -> coherent m -> coherent (worker_get m now started).
Proof.
  intros Hwf Hco. unfold worker_get. destruct (shutdown m) eqn:Hsh; [assumption|].
  destruct (current m) as [busy|] eqn:Hc; [assumption|].
  destruct (queue m) as [|item rest] eqn:Hq; [assumption|].
  assert (Hrest : coherent (with_queue m rest)) by by apply (coherent_ext m).
  cbn [heap with_queue].
  destruct (heap m !! wi_record item) as [rcd|] eqn:Hl; [|assumption].
  destruct (bool_decide_reflect (status rcd = cancelled)) as [|Hnc]; [assumption|].
  destruct (wf_pending m Hwf (wi_record item)) as (x & Hx & Hst).
  { unfold pending. rewrite Hq. simpl. by left. }
  rewrite Hl in Hx. injection Hx as <-.
  destruct Hst as [Hst|Hst]; [|contradiction].
  destruct Hco as [C1 C2 C3 C4 C5].
  assert (Hout : output_path rcd = None).
  { destruct (C2 _ _ Hl) as [Ho _].
    destruct (output_path rcd) eqn:E; [|reflexivity].
    assert (status rcd = completed) by (apply Ho; discriminate). congruence. }
  assert (Hidle : forall r' rcd', heap m !! r' = Some rcd' -> status rcd' <> processing).
  { intros r' rcd' Hr' Hp. destruct (C4 r' rcd' Hr' Hp Hsh) as (i & Hi & _). congruence. }
  set (f := fun record => set_transcode_started_at
                (set_updated_at (set_status record processing) now) (Some started)).
  assert (Hproc : forall r' rcd', alter f (wi_record item) (heap m) !! r' = Some rcd' ->
            status rcd' = processing -> r' = wi_record item).
  { intros r' rcd' Hr' Hp. destruct (decide (wi_record item = r')) as [<-|Hne];
      [reflexivity|]. rewrite lookup_alter_ne in Hr' by assumption.
    exfalso. by apply (Hidle r' rcd'). }
  split; cbn [heap records current shutdown with_current mutate with_heap with_queue].
  - intros id r' Hid. destruct (C1 id r' Hid) as (x & Hx & Hj).
    destruct (decide (wi_record item = r')) as [<-|Hne].
    + exists (f x). rewrite lookup_alter_eq, Hx. split; [reflexivity|exact Hj].
    + exists x. by rewrite lookup_alter_ne.
  - intros r' rcd' Hr'. destruct (decide (wi_record item = r')) as [<-|Hne].
    + rewrite lookup_alter_eq, Hl in Hr'. injection Hr' as <-.
      split; cbn; [split; [congruence|discriminate]|intros [?|?]; discriminate].
    + rewrite lookup_alter_ne in Hr' by assumption. by apply (C2 r').
  - intros ? [= <-]. split; [assumption|]. exists (f rcd).
    rewrite lookup_alter_eq, Hl. split; [reflexivity|]. split; [by left|discriminate].
  - intros r' rcd' Hr' Hp _. exists item. split; [reflexivity|].
    symmetry. by apply (Hproc r' rcd').
  - intros r1 r2 rcd1 rcd2 H1 H2 S1 S2.
    rewrite (Hproc _ _ H1 S1), (Hproc _ _ H2 S2). reflexivity.
Qed.

Lemma coherent_submit_job m upload request new_id t0 t1 t2 :
  wf m -> coherent m -> coherent (submit_job m upload request new_id t0 t1 t2).1.
Proof.
  intros Hwf [C1 C2 C3 C4 C5]. unfold submit_job.
  destruct (persist upload); [by split|].
  cbn -[path_name path_join truthy_str].
  change (queue_full _) with (queue_full m).
  assert (Hfresh : forall r rcd, heap m !! r = Some rcd -> next_ref m <> r).
  { intros r rcd Hr <-. assert (next_ref m < next_ref m)%nat
      by (apply (wf_heap m Hwf); eauto). lia. }
  destruct (queue_full m); cbn [fst];
    (split; cbn [heap records current shutdown with_putters with_queue];
     [ intros id r Hid; destruct (decide (new_id = id)) as [<-|Hne];
       [ rewrite lookup_insert_eq in Hid; injection Hid as <-;
         eexists; rewrite lookup_insert_eq; split; reflexivity
       | rewrite lookup_insert_ne in Hid by assumption;
         destruct (C1 id r Hid) as (x & Hx & Hj); exists x;
         rewrite lookup_insert_ne by (by apply (Hfresh r x)); by split ]
     | intros r rcd Hr; destruct (decide (next_ref m = r)) as [<-|Hne];
       [ rewrite lookup_insert_eq in Hr; injection Hr as <-;
         split; cbn; [split; [congruence|discriminate]|intros [?|?]; discriminate]
       | rewrite lookup_insert_ne in Hr by assumption; by apply (C2 r) ]
     | intros item Hi; destruct (C3 item Hi) as (Hsh & x & Hx & Hst & Hs);
       split; [assumption|]; exists x;
       rewrite lookup_insert_ne by (by apply (Hfresh _ x)); by repeat split
     | intros r rcd Hr Hp Hsh; destruct (decide (next_ref m = r)) as [<-|Hne];
       [ rewrite lookup_insert_eq in Hr; injection Hr as <-; discriminate Hp
       | rewrite lookup_insert_ne in Hr by assumption; by apply (C4 r rcd) ]
     | intros r1 r2 rcd1 rcd2 H1 H2 S1 S2;
       destruct (decide (next_ref m = r1)) as [<-|Hne1];
       [ rewrite lookup_insert_eq in H1; injection H1 as <-; discriminate S1 |];
       destruct (decide (next_ref m = r2)) as [<-|Hne2];
       [ rewrite lookup_insert_eq in H2; injection H2 as <-; discriminate S2 |];
       rewrite lookup_insert_ne in H1, H2 by assumption;
       by apply (C5 r1 r2 rcd1 rcd2) ]).
Qed.

Lemma coherent_exec m a : wf m -> coherent m -> coherent (exec m a).
Proof.
  intros Hwf Hco. destruct a; simpl.
  - by apply coherent_submit_job.
  - by apply coherent_resume_put.
  - by apply coherent_cancel_job.
  - by apply coherent_purge.
  - by apply coherent_worker_get.
  - by apply coherent_engine_step.
  - by apply coherent_worker_finish.
  - by apply coherent_stop.
Qed.

Lemma coherent_run m actions : wf m -> coherent m -> coherent (run m actions).
Proof.
  revert m. induction actions as [|a actions IH]; intros m Hwf Hco; simpl; [assumption|].
  apply IH; [by apply wf_exec|by apply coherent_exec].
Qed.

Lemma reachable_coherent m : reachable m -> coherent m.
Proof.
  intros (s & actions & ->). apply coherent_run; [apply wf_new_manager|].
  apply coherent_new_manager.
Qed.

(** ** What a user of the manager sees *)

(** X19. A job is visible as soon as [submit_job] has stored it, whether the
    call returned or is still waiting for room in the queue: [get_job] then
    answers with the new identifier, status [queued], the requested quality
    and codec, the measured upload time and no output, progress or ETA. *)
Theorem submit_then_get (m : JobManager) (upload : UploadFile) (request : JobRequest)
    (new_id : string) (t0 t1 t2 now : datetime) :
  persist upload = inr tt ->
  exists detail,
    get_job (submit_job m upload request new_id t0 t1 t2).1 new_id now = Some detail /\
    d_job_id detail = new_id /\ d_status detail = queued /\
    d_quality detail = rq_quality request /\ d_codec detail = rq_codec request /\
    d_created_at detail = t0 /\
    d_download_seconds detail = Some (total_seconds t2 t1) /\
    d_output_path detail = None /\ d_transcode_seconds detail = None /\
    transcode_progress detail = None /\ transcode_eta_seconds detail = None.
Proof.
  intros Hp. unfold submit_job. rewrite Hp.
  cbn -[path_name path_join truthy_str].
  change (queue_full _) with (queue_full m).
  destruct (queue_full m); unfold get_job;
    cbn -[path_name path_join truthy_str to_detail];
    rewrite !lookup_insert_eq; cbn -[path_name path_join truthy_str];
    eexists; repeat split.
Qed.

Lemma submit_then_get_witness :
  exists detail,
    get_job (submit_job saturated_manager upload_a auto_request "job-2" 10 11 12).1
            "job-2" 20 = Some detail /\
    d_job_id detail = "job-2" /\ d_status detail = queued.
Proof.
  destruct (submit_then_get saturated_manager upload_a auto_request "job-2" 10 11 12 20)
    as (detail & H1 & H2 & H3 & _); [reflexivity|].
  exists detail. auto.
Defined.

(** X20. One transcode at a time: in every state the manager can reach, at
    most one record is [processing], and unless the manager was stopped it
    is the record of the item the worker holds. *)
Theorem single_transcode (m : JobManager) :
  reachable m ->
  (forall r1 r2, status_of m r1 = Some processing ->
                 status_of m r2 = Some processing -> r1 = r2) /\
  (forall r, status_of m r = Some processing -> shutdown m = false ->
             exists item, current m = Some item /\ wi_record item = r).
Proof.
  intros Hr. pose proof (reachable_coherent m Hr) as Hco. unfold status_of. split.
  - intros r1 r2 H1 H2.
    destruct (heap m !! r1) as [rcd1|] eqn:E1; [|discriminate].
    destruct (heap m !! r2) as [rcd2|] eqn:E2; [|discriminate].
    injection H1 as H1. injection H2 as H2.
    exact (co_single m Hco r1 r2 rcd1 rcd2 E1 E2 H1 H2).
  - intros r H Hsh. destruct (heap m !! r) as [rcd|] eqn:E; [|discriminate].
    injection H as H. exact (co_processing m Hco r rcd E H Hsh).
Qed.

(** Two queued jobs; the worker has taken the first. *)
Lemma single_transcode_witness :
  let m :=
    run (new_manager default_settings)
        [a_submit upload_a hook_request "job-1" 0 1 2;
         a_submit upload_a auto_request "job-2" 3 4 5;
         a_worker_get 6 7; a_worker_get 8 9] in
  status_of m 0%nat = Some processing /\
  forall r, status_of m r = Some processing -> r = 0%nat.
Proof.
  cbv zeta. split; [vm_compute; reflexivity|].
  intros r Hr.
  apply (proj1 (single_transcode _ (ex_intro _ default_settings
           (ex_intro _ [a_submit upload_a hook_request "job-1" 0 1 2;
                        a_submit upload_a auto_request "job-2" 3 4 5;
                        a_worker_get 6 7; a_worker_get 8 9] eq_refl)))).
  - exact Hr.
  - vm_compute. reflexivity.
Defined.

(** X21. In every reachable state a job has an output path exactly when its
    status is [completed]; and a job that is [completed] or [failed] has its
    end-of-transcode time stamp, so that no ETA is shown for it. *)
Theorem output_iff_completed (m : JobManager) (id : string) (now : datetime)
    (detail : JobDetail) :
  reachable m ->
  get_job m id now = Some detail ->
  d_job_id detail = id /\
  (d_output_path detail <> None <-> d_status detail = completed) /\
  (d_status detail = completed \/ d_status detail = failed ->
   d_transcode_seconds detail <> None /\ transcode_eta_seconds detail = None).
Proof.
  intros Hr Hget. pose proof (reachable_coherent m Hr) as Hco.
  unfold get_job in Hget.
  destruct (records m !! id) as [r|] eqn:Hid; [|discriminate].
  destruct (co_records m Hco id r Hid) as (rcd & Hl & Hj).
  rewrite Hl in Hget. injection Hget as <-.
  destruct (co_ok m Hco r rcd Hl) as [Hout Hfin].
  split; [|split].
  - unfold to_detail. destruct (progress_and_eta rcd now). exact Hj.
  - unfold to_detail. destruct (progress_and_eta rcd now). exact Hout.
  - intros Hs.
    assert (Hs' : status rcd = completed \/ status rcd = failed).
    { unfold to_detail in Hs. destruct (progress_and_eta rcd now). exact Hs. }
    destruct (Hfin Hs') as [Hf Hst]. split.
    + unfold to_detail. destruct (progress_and_eta rcd now).
      cbn [d_transcode_seconds].
      destruct (transcode_started_at rcd); [discriminate|contradiction].
    + rewrite to_detail_eta. unfold progress_and_eta.
      destruct (media_duration_seconds rcd); [|reflexivity].
      destruct (transcode_media_seconds rcd); [|reflexivity].
      destruct (transcode_started_at rcd); [|reflexivity].
      destruct (truthy_float _); [|reflexivity].
      rewrite (bool_decide_eq_false_2 _ Hf), !andb_false_r. reflexivity.
Qed.

Lemma completed_manager_reachable : reachable completed_manager.
Proof. eexists _, _. reflexivity. Qed.

Lemma output_iff_completed_witness :
  exists detail,
    get_job completed_manager "job-1" 10 = Some detail /\
    d_status detail = completed /\ d_output_path detail <> None.
Proof.
  assert (H : exists d, get_job completed_manager "job-1" 10 = Some d /\
                        d_status d = completed)
    by (eexists; split; vm_compute; reflexivity).
  destruct H as (d & Hget & Hst).
  destruct (output_iff_completed completed_manager "job-1" 10 d
              completed_manager_reachable Hget) as (_ & Hiff & _).
  exists d. split; [exact Hget|]. split; [exact Hst|]. by apply Hiff.
Defined.

(** No step touches the record of a job that is [completed] or [failed]. *)
Lemma final_exec m a r rcd :
  wf m -> coherent m ->
  heap m !! r = Some rcd -> status rcd = completed \/ status rcd = failed ->
  heap (exec m a) !! r = Some rcd.
Proof.
  intros Hwf Hco Hl Hs.
  assert (Hterm : is_terminal (status rcd) = true) by (destruct Hs as [->| ->]; reflexivity).
  assert (Hcur : forall item, current m = Some item -> wi_record item <> r).
  { intros item Hi <-. destruct (co_current m Hco item Hi) as (_ & x & Hx & Hst & _).
    rewrite Hl in Hx. injection Hx as <-. destruct Hs, Hst; congruence. }
  destruct a; simpl.
  - unfold submit_job. destruct (persist upload); [assumption|].
    cbn -[path_name path_join truthy_str].
    change (queue_full _) with (queue_full m).
    assert (next_ref m <> r).
    { intros <-. assert (next_ref m < next_ref m)%nat by (apply (wf_heap m Hwf); eauto). lia. }
    destruct (queue_full m); cbn [fst heap with_putters with_queue];
      by rewrite lookup_insert_ne.
  - unfold resume_put. destruct (putters m); [assumption|].
    destruct (queue_full m); assumption.
  - unfold cancel_job. destruct (records m !! id) as [r'|]; [|assumption].
    destruct (heap m !! r') as [rcd'|] eqn:Hl'; [|assumption].
    destruct (is_terminal (status rcd')) eqn:Ht'; [assumption|].
    cbn [fst mutate with_heap heap]. rewrite lookup_alter_ne; [assumption|].
    intros ->. rewrite Hl in Hl'. injection Hl' as <-. congruence.
  - unfold purge_expired_jobs.
    destruct (purge_fold_fields m
                (List.filter
                   (expired m (now - job_retention_minutes (settings m) * 60000000))
                   (map_to_list (records m)))) as (_ & _ & _ & Hh & _).
    by rewrite Hh.
  - unfold worker_get. destruct (shutdown m); [assumption|].
    destruct (current m); [assumption|].
    destruct (queue m) as [|item rest] eqn:Hq; [assumption|].
    cbn [heap with_queue].
    destruct (heap m !! wi_record item) as [rcd'|] eqn:Hl'; [|assumption].
    destruct (bool_decide (status rcd' = cancelled)); [assumption|].
    cbn [heap with_current mutate with_heap with_queue].
    rewrite lookup_alter_ne; [assumption|]. intros Heq.
    destruct (wf_pending m Hwf (wi_record item)) as (x & Hx & Hst).
    { unfold pending. rewrite Hq. simpl. by left. }
    rewrite Heq, Hl in Hx. injection Hx as <-. destruct Hs, Hst; congruence.
  - unfold engine_step. destruct (current m) as [item|] eqn:Hc; [|assumption].
    cbn [mutate with_heap heap]. rewrite lookup_alter_ne; [assumption|]. by apply Hcur.
  - destruct (current m) as [item|] eqn:Hc; [|unfold worker_finish; by rewrite Hc].
    destruct (worker_finish_fields m outcome t1 t2 item Hc) as (Hh & _).
    rewrite Hh, lookup_alter_ne; [assumption|]. by apply Hcur.
  - assumption.
Qed.

Lemma final_run actions : forall m r rcd,
  wf m -> coherent m ->
  heap m !! r = Some rcd -> status rcd = completed \/ status rcd = failed ->
  heap (run m actions) !! r = Some rcd.
Proof.
  induction actions as [|a actions IH]; intros m r rcd Hwf Hco Hl Hs; [assumption|].
  simpl. apply IH; [by apply wf_exec|by apply coherent_exec| |assumption].
  by apply final_exec.
Qed.

(** X22. [completed] and [failed] are final: from a reachable state, whatever
    is submitted, cancelled, purged or processed afterwards, the record of a
    job that is [completed] or [failed] is never written again; its status,
    output path and error stay what they are. *)
Theorem final_record_frozen (m : JobManager) (r : ref) (rcd : JobRecord)
    (actions : list Action) :
  reachable m ->
  heap m !! r = Some rcd ->
  status rcd = completed \/ status rcd = failed ->
  heap (run m actions) !! r = Some rcd.
Proof.
  intros Hr. apply final_run; [by apply reachable_wf|by apply reachable_coherent].
Qed.

Lemma final_record_frozen_witness :
  status_of
    (run completed_manager
         [a_cancel "job-1" 20; a_submit upload_a auto_request "job-2" 21 22 23;
          a_worker_get 24 25; a_purge 30]) 0%nat
  = Some completed.
Proof.
  assert (H : exists rcd, heap completed_manager !! 0%nat = Some rcd /\
                          status rcd = completed)
    by (eexists; split; vm_compute; reflexivity).
  destruct H as (rcd & Hl & Hs).
  unfold status_of.
  rewrite (final_record_frozen completed_manager 0%nat rcd _
             completed_manager_reachable Hl (or_introl Hs)).
  simpl. by rewrite Hs.
Defined.

(** X23. A job cancelled while it is being processed is not stopped:
    [cancel_job] answers true and the status reads [cancelled], but the
    worker still holds the job, and when processing ends the status becomes
    [completed] or [failed] as if nothing had been cancelled. *)
Theorem cancel_while_processing (m : JobManager) (id : string) (item : WorkItem)
    (rcd : JobRecord) (now t1 t2 : datetime) (outcome : result TranscodeResult) :
  current m = Some item ->
  records m !! id = Some (wi_record item) ->
  heap m !! wi_record item = Some rcd ->
  status rcd = processing ->
  let m1 := (cancel_job m id now).1 in
  (cancel_job m id now).2 = true /\
  status_of m1 (wi_record item) = Some cancelled /\
  current m1 = Some item /\
  status_of (worker_finish m1 outcome t1 t2) (wi_record item)
    = Some (match outcome with inr _ => completed | inl _ => failed end).
Proof.
  intros Hc Hid Hl Hs. cbv zeta.
  assert (Hcancel : cancel_job m id now =
                    (mutate m (wi_record item) (fun record =>
                       set_updated_at (set_status record cancelled) now), true)).
  { unfold cancel_job. rewrite Hid, Hl, Hs. reflexivity. }
  rewrite Hcancel. cbn [fst snd].
  split; [reflexivity|]. split; [|split; [exact Hc|]].
  - unfold status_of. cbn [mutate with_heap heap]. by rewrite lookup_alter_eq, Hl.
  - unfold status_of.
    destruct (worker_finish_fields
                (mutate m (wi_record item) (fun record =>
                   set_updated_at (set_status record cancelled) now))
                outcome t1 t2 item Hc) as (Hh & _).
    rewrite Hh. cbn [mutate with_heap heap].
    rewrite !lookup_alter_eq, Hl. cbn. f_equal. apply mark_status.
Qed.

Lemma cancel_while_processing_witness :
  let m := worker_get hook_manager 3 4 in
  (cancel_job m "job-1" 5).2 = true /\
  status_of (cancel_job m "job-1" 5).1 0%nat = Some cancelled /\
  current (cancel_job m "job-1" 5).1
    = Some {| wi_record := 0%nat; wi_request := hook_request |} /\
  status_of (worker_finish (cancel_job m "job-1" 5).1
               (inl (RuntimeError "ffmpeg transcode failed")) 8 9) 0%nat
    = Some failed.
Proof.
  cbv zeta.
  assert (H : exists rcd, heap (worker_get hook_manager 3 4) !! 0%nat = Some rcd /\
                          status rcd = processing)
    by (eexists; split; vm_compute; reflexivity).
  destruct H as (rcd & Hl & Hs).
  apply (cancel_while_processing (worker_get hook_manager 3 4) "job-1"
           {| wi_record := 0%nat; wi_request := hook_request |} rcd 5 8 9
           (inl (RuntimeError "ffmpeg transcode failed"))).
  - reflexivity.
  - vm_compute. reflexivity.
  - exact Hl.
  - exact Hs.
Defined.

(** ** Purging *)

Lemma purge_fold_settings m l :
  settings (foldl purge_one m l) = settings m /\
  records (foldl purge_one m l)
  = foldl (fun acc (kr : string * nat) => delete kr.1 acc) (records m) l.
Proof.
  revert m. induction l as [|kr l IH]; intros m; simpl; [split; reflexivity|].
  destruct (IH (purge_one m kr)) as [Hs Hr]. split; assumption.
Qed.

Lemma lookup_fold_delete (l : list (string * nat)) : forall (rs : gmap string nat) id,
  foldl (fun acc (kr : string * nat) => delete kr.1 acc) rs l !! id
  = if decide (id ∈ l.*1) then None else rs !! id.
Proof.
  induction l as [|[k r] l IH]; intros rs id; simpl.
  - destruct (decide (id ∈ [])) as [H|]; [by apply elem_of_nil in H|reflexivity].
  - rewrite IH. destruct (decide (id ∈ l.*1)) as [Hin|Hnin].
    + rewrite decide_True; [reflexivity|]. by right.
    + destruct (decide (k = id)) as [->|Hne].
      * rewrite lookup_delete_eq, decide_True; [reflexivity|]. by left.
      * rewrite lookup_delete_ne by assumption.
        rewrite decide_False; [reflexivity|].
        intros H. simpl in H. apply elem_of_cons in H as [?|?];
          [congruence|contradiction].
Qed.

Lemma filter_nil {A} (f : A -> bool) (l : list A) :
  (forall x, In x l -> f x = false) -> List.filter f l = [].
Proof.
  induction l as [|x l IH]; intros H; [reflexivity|]. simpl.
  rewrite (H x) by (by left). apply IH. intros y Hy. apply H. by right.
Qed.

Lemma purge_records m now id :
  records (purge_expired_jobs m now) !! id =
    match records m !! id with
    | Some r =>
        if expired m (now - job_retention_minutes (settings m) * 60000000) (id, r)
        then None else Some r
    | None => None
    end.
Proof.
  unfold purge_expired_jobs.
  set (cutoff := now - job_retention_minutes (settings m) * 60000000).
  rewrite (proj2 (purge_fold_settings m _)), lookup_fold_delete.
  destruct (records m !! id) as [r|] eqn:Hid.
  - destruct (expired m cutoff (id, r)) eqn:He.
    + rewrite decide_True; [reflexivity|].
      apply list_elem_of_fmap. exists (id, r). split; [reflexivity|].
      apply list_elem_of_In, filter_In. split; [|assumption].
      apply list_elem_of_In, elem_of_map_to_list. assumption.
    + rewrite decide_False; [reflexivity|].
      intros H. apply list_elem_of_fmap in H as ([id' r'] & Heq & Hin).
      simpl in Heq. subst id'.
      apply list_elem_of_In, filter_In in Hin as [Hin Hexp].
      apply list_elem_of_In, elem_of_map_to_list in Hin.
      rewrite Hid in Hin. injection Hin as <-. congruence.
  - destruct (decide _) as [H|]; reflexivity.
Qed.

(** X24. [purge_expired_jobs] removes from the dictionary exactly the jobs
    whose [updated_at] is strictly older than [now] minus the retention time
    (a job exactly as old as the retention time stays), whatever their
    status; it touches neither the records themselves, nor the queue, nor
    the job being processed; and purging twice at the same instant does
    nothing more than purging once. *)
Theorem purge_expired_jobs_spec (m : JobManager) (now : datetime) :
  let cutoff := now - job_retention_minutes (settings m) * 60000000 in
  let m' := purge_expired_jobs m now in
  (forall id r rcd, records m !! id = Some r -> heap m !! r = Some rcd ->
     records m' !! id = if updated_at rcd <? cutoff then None else Some r) /\
  (forall id, records m !! id = None -> records m' !! id = None) /\
  heap m' = heap m /\ queue m' = queue m /\ putters m' = putters m /\
  current m' = current m /\
  purge_expired_jobs m' now = m'.
Proof.
  cbv zeta.
  destruct (purge_fold_fields m
              (List.filter
                 (expired m (now - job_retention_minutes (settings m) * 60000000))
                 (map_to_list (records m)))) as (Hq & Hp & Hc & Hh & _ & _).
  fold (purge_expired_jobs m now) in Hq, Hp, Hc, Hh.
  split; [|split; [|split; [|split; [|split; [|split]]]]]; try assumption.
  - intros id r rcd Hid Hl. rewrite purge_records, Hid.
    unfold expired. cbn [snd]. rewrite Hl. reflexivity.
  - intros id Hid. by rewrite purge_records, Hid.
  - unfold purge_expired_jobs at 1.
    assert (Hset : settings (purge_expired_jobs m now) = settings m)
      by apply purge_fold_settings.
    rewrite Hset, filter_nil; [reflexivity|].
    intros [id r] Hin. apply list_elem_of_In, elem_of_map_to_list in Hin.
    rewrite purge_records in Hin.
    destruct (records m !! id) as [r'|]; [|discriminate].
    destruct (expired m _ (id, r')) eqn:He; [discriminate|].
    injection Hin as ->. unfold expired in *. cbn [snd] in *. by rewrite Hh.
Qed.

Lemma purge_expired_jobs_spec_witness :
  records (purge_expired_jobs completed_manager 7200000009) !! "job-1" = Some 0%nat /\
  records (purge_expired_jobs completed_manager 7200000010) !! "job-1" = None.
Proof.
  assert (H : exists rcd, heap completed_manager !! 0%nat = Some rcd /\
                          updated_at rcd = 9)
    by (eexists; split; vm_compute; reflexivity).
  destruct H as (rcd & Hl & Hu).
  assert (Hid : records completed_manager !! "job-1" = Some 0%nat)
    by (vm_compute; reflexivity).
  split.
  - rewrite (proj1 (purge_expired_jobs_spec completed_manager 7200000009)
               "job-1" 0%nat rcd Hid Hl).
    rewrite Hu. reflexivity.
  - rewrite (proj1 (purge_expired_jobs_spec completed_manager 7200000010)
               "job-1" 0%nat rcd Hid Hl).
    rewrite Hu. reflexivity.
Defined.

(** ** The HTTP handlers *)

(** X25. In every reachable state the download handler serves a file exactly
    for a known job whose status is [completed], under the job's output path
    and its file name; for an unknown job and for a job in any other status
    it answers 404 [Job output not ready]. *)
Theorem download_iff_completed (m : JobManager) (id : string) (now : datetime) :
  reachable m ->
  (forall detail, get_job m id now = Some detail -> d_status detail = completed ->
     exists path,
       d_output_path detail = Some path /\
       main.download_job m id now
         = http_ok {| fr_path := path; fr_filename := path_name path;
                      fr_media_type := "video/mp4" |}) /\
  ((get_job m id now = None \/
    exists detail, get_job m id now = Some detail /\ d_status detail <> completed) ->
   main.download_job m id now = HTTPException 404 "Job output not ready").
Proof.
  intros Hr. unfold main.download_job.
  destruct (get_job m id now) as [job|] eqn:Hget.
  - pose proof (reachable_coherent m Hr) as Hco.
    assert (Hiff : d_output_path job <> None <-> d_status job = completed).
    { unfold get_job in Hget.
      destruct (records m !! id) as [r|] eqn:Hid; [|discriminate].
      destruct (heap m !! r) as [rcd|] eqn:Hl; [|discriminate].
      injection Hget as <-. destruct (co_ok m Hco r rcd Hl) as [Hout _].
      unfold to_detail. destruct (progress_and_eta rcd now). exact Hout. }
    split.
    + intros detail [= <-] Hs. apply Hiff in Hs.
      destruct (d_output_path job) as [path|]; [|contradiction]. eauto.
    + intros [H|(detail & [= <-] & Hs)]; [discriminate|].
      destruct (d_output_path job) as [path|] eqn:E; [|reflexivity].
      exfalso. apply Hs, Hiff. discriminate.
  - split; [discriminate|reflexivity].
Qed.

Lemma download_iff_completed_witness :
  exists path,
    main.download_job completed_manager "job-1" 10
    = http_ok {| fr_path := path; fr_filename := path_name path;
                 fr_media_type := "video/mp4" |}.
Proof.
  assert (H : exists d, get_job completed_manager "job-1" 10 = Some d /\
                        d_status d = completed)
    by (eexists; split; vm_compute; reflexivity).
  destruct H as (d & Hget & Hst).
  destruct (proj1 (download_iff_completed completed_manager "job-1" 10
                     completed_manager_reachable) d Hget Hst) as (path & Hp & Hd).
  exists path. exact Hd.
Defined.

Lemma length_omap_all {A B} (f : A -> option B) (l : list A) :
  (forall x, x ∈ l -> is_Some (f x)) -> length (omap f l) = length l.
Proof.
  induction l as [|x l IH]; intros H; [reflexivity|]. cbn.
  destruct (H x) as [y Hy]; [by left|]. rewrite Hy. cbn.
  f_equal. apply IH. intros z Hz. apply H. by right.
Qed.

(** X26. [list_jobs] and [get_job] agree: a view is listed exactly when it is
    the answer of [get_job] for some identifier; and in a reachable state
    the list has one view per entry of the dictionary. *)
Theorem list_jobs_complete (m : JobManager) (now : datetime) :
  (forall detail,
     detail ∈ list_jobs m now <-> exists id, get_job m id now = Some detail) /\
  (reachable m -> length (list_jobs m now) = size (records m)).
Proof.
  unfold list_jobs. split.
  - intros detail. rewrite list_elem_of_omap. split.
    + intros ([id r] & Hin & Hd). apply elem_of_map_to_list in Hin.
      exists id. unfold get_job. rewrite Hin. exact Hd.
    + intros (id & Hget). unfold get_job in Hget.
      destruct (records m !! id) as [r|] eqn:Hid; [|discriminate].
      exists (id, r). split; [by apply elem_of_map_to_list|exact Hget].
  - intros Hr. pose proof (reachable_coherent m Hr) as Hco.
    rewrite length_omap_all; [apply length_map_to_list|].
    intros [id r] Hin. apply elem_of_map_to_list in Hin.
    destruct (co_records m Hco id r Hin) as (rcd & Hl & _).
    cbn [snd]. rewrite Hl. eauto.
Qed.

Lemma list_jobs_complete_witness :
  length (list_jobs completed_manager 10) = size (records completed_manager).
Proof.
  apply (proj2 (list_jobs_complete completed_manager 10)).
  exact completed_manager_reachable.
Defined.

(** ** The queue *)

(** X27. The queue is only ever extended at the back and shortened at the
    front: every step of the manager leaves it as it is, appends one item, or
    removes its first item.  In particular cancelling or purging a job never
    takes its item out of the queue: a cancelled job keeps its slot until
    the worker reaches it. *)
Theorem queue_discipline (m : JobManager) (a : Action) :
  (queue (exec m a) = queue m \/
   (exists item, queue (exec m a) = (queue m ++ [item])%list) \/
   (exists item, queue m = item :: queue (exec m a))) /\
  (forall id now, queue (cancel_job m id now).1 = queue m) /\
  (forall now, queue (purge_expired_jobs m now) = queue m).
Proof.
  assert (Hcancel : forall id now, queue (cancel_job m id now).1 = queue m).
  { intros id now. unfold cancel_job.
    destruct (records m !! id) as [r|]; [|reflexivity].
    destruct (heap m !! r) as [rcd|]; [|reflexivity].
    destruct (is_terminal (status rcd)); reflexivity. }
  assert (Hpurge : forall now, queue (purge_expired_jobs m now) = queue m).
  { intros now. unfold purge_expired_jobs. apply purge_fold_fields. }
  split; [|split; assumption].
  destruct a; simpl.
  - unfold submit_job. destruct (persist upload); [by left|].
    cbn -[path_name path_join truthy_str].
    change (queue_full _) with (queue_full m).
    destruct (queue_full m); cbn [fst queue with_putters with_queue];
      [by left|right; left; eauto].
  - unfold resume_put. destruct (putters m) as [|item rest]; [by left|].
    destruct (queue_full m); [by left|]. right. left. eauto.
  - left. apply Hcancel.
  - left. apply Hpurge.
  - unfold worker_get. destruct (shutdown m); [by left|].
    destruct (current m); [by left|].
    destruct (queue m) as [|item rest] eqn:Hq; [by left|].
    right. right. exists item. cbn [heap with_queue].
    destruct (heap m !! wi_record item) as [rcd|]; [|reflexivity].
    destruct (bool_decide (status rcd = cancelled)); reflexivity.
  - left. unfold engine_step. destruct (current m); reflexivity.
  - left. destruct (current m) as [item|] eqn:Hc; [|unfold worker_finish; by rewrite Hc].
    by destruct (worker_finish_fields m outcome t1 t2 item Hc) as (_ & _ & _ & _ & Hq & _).
  - by left.
Qed.

(** ** The ffmpeg listings read at start-up *)

Lemma second_field parts field :
  parts !! 1%nat = Some field <->
  (2 <=? length parts)%nat = true /\ nth 1 parts "" = field.
Proof.
  destruct parts as [|a [|b rest]]; simpl; split;
    try (intros [? ?]; discriminate); try discriminate.
  - intros [= <-]. by split.
  - intros [_ <-]. reflexivity.
Qed.

Lemma listed_names_fold (lines : list string) (names : gset string) (name : string) :
  name ∈ foldl (fun (names : gset string) line =>
                  let parts := str_split line in
                  if (2 <=? length parts)%nat && str_isidentifier (nth 1 parts "")
                  then names ∪ {[ lower (nth 1 parts "") ]}
                  else names) names lines <->
  name ∈ names \/
  exists line field, line ∈ lines /\ str_split line !! 1%nat = Some field /\
                     str_isidentifier field = true /\ name = lower field.
Proof.
  revert names. induction lines as [|line lines IH]; intros names; cbn [foldl].
  - split; [by left|]. intros [H|(line & field & H & _)]; [assumption|].
    by apply elem_of_nil in H.
  - rewrite IH. split.
    + intros [H|(l & field & Hl & Hf)].
      * cbv beta zeta in H.
        destruct ((2 <=? length (str_split line))%nat) eqn:Hlen; cbn [andb] in H;
          [|by left].
        destruct (str_isidentifier (nth 1 (str_split line) "")) eqn:Hid; [|by left].
        apply elem_of_union in H as [H|H]; [by left|].
        apply elem_of_singleton in H. right.
        exists line, (nth 1 (str_split line) "").
        split; [apply elem_of_cons; by left|].
        split; [by apply second_field|]. by split.
      * right. exists l, field. split; [apply elem_of_cons; by right|assumption].
    + intros [H|(l & field & Hl & Hf & Hid & Hn)].
      * left. cbv beta zeta. destruct (_ && _); [apply elem_of_union; by left|assumption].
      * apply elem_of_cons in Hl as [->|Hl].
        -- left. apply second_field in Hf as [Hlen Hnth]. cbv beta zeta.
           rewrite Hlen, Hnth, Hid. cbn [andb].
           apply elem_of_union. right. by apply elem_of_singleton.
        -- right. exists l, field. by repeat split.
Qed.

Lemma _query_ffmpeg_list_elem settings host list_type name :
  name ∈ _query_ffmpeg_list settings host list_type <->
  exists ffmpeg stdout line field,
    which host (ffmpeg_command settings) = Some ffmpeg /\ ffmpeg <> "" /\
    subprocess_run host [ffmpeg; "-hide_banner"; "-loglevel"; "quiet"; "-" ++ list_type]
      = CompletedProcess stdout /\
    line ∈ str_splitlines stdout /\ str_split line !! 1%nat = Some field /\
    str_isidentifier field = true /\ name = lower field.
Proof.
  unfold _query_ffmpeg_list.
  destruct (which host (ffmpeg_command settings)) as [ffmpeg|] eqn:Hw; simpl.
  - destruct (bool_decide_reflect (ffmpeg = "")) as [->|Hne]; simpl.
    + split; [intros H; by apply not_elem_of_empty in H|].
      intros (f & _ & _ & _ & [= <-] & Hf & _). contradiction.
    + destruct (subprocess_run host _) as [stdout|stderr] eqn:Hrun.
      * rewrite listed_names_fold. split.
        -- intros [H|(line & field & H)]; [by apply not_elem_of_empty in H|].
           exists ffmpeg, stdout, line, field. by repeat split; try apply H.
        -- intros (f & out & line & field & [= <-] & _ & Hr & H).
           rewrite Hrun in Hr. injection Hr as <-. right. by exists line, field.
      * split; [intros H; by apply not_elem_of_empty in H|].
        intros (f & out & _ & _ & [= <-] & _ & Hr & _). rewrite Hrun in Hr. discriminate.
  - split; [intros H; by apply not_elem_of_empty in H|].
    intros (f & _ & _ & _ & [=] & _).
Qed.

Lemma _query_ffmpeg_list_unavailable settings host list_type :
  which host (ffmpeg_command settings) = None \/
  (forall argv, exists stderr, subprocess_run host argv = CalledProcessError stderr) ->
  _query_ffmpeg_list settings host list_type = ∅.
Proof.
  intros H. unfold _query_ffmpeg_list.
  destruct H as [->|H]; [reflexivity|].
  destruct (negb _); [reflexivity|].
  by destruct (H [default "" (which host (ffmpeg_command settings)); "-hide_banner";
                  "-loglevel"; "quiet"; "-" ++ list_type]) as [stderr ->].
Qed.

(** X28. The names [_query_ffmpeg_list] returns are exactly the second
    fields, in lower case, of the lines of the listing whose second field is
    an identifier; there are none when the ffmpeg binary is not found or the
    listing command fails.  Every name of the set is in lower case, so the
    lower-cased look-ups of [_select_rkmpp_codecs] compare like with like. *)
Theorem query_ffmpeg_list_names (settings : Settings) (host : Host)
    (list_type name : string) :
  (name ∈ _query_ffmpeg_list settings host list_type <->
   exists ffmpeg stdout line field,
     which host (ffmpeg_command settings) = Some ffmpeg /\ ffmpeg <> "" /\
     subprocess_run host [ffmpeg; "-hide_banner"; "-loglevel"; "quiet"; "-" ++ list_type]
       = CompletedProcess stdout /\
     line ∈ str_splitlines stdout /\ str_split line !! 1%nat = Some field /\
     str_isidentifier field = true /\ name = lower field) /\
  (name ∈ _query_ffmpeg_list settings host list_type -> lower name = name).
Proof.
  split; [apply _query_ffmpeg_list_elem|].
  intros H. apply _query_ffmpeg_list_elem in H
    as (_ & _ & _ & field & _ & _ & _ & _ & _ & _ & ->).
  apply lower_idem.
Qed.

Lemma _select_rkmpp_codecs_use_hw self info target :
  (_select_rkmpp_codecs self info target).1.1 = true <->
  (if decide (target = h265) then "hevc_rkmpp" else "h264_rkmpp") ∈ ffmpeg_encoders self.
Proof.
  unfold _select_rkmpp_codecs, _rkmpp_encoder_name. cbn [fst].
  destruct (decide (target = h265)) as [->|Ht].
  - assert (L : lower "hevc_rkmpp" = "hevc_rkmpp") by reflexivity.
    simpl in L |- *. rewrite !L.
    by destruct (bool_decide_reflect ("hevc_rkmpp" ∈ ffmpeg_encoders self)).
  - rewrite (bool_decide_eq_false_2 _ Ht).
    assert (L : lower "h264_rkmpp" = "h264_rkmpp") by reflexivity.
    simpl in L |- *. rewrite !L.
    by destruct (bool_decide_reflect ("h264_rkmpp" ∈ ffmpeg_encoders self)).
Qed.

Lemma _select_rkmpp_codecs_nothing_listed self info target :
  ffmpeg_decoders self = ∅ -> ffmpeg_encoders self = ∅ ->
  _select_rkmpp_codecs self info target = (false, "", "").
Proof.
  intros Hd He. unfold _select_rkmpp_codecs, _rkmpp_encoder_name. rewrite Hd, He.
  assert (Hempty : forall s : string, bool_decide (s ∈ (∅ : gset string)) = false).
  { intros s. apply bool_decide_eq_false_2, not_elem_of_empty. }
  cbv zeta.
  destruct (i_video info) as [v|];
    [destruct (truthy_str (s_codec_name v));
       [destruct (_rkmpp_decoder_name _) as [d|] eqn:Hn|]|];
    rewrite ?Hempty; try (by destruct (bool_decide (target = h265))).
  apply _rkmpp_decoder_name_lower in Hn as [_ Hne].
  cbn [truthy_str]. rewrite (bool_decide_eq_false_2 _ Hne).
  by destruct (bool_decide (target = h265)).
Qed.

(** X29. The engine built at start-up encodes in hardware exactly when the
    encoder listing of ffmpeg has a line whose second field is an identifier
    that is, up to the case of its letters, the RKMPP encoder of the target
    codec.  When the ffmpeg binary is not found, or the listing commands
    fail, it selects no hardware codec at all and every job is encoded in
    software. *)
Theorem new_engine_hardware (settings : Settings) (host : Host) (info : MediaInfo)
    (target : CodecPreference) :
  let wanted := if decide (target = h265) then "hevc_rkmpp" else "h264_rkmpp" in
  let engine := new_engine settings host in
  ((_select_rkmpp_codecs engine info target).1.1 = true <->
   exists ffmpeg stdout line field,
     which host (ffmpeg_command settings) = Some ffmpeg /\ ffmpeg <> "" /\
     subprocess_run host [ffmpeg; "-hide_banner"; "-loglevel"; "quiet"; "-encoders"]
       = CompletedProcess stdout /\
     line ∈ str_splitlines stdout /\ str_split line !! 1%nat = Some field /\
     str_isidentifier field = true /\ lower field = wanted) /\
  (which host (ffmpeg_command settings) = None \/
   (forall argv, exists stderr, subprocess_run host argv = CalledProcessError stderr) ->
   _select_rkmpp_codecs engine info target = (false, "", "")).
Proof.
  cbv zeta. split.
  - rewrite _select_rkmpp_codecs_use_hw. cbn [new_engine ffmpeg_encoders].
    rewrite _query_ffmpeg_list_elem. split.
    + intros (f & out & line & field & Hw & Hne & Hr & Hl & Hf & Hid & Hn).
      exists f, out, line, field. by repeat split.
    + intros (f & out & line & field & Hw & Hne & Hr & Hl & Hf & Hid & Hn).
      exists f, out, line, field. by repeat split.
  - intros H. apply _select_rkmpp_codecs_nothing_listed; cbn [new_engine ffmpeg_decoders ffmpeg_encoders];
      by apply _query_ffmpeg_list_unavailable.
Qed.

(** ** The start-up self-test *)

Lemma run_self_tests_cases settings ffprobe_command require_rk_accel host :
  (forall cmd p, which host cmd = Some p -> p <> "") ->
  let ffmpeg := which host (ffmpeg_command settings) in
  let outcome := run_self_tests settings ffprobe_command require_rk_accel host in
  let crash :=
    require_rk_accel = true /\
    exists p s, ffmpeg = Some p /\
                subprocess_run host (decoders_cmd p) = CalledProcessError (Some s) /\
                s <> "" in
  let ok :=
    exists p, ffmpeg = Some p /\ which host ffprobe_command <> None /\
      (exists out, subprocess_run host (encode_test_cmd p) = CompletedProcess out) /\
      (require_rk_accel = true ->
       exists out, subprocess_run host (decoders_cmd p) = CompletedProcess out /\
                   str_in "rkmpp" (lower out) = true) in
  (crash /\ outcome = inl AttributeError) \/
  (ok /\
   outcome =
     inr [ {| description := "Binary '" ++ ffmpeg_command settings ++ "' available";
              passed := true; detail := None |};
           {| description := "Binary '" ++ ffprobe_command ++ "' available";
              passed := true; detail := None |};
           {| description := "ffmpeg test pattern encode"; passed := true;
              detail := None |} ]) \/
  (~ crash /\ ~ ok /\ exists failures, outcome = inl (SelfTestFailure failures)).
Proof.
  intros Hpath. cbv zeta.
  unfold run_self_tests, rk_probe, binary_available, encode_test. cbn [foldl app].
  destruct (which host (ffmpeg_command settings)) as [p|] eqn:Hf.
  - pose proof (Hpath _ _ Hf) as Hne.
    cbn [truthy_str from_option id]. rewrite (bool_decide_eq_false_2 _ Hne). cbn [negb].
    destruct (which host ffprobe_command) as [q|] eqn:Hq;
    destruct (subprocess_run host (encode_test_cmd p)) as [out1|err1] eqn:He;
    destruct require_rk_accel;
    try (destruct (subprocess_run host (decoders_cmd p)) as [out2|[s|]] eqn:Hd;
         [destruct (str_in "rkmpp" (lower out2)) eqn:Hin
         |destruct (bool_decide_reflect (s = "")) as [->|Hs]|]);
    cbn [negb app existsb passed orb truthy_str];
    rewrite ?(bool_decide_eq_false_2 _ Hs); cbn [negb];
    first
      [ left; split; [split; [reflexivity|exists p, s; by repeat split]|reflexivity]
      | right; left; split;
          [exists p; repeat split; [discriminate|eauto|try discriminate; eauto]
          |reflexivity]
      | right; right; split;
          [intros (Hrk & p' & s' & Hp' & Hr & Hs'); congruence
          |split;
             [intros (p' & Hp' & Hq' & (o & Ho) & Hrk');
              try destruct (Hrk' eq_refl) as (? & ? & ?); congruence
             |eexists; reflexivity]] ].
  - right. right. split; [intros (_ & p & s & [=] & _)|].
    split; [intros (p & [=] & _)|].
    cbn [truthy_str].
    destruct require_rk_accel; destruct (which host ffprobe_command);
      cbn [negb app existsb passed orb]; eexists; reflexivity.
Qed.

(** X30. [run_self_tests] passes exactly when both binaries are found, the
    test encode succeeds and, if RKMPP acceleration is required, the decoder
    listing succeeds and mentions rkmpp; it then returns the three passed
    checks (the acceleration probe adds no entry of its own).  It leaves with
    an [AttributeError], not with [SelfTestFailure], exactly when
    acceleration is required and the decoder listing fails with a non-empty
    standard error, whatever the other checks gave; in every remaining case
    it raises [SelfTestFailure]. *)
Theorem run_self_tests_outcome (settings : Settings) (ffprobe_command : string)
    (require_rk_accel : bool) (host : Host) :
  (forall cmd p, which host cmd = Some p -> p <> "") ->
  let ffmpeg := which host (ffmpeg_command settings) in
  let outcome := run_self_tests settings ffprobe_command require_rk_accel host in
  let crash :=
    require_rk_accel = true /\
    exists p s, ffmpeg = Some p /\
                subprocess_run host (decoders_cmd p) = CalledProcessError (Some s) /\
                s <> "" in
  let ok :=
    exists p, ffmpeg = Some p /\ which host ffprobe_command <> None /\
      (exists out, subprocess_run host (encode_test_cmd p) = CompletedProcess out) /\
      (require_rk_accel = true ->
       exists out, subprocess_run host (decoders_cmd p) = CompletedProcess out /\
                   str_in "rkmpp" (lower out) = true) in
  (outcome = inl AttributeError <-> crash) /\
  (forall results,
     outcome = inr results <->
     ok /\
     results =
       [ {| description := "Binary '" ++ ffmpeg_command settings ++ "' available";
            passed := true; detail := None |};
         {| description := "Binary '" ++ ffprobe_command ++ "' available";
            passed := true; detail := None |};
         {| description := "ffmpeg test pattern encode"; passed := true;
            detail := None |} ]) /\
  ((exists failures, outcome = inl (SelfTestFailure failures)) <-> ~ crash /\ ~ ok).
Proof.
  intros Hpath.
  pose proof (run_self_tests_cases settings ffprobe_command require_rk_accel host Hpath)
    as H.
  cbv zeta in H |- *.
  assert (Hexcl :
    (require_rk_accel = true /\
     exists p s, which host (ffmpeg_command settings) = Some p /\
                 subprocess_run host (decoders_cmd p) = CalledProcessError (Some s) /\
                 s <> "") ->
    ~ (exists p, which host (ffmpeg_command settings) = Some p /\
         which host ffprobe_command <> None /\
         (exists out, subprocess_run host (encode_test_cmd p) = CompletedProcess out) /\
         (require_rk_accel = true ->
          exists out, subprocess_run host (decoders_cmd p) = CompletedProcess out /\
                      str_in "rkmpp" (lower out) = true))).
  { intros (Hrk & p & s & Hp & Hr & _) (p' & Hp' & _ & _ & Hd).
    destruct (Hd Hrk) as (out & Ho & _). congruence. }
  destruct H as [[Hc ->]|[[Hok ->]|(Hnc & Hno & failures & ->)]].
  - split; [by split|]. split.
    + intros results. split; [discriminate|]. intros [Hok _]. by apply Hexcl in Hok.
    + split; [intros [f [=]]|]. intros [Hnc _]. contradiction.
  - split; [split; [discriminate|intros Hc; by apply Hexcl in Hc]|]. split.
    + intros results. split; [intros [= <-]; by split|intros [_ ->]; reflexivity].
    + split; [intros [f [=]]|]. intros [_ Hno]. contradiction.
  - split; [split; [discriminate|contradiction]|]. split.
    + intros results. split; [discriminate|]. intros [Hok _]. contradiction.
    + split; [by intros _|]. intros _. by exists failures.
Qed.

Lemma run_self_tests_outcome_witness :
  let host := {| which := fun cmd => Some ("/usr/bin/" ++ cmd);
                 subprocess_run := fun argv =>
                   if bool_decide (argv = decoders_cmd "/usr/bin/ffmpeg")
                   then CalledProcessError (Some "Unrecognized option")
                   else CompletedProcess "";
                 path_exists := fun _ => false |} in
  run_self_tests default_settings "ffprobe" true host = inl AttributeError /\
  exists results, run_self_tests default_settings "ffprobe" false host = inr results.
Proof.
  cbv zeta.
  set (host := {| which := fun cmd => Some ("/usr/bin/" ++ cmd);
                  subprocess_run := fun argv =>
                    if bool_decide (argv = decoders_cmd "/usr/bin/ffmpeg")
                    then CalledProcessError (Some "Unrecognized option")
                    else CompletedProcess "";
                  path_exists := fun _ => false |}).
  assert (Hpath : forall cmd p, which host cmd = Some p -> p <> "").
  { intros cmd p [= <-]. discriminate. }
  split.
  - apply (run_self_tests_outcome default_settings "ffprobe" true host Hpath).
    split; [reflexivity|].
    exists "/usr/bin/ffmpeg", "Unrecognized option".
    split; [reflexivity|]. split; [reflexivity|discriminate].
  - eexists.
    apply (run_self_tests_outcome default_settings "ffprobe" false host Hpath).
    split; [|reflexivity].
    exists "/usr/bin/ffmpeg". split; [reflexivity|].
    split; [discriminate|]. split; [by exists ""|discriminate].
Defined.
